(** * Helm Poll: the client core of [legacy.app.js]

    A shallow embedding of the identity, signing, proof-of-work, stamp-pool,
    local-vote, assertion and result-normalising code of
    [app/Helm Poll/src/legacy/legacy.app.js], and the properties the
    specification states about it.

    Conventions of the embedding.
    - A JavaScript string is a [string] holding its UTF-8 bytes (what
      [TextEncoder.encode] yields). [trim] strips the white space of
      [String.prototype.trim], code point by code point; [toUpperCase] is
      that of ASCII texts, which the method names are.
    - A parsed JSON document is a [json]; a JavaScript value that may be
      [undefined] is an [option json], [None] being [undefined].
    - JSON numbers are the integers [Z]: vote counts, weights, timestamps and
      HTTP statuses are integral, and double arithmetic is exact on them.
    - A JSON object used as a map is a [gmap] of its own properties. An
      assignment [o[k] = v] is [js_set]: it makes an own property, except
      under the name ["__proto__"]. A read [o[k]] by a key computed at run
      time (a poll identifier, a token, a label) is the own property for
      every key but the names of the members of [Object.prototype]: such
      a key is a [plainKey].
    - [localStorage], the network, the clock and the random sources are
      threaded explicitly through a state-and-exception monad. *)

From Stdlib Require Import ZArith String Ascii List DecimalString QArith Qround Lia.
From stdpp Require Import base option list gmap strings.
From Stdlib Require OrderedTypeEx.
#[local] Open Scope string_scope.
#[local] Open Scope list_scope.
#[local] Open Scope Z_scope.

(* ===================================================================== *)
(** ** JavaScript values *)
(* ===================================================================== *)

#[warnings="-register-all"] Inductive json : Type :=
  | JNull
  | JBool (b : bool)
  | JNum (n : Z)
  | JStr (s : string)
  | JArr (l : list json)
  | JObj (m : gmap string json).

(** A value as an expression yields it: [None] is [undefined]. *)
Abbreviation value := (option json).

Definition undefined : value := None.

(** [Boolean(v)]: the falsy JSON values are [null], [false], [0] and [""]. *)
Definition truthyJ (j : json) : bool :=
  match j with
  | JNull => false
  | JBool b => b
  | JNum n => negb (n =? 0)
  | JStr s => negb (String.eqb s "")
  | JArr _ | JObj _ => true
  end.

Definition truthy (v : value) : bool :=
  match v with None => false | Some j => truthyJ j end.

(** [a || b] *)
Definition js_or (a b : value) : value := if truthy a then a else b.

(** [a ?? b]: [b] when [a] is [null] or [undefined]. *)
Definition js_nullish (a b : value) : value :=
  match a with None | Some JNull => b | _ => a end.

(** [v == null] *)
Definition is_nullish (v : value) : bool :=
  match v with None | Some JNull => true | _ => false end.

(** [o.k] on a value that is neither [null] nor [undefined]: an own property
    of an object, [undefined] on every other value. *)
Definition getProp (j : json) (k : string) : value :=
  match j with JObj m => m !! k | _ => None end.

(** [o[k] = v] on a plain object [o]: the own property [k] is set. One name
    is an exception, ["__proto__"], when [o] has no own property of that
    name (only [JSON.parse] makes one): the assignment then reaches the
    setter that [Object.prototype] holds under that name, which makes no own
    property, so that [JSON.stringify(o)] is what it was. *)
Definition js_set {V} (k : string) (v : V) (o : gmap string V) : gmap string V :=
  match o !! k with
  | Some _ => <[k := v]> o
  | None => if String.eqb k "__proto__" then o else <[k := v]> o
  end.

(** The members of [Object.prototype]: [o[k]] reads them when the plain
    object [o] has no own property [k]. *)
Definition Object_prototype_names : list string :=
  [ "__proto__"; "constructor"; "hasOwnProperty"; "isPrototypeOf";
    "propertyIsEnumerable"; "toLocaleString"; "toString"; "valueOf";
    "__defineGetter__"; "__defineSetter__"; "__lookupGetter__"; "__lookupSetter__" ].

(** A key that names no member of [Object.prototype]: at such a key a plain
    object is read as the map of its own properties. The lookups [m !! k]
    below stand for [o[k]] at such keys. *)
Definition plainKey (k : string) : bool :=
  negb (existsb (String.eqb k) Object_prototype_names).

(** [v?.k] *)
Definition optProp (v : value) (k : string) : value :=
  match v with
  | None | Some JNull => None
  | Some j => getProp j k
  end.

(** [typeof v === "number"], ["string"], ["boolean"], ["object"]. *)
Definition typeof_number (v : value) : bool :=
  match v with Some (JNum _) => true | _ => false end.

Definition typeof_string (v : value) : bool :=
  match v with Some (JStr _) => true | _ => false end.

Definition typeof_boolean (v : value) : bool :=
  match v with Some (JBool _) => true | _ => false end.

Definition typeof_object (v : value) : bool :=
  match v with Some JNull | Some (JArr _) | Some (JObj _) => true | _ => false end.

(** [Array.isArray(v)] *)
Definition isArray (v : value) : bool :=
  match v with Some (JArr _) => true | _ => false end.

(** Decimal text of a number: [String(n)]. *)
Definition string_of_Z (n : Z) : string := NilZero.string_of_int (Z.to_int n).

Definition string_of_nat (n : nat) : string := NilZero.string_of_uint (Nat.to_uint n).

Fixpoint join (sep : string) (l : list string) : string :=
  match l with
  | [] => ""
  | [x] => x
  | x :: r => x +:+ sep +:+ join sep r
  end.

(** [String(v)] on JSON values: arrays join their elements with a comma,
    [null] elements printing as the empty text; every object prints as
    ["[object Object]"]. *)
Fixpoint ToStringJ (j : json) : string :=
  match j with
  | JNull => "null"
  | JBool true => "true"
  | JBool false => "false"
  | JNum n => string_of_Z n
  | JStr s => s
  | JArr l =>
      join "," ((fix elems (l : list json) : list string :=
                   match l with
                   | [] => []
                   | JNull :: r => "" :: elems r
                   | x :: r => ToStringJ x :: elems r
                   end) l)
  | JObj _ => "[object Object]"
  end.

Definition ToString (v : value) : string :=
  match v with None => "undefined" | Some j => ToStringJ j end.

(** [a === s] for a string [s]. *)
Definition strict_eq_str (a : value) (s : string) : bool :=
  match a with Some (JStr t) => String.eqb t s | _ => false end.

(** [s.startsWith(p)] *)
Definition startsWith (s p : string) : bool := String.prefix p s.

(** The white space [String.prototype.trim] strips is the [WhiteSpace] and
    [LineTerminator] code points of ECMA-262: U+0009 to U+000D, U+0020,
    U+00A0, U+1680, U+2000 to U+200A, U+2028, U+2029, U+202F, U+205F,
    U+3000 and U+FEFF. In UTF-8 the first six are one byte each
    ([is_space1]), U+00A0 is two bytes ([is_space2]) and the others are
    three ([is_space3]). *)
Definition is_space1 (c : ascii) : bool :=
  let n := nat_of_ascii c in
  ((9 <=? n) && (n <=? 13) || (n =? 32))%nat.

(** U+00A0, the bytes C2 A0. *)
Definition is_space2 (c1 c2 : ascii) : bool :=
  ((nat_of_ascii c1 =? 194) && (nat_of_ascii c2 =? 160))%nat.

(** The white space of three bytes: U+1680 (E1 9A 80), U+2000 to U+200A,
    U+2028, U+2029 and U+202F (E2 80 80 to 8A, A8, A9, AF), U+205F
    (E2 81 9F), U+3000 (E3 80 80) and U+FEFF (EF BB BF). *)
Definition is_space3 (c1 c2 c3 : ascii) : bool :=
  let n1 := nat_of_ascii c1 in
  let n2 := nat_of_ascii c2 in
  let n3 := nat_of_ascii c3 in
  ((n1 =? 225) && (n2 =? 154) && (n3 =? 128)
   || (n1 =? 226) && (n2 =? 128)
      && ((128 <=? n3) && (n3 <=? 138) || (n3 =? 168) || (n3 =? 169) || (n3 =? 175))
   || (n1 =? 226) && (n2 =? 129) && (n3 =? 159)
   || (n1 =? 227) && (n2 =? 128) && (n3 =? 128)
   || (n1 =? 239) && (n2 =? 187) && (n3 =? 191))%nat.

Section Strip.

(** A class of code points of one, two and three bytes. *)
Variable one : ascii -> bool.

Variable two : ascii -> ascii -> bool.

Variable three : ascii -> ascii -> ascii -> bool.

(** The text after its first code point, when that is of the class. *)
Definition lead (s : string) : option string :=
  match s with
  | EmptyString => None
  | String c1 r1 =>
      if one c1 then Some r1
      else
        match r1 with
        | EmptyString => None
        | String c2 r2 =>
            if two c1 c2 then Some r2
            else
              match r2 with
              | EmptyString => None
              | String c3 r3 => if three c1 c2 c3 then Some r3 else None
              end
        end
  end.

(** The text without the code points of the class in front. *)
Fixpoint strip (s : string) : string :=
  match s with
  | EmptyString => EmptyString
  | String c1 r1 =>
      if one c1 then strip r1
      else
        match r1 with
        | EmptyString => s
        | String c2 r2 =>
            if two c1 c2 then strip r2
            else
              match r2 with
              | EmptyString => s
              | String c3 r3 => if three c1 c2 c3 then strip r3 else s
              end
        end
  end.

End Strip.

(** [String.prototype.trimStart]: the white space in front is dropped, code
    point by code point. *)
Definition trim_start : string -> string := strip is_space1 is_space2 is_space3.

(** The same on a text read backwards, where the bytes of a code point come
    last byte first. *)
Definition trim_start_rev : string -> string :=
  strip is_space1 (fun c1 c2 => is_space2 c2 c1) (fun c1 c2 c3 => is_space3 c3 c2 c1).

Definition rev_string (s : string) : string :=
  string_of_list_ascii (rev (list_ascii_of_string s)).

(** [String.prototype.trim]: the white space in front and at the end. *)
Definition trim (s : string) : string :=
  rev_string (trim_start_rev (rev_string (trim_start s))).

(** [String.prototype.toUpperCase] on ASCII letters. *)
Definition upper_ascii (c : ascii) : ascii :=
  let n := nat_of_ascii c in
  if ((97 <=? n) && (n <=? 122))%nat then ascii_of_nat (n - 32) else c.

Fixpoint toUpperCase (s : string) : string :=
  match s with
  | EmptyString => EmptyString
  | String c r => String (upper_ascii c) (toUpperCase r)
  end.

(* ===================================================================== *)
(** ** Hex and bytes *)
(* ===================================================================== *)

(** Bytes are integers in [0, 256). *)
Definition byte_ok (b : Z) : Prop := 0 <= b < 256.

Definition hexDigit (n : Z) : ascii :=
  match n with
  | 0 => "0" | 1 => "1" | 2 => "2" | 3 => "3" | 4 => "4" | 5 => "5"
  | 6 => "6" | 7 => "7" | 8 => "8" | 9 => "9" | 10 => "a" | 11 => "b"
  | 12 => "c" | 13 => "d" | 14 => "e" | _ => "f"
  end%char.

(** [b.toString(16).padStart(2, "0")] for a byte. *)
Definition hex2 (b : Z) : string :=
  String (hexDigit (b / 16 mod 16)) (String (hexDigit (b mod 16)) EmptyString).

(** [bytesToHex] *)
Fixpoint bytesToHex (bytes : list Z) : string :=
  match bytes with
  | [] => ""
  | b :: r => hex2 b +:+ bytesToHex r
  end.

(** The value of a hex digit, [None] outside [[0-9a-fA-F]]. *)
Definition hexVal (c : ascii) : option Z :=
  let n := Z.of_nat (nat_of_ascii c) in
  if (48 <=? n) && (n <=? 57) then Some (n - 48)
  else if (97 <=? n) && (n <=? 102) then Some (n - 87)
  else if (65 <=? n) && (n <=? 70) then Some (n - 55)
  else None.

(** Pairs of hex digits to bytes; [None] on a digit outside the class or on
    an odd length. *)
Fixpoint hexPairs (s : string) : option (list Z) :=
  match s with
  | EmptyString => Some []
  | String c1 (String c2 r) =>
      match hexVal c1, hexVal c2, hexPairs r with
      | Some h, Some l, Some bs => Some (h * 16 + l :: bs)
      | _, _, _ => None
      end
  | String _ EmptyString => None
  end.

(** [hexToBytes]: [null] unless the trimmed text is a non-empty, even-length
    run of hex digits. *)
Definition hexToBytes (hex : string) : option (list Z) :=
  let clean := trim hex in
  if String.eqb clean "" then None else hexPairs clean.

(** UTF-8 bytes of a text ([TextEncoder.encode]). *)
Definition encode (s : string) : list Z :=
  map (fun c => Z.of_nat (nat_of_ascii c)) (list_ascii_of_string s).

(* ===================================================================== *)
(** ** SHA-256 and HMAC-SHA256 (the Web Crypto primitives the code calls) *)
(* ===================================================================== *)

Module SHA256.

(** FIPS 180-4 over 32-bit words held in [Z]. *)
Definition mask32 : Z := 4294967295.
Definition wrap (x : Z) : Z := Z.land x mask32.
Definition add32 (x y : Z) : Z := wrap (x + y).
Definition not32 (x : Z) : Z := Z.lxor x mask32.
Definition rotr (n x : Z) : Z :=
  Z.lor (Z.shiftr x n) (wrap (Z.shiftl x (32 - n))).

Definition Ch (x y z : Z) : Z := Z.lxor (Z.land x y) (Z.land (not32 x) z).
Definition Maj (x y z : Z) : Z :=
  Z.lxor (Z.lxor (Z.land x y) (Z.land x z)) (Z.land y z).
Definition Sigma0 (x : Z) : Z := Z.lxor (Z.lxor (rotr 2 x) (rotr 13 x)) (rotr 22 x).
Definition Sigma1 (x : Z) : Z := Z.lxor (Z.lxor (rotr 6 x) (rotr 11 x)) (rotr 25 x).
Definition sigma0 (x : Z) : Z := Z.lxor (Z.lxor (rotr 7 x) (rotr 18 x)) (Z.shiftr x 3).
Definition sigma1 (x : Z) : Z := Z.lxor (Z.lxor (rotr 17 x) (rotr 19 x)) (Z.shiftr x 10).

(** The first primes, by trial division. *)
Definition isPrime (n : Z) : bool :=
  (2 <=? n) && forallb (fun d => negb (n mod d =? 0) || (n <=? d))
                       (map Z.of_nat (seq 2 (Z.to_nat (Z.sqrt n)))).

Definition primes (upTo : nat) : list Z :=
  List.filter isPrime (map Z.of_nat (seq 2 upTo)).

(** The integer cube root below [2 ^ bits], one bit at a time. *)
Fixpoint cbrtBits (bits : nat) (n r : Z) : Z :=
  match bits with
  | O => r
  | S b =>
      let c := r + 2 ^ Z.of_nat b in
      cbrtBits b n (if c * c * c <=? n then c else r)
  end.

(** The first 32 bits of the fractional part of the cube root, and of the
    square root, of [p]. *)
Definition fracCbrt (p : Z) : Z := wrap (cbrtBits 40 (p * 2 ^ 96) 0).
Definition fracSqrt (p : Z) : Z := wrap (Z.sqrt (p * 2 ^ 64)).

(** The round constants: from the cube roots of the first 64 primes. *)
Definition K : list Z := Eval vm_compute in map fracCbrt (primes 310).

(** The eight working variables. *)
Record state := State { sa : Z; sb : Z; sc : Z; sd : Z; se : Z; sf : Z; sg : Z; sh : Z }.

(** The initial hash value: from the square roots of the first 8 primes. *)
Definition H0 : state :=
  Eval vm_compute in
    match map fracSqrt (primes 18) with
    | [a; b; c; d; e; f; g; h] => State a b c d e f g h
    | _ => State 0 0 0 0 0 0 0 0
    end.

(** A big-endian word from four bytes. *)
Definition word_of (b0 b1 b2 b3 : Z) : Z :=
  Z.lor (Z.lor (Z.shiftl b0 24) (Z.shiftl b1 16)) (Z.lor (Z.shiftl b2 8) b3).

Fixpoint words (bytes : list Z) : list Z :=
  match bytes with
  | b0 :: b1 :: b2 :: b3 :: r => word_of b0 b1 b2 b3 :: words r
  | _ => []
  end.

Definition bytes_of_word (x : Z) : list Z :=
  [ Z.land (Z.shiftr x 24) 255; Z.land (Z.shiftr x 16) 255;
    Z.land (Z.shiftr x 8) 255; Z.land x 255 ].

(** Message schedule: [win] holds the last sixteen words, oldest first;
    [n] more words are produced. *)
Fixpoint schedule (n : nat) (win : list Z) : list Z :=
  match n with
  | O => []
  | S n' =>
      let w16 := nth 0 win 0 in
      let w15 := nth 1 win 0 in
      let w7 := nth 9 win 0 in
      let w2 := nth 14 win 0 in
      let w := add32 (add32 (sigma1 w2) w7) (add32 (sigma0 w15) w16) in
      w :: schedule n' (tl win ++ [w])
  end.

Definition round (s : state) (kw : Z * Z) : state :=
  let '(k, w) := kw in
  let t1 := add32 (add32 (add32 (sh s) (Sigma1 (se s))) (Ch (se s) (sf s) (sg s)))
                  (add32 k w) in
  let t2 := add32 (Sigma0 (sa s)) (Maj (sa s) (sb s) (sc s)) in
  State (add32 t1 t2) (sa s) (sb s) (sc s) (add32 (sd s) t1) (se s) (sf s) (sg s).

(** One 64-byte block. *)
Definition compress (h : state) (block : list Z) : state :=
  let w := words block in
  let ws := w ++ schedule 48 w in
  let s := fold_left round (combine K ws) h in
  State (add32 (sa h) (sa s)) (add32 (sb h) (sb s)) (add32 (sc h) (sc s))
        (add32 (sd h) (sd s)) (add32 (se h) (se s)) (add32 (sf h) (sf s))
        (add32 (sg h) (sg s)) (add32 (sh h) (sh s)).

(** Padding: a one bit, zeros up to 56 mod 64, the bit length on 8 bytes. *)
Definition pad (msg : list Z) : list Z :=
  let len := Z.of_nat (length msg) in
  let zeros := Z.to_nat ((55 - len) mod 64) in
  let bits := len * 8 in
  msg ++ [128] ++ repeat 0 zeros
      ++ bytes_of_word (Z.shiftr bits 32) ++ bytes_of_word (wrap bits).

Fixpoint blocks (n : nat) (h : state) (bytes : list Z) : state :=
  match n with
  | O => h
  | S n' => blocks n' (compress h (firstn 64 bytes)) (skipn 64 bytes)
  end.

Definition digest_of (s : state) : list Z :=
  bytes_of_word (sa s) ++ bytes_of_word (sb s) ++ bytes_of_word (sc s)
    ++ bytes_of_word (sd s) ++ bytes_of_word (se s) ++ bytes_of_word (sf s)
    ++ bytes_of_word (sg s) ++ bytes_of_word (sh s).

Definition sha256 (msg : list Z) : list Z :=
  let p := pad msg in
  digest_of (blocks (length p / 64) H0 p).

(** RFC 2104 with SHA-256 (block size 64). *)
Definition hmac (key msg : list Z) : list Z :=
  let k0 := if (64 <? Z.of_nat (length key)) then sha256 key else key in
  let k := k0 ++ repeat 0 (64 - length k0) in
  let ipad := map (fun b => Z.lxor b 54) k in
  let opad := map (fun b => Z.lxor b 92) k in
  sha256 (opad ++ sha256 (ipad ++ msg)).

End SHA256.

(** [sha256Hex(text)] *)
Definition sha256Hex (text : string) : string :=
  bytesToHex (SHA256.sha256 (encode text)).

(** [makeNonceHex]-style hex of [hmacSha256Hex]: the key must be hex; the
    code throws otherwise. *)
Definition hmacSha256Hex_pure (keyHex message : string) : option string :=
  match hexToBytes keyHex with
  | None => None
  | Some keyBytes => Some (bytesToHex (SHA256.hmac keyBytes (encode message)))
  end.

(* ===================================================================== *)
(** ** Proof of work *)
(* ===================================================================== *)

(** ["0".repeat(n)] *)
Fixpoint zeros (n : nat) : string :=
  match n with O => "" | S n' => String "0" (zeros n') end.

(** [targetPrefix = "0".repeat(Math.max(0, Number(difficulty) || 0))] for a
    numeric difficulty. *)
Definition targetPrefix (difficulty : Z) : string :=
  zeros (Z.to_nat (Z.max 0 difficulty)).

(** The loop of [solvePowLite] from a given [nonce]; [fuel] bounds the number
    of candidates tried (the source loop is unbounded). The periodic
    [setTimeout] yield changes no value and is not represented. *)
Fixpoint solvePowLite_from (fuel : nat) (challenge prefix : string) (nonce : nat)
  : option string :=
  match fuel with
  | O => None
  | S fuel' =>
      let candidate := string_of_nat nonce in
      let h := sha256Hex (challenge +:+ ":" +:+ candidate) in
      if startsWith h prefix then Some candidate
      else solvePowLite_from fuel' challenge prefix (S nonce)
  end.

Definition solvePowLite (fuel : nat) (challenge : string) (difficulty : Z)
  : option string :=
  solvePowLite_from fuel challenge (targetPrefix difficulty) 0.

(** The number of leading ["0"] characters of a text (the predicate of the
    specification). *)
Fixpoint leadingZeros (h : string) : nat :=
  match h with
  | String c r => if Ascii.eqb c "0" then S (leadingZeros r) else O
  | EmptyString => O
  end.

(** Nonce [n] solves [challenge] at difficulty [d]. *)
Definition pow_ok (challenge : string) (d : Z) (n : nat) : Prop :=
  (Z.to_nat (Z.max 0 d) <= leadingZeros (sha256Hex (challenge +:+ ":" +:+ string_of_nat n)))%nat.

(* ===================================================================== *)
(** ** The device store, the host and the network *)
(* ===================================================================== *)

(** What [localStorage.getItem] holds under a key read with [JSON.parse]:
    a document, or text [JSON.parse] rejects (the empty text included, which
    every reader below treats the same way). *)
Inductive item : Type :=
  | Unparsable
  | Doc (j : json).

(** [breadpoll_local_votes_v1]: poll id -> { byToken, counts }. *)
Record VoteState : Type := mkVoteState {
  byToken : gmap string string;
  counts : gmap string Z;
}.

(** The keys of [localStorage] the core reads and writes. The maps written
    by the application itself are kept in parsed form; [JSON.stringify]
    followed by [JSON.parse] is the identity on them. *)
Record Storage : Type := mkStorage {
  breadpoll_tokens : gmap string json;
  breadpoll_local_polls_v1 : list json;
  breadpoll_local_votes_v1 : gmap string VoteState;
  breadpoll_remote_last_choice_v1 : gmap string string;
  exchange_stamps : option item;
  exchange_persona_id : option string;
  exchange_self_id : option string;
  exchange_signing_key : option string;
}.

Definition emptyStorage : Storage :=
  mkStorage ∅ [] ∅ ∅ None None None None.

Definition set_tokens (t : gmap string json) (s : Storage) : Storage :=
  mkStorage t (breadpoll_local_polls_v1 s) (breadpoll_local_votes_v1 s)
    (breadpoll_remote_last_choice_v1 s) (exchange_stamps s)
    (exchange_persona_id s) (exchange_self_id s) (exchange_signing_key s).

Definition set_local_polls (p : list json) (s : Storage) : Storage :=
  mkStorage (breadpoll_tokens s) p (breadpoll_local_votes_v1 s)
    (breadpoll_remote_last_choice_v1 s) (exchange_stamps s)
    (exchange_persona_id s) (exchange_self_id s) (exchange_signing_key s).

Definition set_local_votes (v : gmap string VoteState) (s : Storage) : Storage :=
  mkStorage (breadpoll_tokens s) (breadpoll_local_polls_v1 s) v
    (breadpoll_remote_last_choice_v1 s) (exchange_stamps s)
    (exchange_persona_id s) (exchange_self_id s) (exchange_signing_key s).

Definition set_last_choice (m : gmap string string) (s : Storage) : Storage :=
  mkStorage (breadpoll_tokens s) (breadpoll_local_polls_v1 s)
    (breadpoll_local_votes_v1 s) m (exchange_stamps s)
    (exchange_persona_id s) (exchange_self_id s) (exchange_signing_key s).

Definition set_stamps (p : option item) (s : Storage) : Storage :=
  mkStorage (breadpoll_tokens s) (breadpoll_local_polls_v1 s)
    (breadpoll_local_votes_v1 s) (breadpoll_remote_last_choice_v1 s) p
    (exchange_persona_id s) (exchange_self_id s) (exchange_signing_key s).

Definition set_persona (p : option string) (s : Storage) : Storage :=
  mkStorage (breadpoll_tokens s) (breadpoll_local_polls_v1 s)
    (breadpoll_local_votes_v1 s) (breadpoll_remote_last_choice_v1 s)
    (exchange_stamps s) p (exchange_self_id s) (exchange_signing_key s).

(** An HTTP request as [fetch] receives it. The headers are listed in the
    order the object literal writes them (a later entry of the same name
    overrides an earlier one); the body is the document whose
    [JSON.stringify] text is sent. *)
Record Request : Type := mkRequest {
  rq_method : string;
  rq_url : string;
  rq_headers : list (string * string);
  rq_body : option json;
}.

(** What the body of a response holds: a JSON document, or text
    [JSON.parse] rejects. *)
Inductive Body : Type :=
  | Text (raw : string)
  | Json (j : json).

(** What [fetch] yields: a transport failure (the promise rejects) or a
    response with its status. *)
Inductive Reply : Type :=
  | Unreachable
  | Http (status : Z) (body : Body).

(** The host facilities the code calls: [Date.now], [Math.random],
    [crypto.getRandomValues], [crypto.randomUUID], [JSON.stringify] and
    [String.prototype.localeCompare]. The first four are indexed by the
    number of draws made so far. *)
Record Host : Type := mkHost {
  host_now : nat -> Z;
  host_random : nat -> Q;
  host_bytes : nat -> nat -> Z;
  host_uuid : nat -> string;
  JSON_stringify : json -> string;
  localeCompare : string -> string -> comparison;
}.

(** The Exchange as the client sees it: its reply to a request, given the
    requests it has received before. Every server behaviour is such a
    function. *)
Definition Network : Type := list Request -> Request -> Reply.

Record World : Type := mkWorld {
  localStorage : Storage;
  net : Network;
  sent : list Request;     (* the requests issued so far, oldest first *)
  host : Host;
  tick : nat;              (* draws made from the host so far *)
}.

Inductive exn : Type :=
  | Error (msg : string)
  | TypeError
  | SyntaxError
  | NetworkFailure.

Inductive result (A : Type) : Type :=
  | Ok (a : A)
  | Thrown (e : exn).

Arguments Ok {A} a.

Arguments Thrown {A} e.

(** Computations over the world that may throw; what was written before a
    throw stays written. *)
Definition M (A : Type) : Type := World -> result A * World.

Definition ret {A} (a : A) : M A := fun w => (Ok a, w).

Definition throw {A} (e : exn) : M A := fun w => (Thrown e, w).

Definition bind {A B} (m : M A) (k : A -> M B) : M B :=
  fun w => match m w with
           | (Ok a, w') => k a w'
           | (Thrown e, w') => (Thrown e, w')
           end.

(** [try { m } catch { h }] *)
Definition try_catch {A} (m : M A) (h : exn -> M A) : M A :=
  fun w => match m w with
           | (Ok a, w') => (Ok a, w')
           | (Thrown e, w') => h e w'
           end.

Notation "'do' x <- m ; k" := (bind m (fun x => k))
  (at level 10, x name, m at level 100, k at level 200).

Notation "'run' m ; k" := (bind m (fun _ => k))
  (at level 10, m at level 100, k at level 200).

Definition getStorage : M Storage := fun w => (Ok (localStorage w), w).

Definition modifyStorage (f : Storage -> Storage) : M unit :=
  fun w => (Ok tt, mkWorld (f (localStorage w)) (net w) (sent w) (host w) (tick w)).

Definition getHost : M Host := fun w => (Ok (host w), w).

(** One draw from the host. *)
Definition draw : M nat :=
  fun w => (Ok (tick w),
            mkWorld (localStorage w) (net w) (sent w) (host w) (S (tick w))).

(** [fetch]: the request is issued and answered; on a transport failure the
    promise rejects. *)
Definition fetch (rq : Request) : M (Z * Body) :=
  fun w =>
    let w' := mkWorld (localStorage w) (net w) (sent w ++ [rq]) (host w) (tick w) in
    match net w (sent w) rq with
    | Unreachable => (Thrown NetworkFailure, w')
    | Http status body => (Ok (status, body), w')
    end.

(** [r.ok] *)
Definition status_ok (status : Z) : bool := (200 <=? status) && (status <=? 299).

(** [JSON.parse(raw)] on a body. *)
Definition parseBody (b : Body) : M json :=
  match b with Json j => ret j | Text _ => throw SyntaxError end.

(** [try { data = JSON.parse(raw); } catch { data = null; }] *)
Definition parseBodyOrNull (b : Body) : value :=
  match b with Json j => Some j | Text _ => Some JNull end.

(** [Date.now()] *)
Definition Date_now : M Z :=
  do t <- draw ; do h <- getHost ; ret (host_now h t).

(** [Math.random()] *)
Definition Math_random : M Q :=
  do t <- draw ; do h <- getHost ; ret (host_random h t).

(** [crypto.getRandomValues(new Uint8Array(byteLen))] *)
Definition getRandomValues (byteLen : nat) : M (list Z) :=
  do t <- draw ; do h <- getHost ;
  ret (map (fun i => host_bytes h t i mod 256) (seq 0 byteLen)).

(** [makeId()] where [crypto.randomUUID] exists. *)
Definition makeId : M string :=
  do t <- draw ; do h <- getHost ; ret (host_uuid h t).

(** [makeNonceHex(byteLen)] *)
Definition makeNonceHex (byteLen : nat) : M string :=
  do b <- getRandomValues byteLen ; ret (bytesToHex b).

(** [hmacSha256Hex(keyHex, message)] *)
Definition hmacSha256Hex (keyHex message : string) : M string :=
  match hmacSha256Hex_pure keyHex message with
  | None => throw (Error "Signing key must be hex (even length).")
  | Some sig => ret sig
  end.

(* ===================================================================== *)
(** ** Exchange identity and request signing *)
(* ===================================================================== *)

Definition EXCHANGE_API : string := "https://exchange.breadstandard.com/api".

(** The line feed ["\n"]. *)
Definition LF : string := String (ascii_of_nat 10) EmptyString.

(** [(localStorage.getItem(k) || "").trim()], then [v || null]. *)
Definition trimmedOrNull (stored : option string) : option string :=
  let v := trim (default "" stored) in
  if String.eqb v "" then None else Some v.

Definition getExchangeSelfIdOrNull (s : Storage) : option string :=
  trimmedOrNull (exchange_self_id s).

Definition getExchangeSigningKeyOrNull (s : Storage) : option string :=
  trimmedOrNull (exchange_signing_key s).

Record Creds : Type := mkCreds { self_id : string; signing_key : string }.

Definition getExchangeHmacCredsOrNull (s : Storage) : option Creds :=
  match getExchangeSelfIdOrNull s, getExchangeSigningKeyOrNull s with
  | Some i, Some k => Some (mkCreds i k)
  | _, _ => None
  end.

Definition missingIdentity : exn :=
  Error "Missing Exchange identity (self_id / signing_key).".

(** The text signed: five fields joined by line feeds. *)
Definition signingBase (method path ts nonce bodyHash : string) : string :=
  toUpperCase method +:+ LF +:+ path +:+ LF +:+ ts +:+ LF +:+ nonce +:+ LF +:+ bodyHash.

(** [bodyObjOrNull == null ? "" : JSON.stringify(bodyObjOrNull)] *)
Definition bodyTextOf (h : Host) (body : value) : string :=
  match body with
  | None | Some JNull => ""
  | Some b => JSON_stringify h b
  end.

(** [buildHmacHeaders(method, path, bodyObjOrNull)] *)
Definition buildHmacHeaders (method path : string) (bodyObjOrNull : value)
  : M (list (string * string)) :=
  do s <- getStorage ;
  match getExchangeHmacCredsOrNull s with
  | None => throw missingIdentity
  | Some creds =>
      do now <- Date_now ;
      let ts := string_of_Z now in
      do nonce <- makeNonceHex 12 ;
      do h <- getHost ;
      let bodyText := bodyTextOf h bodyObjOrNull in
      let bodyHash := sha256Hex bodyText in
      let base := signingBase method path ts nonce bodyHash in
      do sigHex <- hmacSha256Hex (signing_key creds) base ;
      ret [ ("X-Self-ID", self_id creds); ("X-Timestamp", ts);
            ("X-Nonce", nonce); ("X-Signature", sigHex) ]
  end.

(** [new URL(u).pathname] for an absolute URL: what follows the authority, up
    to the query or fragment. *)
Fixpoint drop_scheme (s : string) : string :=
  match s with
  | String ":" (String "/" (String "/" r)) => r
  | String _ r => drop_scheme r
  | EmptyString => EmptyString
  end.

Fixpoint from_slash (s : string) : string :=
  match s with
  | String "/" _ => s
  | String _ r => from_slash r
  | EmptyString => "/"
  end.

Fixpoint upto_query (s : string) : string :=
  match s with
  | String "?" _ | String "#" _ => EmptyString
  | String c r => String c (upto_query r)
  | EmptyString => EmptyString
  end.

Definition URL_pathname (u : string) : string :=
  upto_query (from_slash (drop_scheme u)).

(** [s.replace(/\/$/, "")] *)
Fixpoint dropTrailingSlash (s : string) : string :=
  match s with
  | String "/" EmptyString => EmptyString
  | String c r => String c (dropTrailingSlash r)
  | EmptyString => EmptyString
  end.

Definition apiPrefix : string := dropTrailingSlash (URL_pathname EXCHANGE_API).

(** The [opts] argument of [exchangeFetchAuthed]. *)
Record FetchOpts : Type := mkOpts {
  opt_method : option string;
  opt_body : value;
  opt_headers : list (string * string);
}.

(** [opts?.method || "GET"] *)
Definition methodOrGet (opts : FetchOpts) : string :=
  match opt_method opts with
  | Some m => if String.eqb m "" then "GET" else m
  | None => "GET"
  end.

(** [exchangeFetchAuthed(path, opts)] *)
Definition exchangeFetchAuthed (path : string) (opts : FetchOpts) : M (Z * Body) :=
  let method := toUpperCase (methodOrGet opts) in
  let bodyObj := opt_body opts in
  let signPath := apiPrefix +:+ path in
  do h <- buildHmacHeaders method signPath bodyObj ;
  let headers := [("Content-Type", "application/json")] ++ opt_headers opts ++ h in
  fetch (mkRequest method (EXCHANGE_API +:+ path) headers
           (if is_nullish bodyObj then None else bodyObj)).

(* ===================================================================== *)
(** ** The stamp pool *)
(* ===================================================================== *)

(** [getExchangeStampPool()] *)
Definition getExchangeStampPool (s : Storage) : list json :=
  match exchange_stamps s with
  | Some (Doc (JArr arr)) => filter (fun x => truthyJ x = true) arr
  | _ => []
  end.

(** SameValueZero, the equality of [Set]: by value on primitives; two
    distinct parsed arrays or objects are never the same value. *)
Definition sameValueZero (a b : json) : bool :=
  match a, b with
  | JNull, JNull => true
  | JBool x, JBool y => Bool.eqb x y
  | JNum x, JNum y => x =? y
  | JStr x, JStr y => String.eqb x y
  | _, _ => false
  end.

(** [set.add(x)] on the insertion-ordered elements of a [Set]. *)
Definition Set_add (set : list json) (x : json) : list json :=
  if existsb (sameValueZero x) set then set else set ++ [x].

(** [new Set(arr)] *)
Definition Set_of (arr : list json) : list json := fold_left Set_add arr [].

(** [typeof s === "string" && s.startsWith("s_")] *)
Definition isStampString (x : json) : bool :=
  match x with JStr s => startsWith s "s_" | _ => false end.

(** [addStampsToPool(newStamps)] *)
Definition addStampsToPool (newStamps : list json) (s : Storage) : Storage :=
  let cur := getExchangeStampPool s in
  let set := Set_of cur in
  let set := fold_left (fun set x => if isStampString x then Set_add set x else set)
                       newStamps set in
  set_stamps (Some (Doc (JArr set))) s.

(** The first declaration of [pickOneStampOrNull] (lines 224-231): take the
    first stamp and persist the remaining pool. The declaration that follows
    it in the same scope replaces it, so no call reaches this one. *)
Definition pickOneStampOrNull_first (s : Storage) : value * Storage :=
  match getExchangeStampPool s with
  | [] => (Some JNull, s)
  | stamp :: pool => (Some stamp, set_stamps (Some (Doc (JArr pool))) s)
  end.

(** [pickOneStampOrNull()] as the program runs it: the second declaration
    (lines 233-237), [pool[Math.floor(Math.random() * pool.length)]]. *)
Definition pickOneStampOrNull : M value :=
  do s <- getStorage ;
  let pool := getExchangeStampPool s in
  match pool with
  | [] => ret (Some JNull)
  | _ =>
      do u <- Math_random ;
      let i := Qfloor (u * inject_Z (Z.of_nat (length pool))) in
      ret (if i <? 0 then None else nth_error pool (Z.to_nat i))
  end.

(** [clearExchangeStampPool()] *)
Definition clearExchangeStampPool (s : Storage) : Storage :=
  set_persona None (set_stamps None s).

Definition emptyOpts : FetchOpts := mkOpts None None [].

(** [fetchStampsFromExchange()]. The three statistics keys it records for
    the Settings page ([exchange_last_*]) are read by no function of the
    core and are left out. *)
Definition fetchStampsFromExchange : M json :=
  do s <- getStorage ;
  match getExchangeHmacCredsOrNull s with
  | None => throw missingIdentity
  | Some _ =>
      do r <- exchangeFetchAuthed "/stamp" (mkOpts (Some "POST") (Some (JObj ∅)) []) ;
      do data <- parseBody (snd r) ;
      run (if truthyJ data && truthy (getProp data "persona_id")
           then modifyStorage (set_persona (Some (ToString (getProp data "persona_id"))))
           else ret tt) ;
      run (match (if truthyJ data then getProp data "issued" else None) with
           | Some (JArr (x :: issued)) => modifyStorage (addStampsToPool (x :: issued))
           | _ => ret tt
           end) ;
      ret data
  end.

(** [getOrFetchOneStampOrNull()] *)
Definition getOrFetchOneStampOrNull : M value :=
  do s <- getStorage ;
  match getExchangeStampPool s with
  | _ :: _ => pickOneStampOrNull
  | [] =>
      match getExchangeHmacCredsOrNull s with
      | None => ret (Some JNull)
      | Some _ =>
          try_catch (run fetchStampsFromExchange ; pickOneStampOrNull)
                    (fun _ => ret (Some JNull))
      end
  end.

(* ===================================================================== *)
(** ** Voter tokens, local polls and local votes *)
(* ===================================================================== *)

Definition getTokens (s : Storage) : gmap string json := breadpoll_tokens s.

(** [setToken(pollId, token)]; the property key is [String(pollId)]. *)
Definition setToken (pollId : value) (token : json) (s : Storage) : Storage :=
  set_tokens (js_set (ToString pollId) token (getTokens s)) s.

(** [getToken(pollId)]: [t[pollId] || null], at a [plainKey]. *)
Definition getToken (pollId : value) (s : Storage) : value :=
  js_or (getTokens s !! ToString pollId) (Some JNull).

(** [ensureLocalToken(pollId)] *)
Definition ensureLocalToken (pollId : value) : M value :=
  do s <- getStorage ;
  let tok := getToken pollId s in
  if truthy tok then ret tok
  else
    do id <- makeId ;
    let tok := JStr ("localtok_" +:+ id) in
    run modifyStorage (setToken pollId tok) ;
    ret (Some tok).

Definition loadLocalPolls (s : Storage) : list json := breadpoll_local_polls_v1 s.

(** [addLocalPoll(p)] *)
Definition addLocalPoll (p : json) (s : Storage) : Storage :=
  set_local_polls (p :: loadLocalPolls s) s.

(** [removeLocalPoll(id)]: [polls.filter(p => p.id !== id)]; reading [p.id]
    of a [null] entry throws before anything is saved. *)
Definition removeLocalPoll (id : string) : M unit :=
  do s <- getStorage ;
  let polls := loadLocalPolls s in
  if existsb (fun p => match p with JNull => true | _ => false end) polls
  then throw TypeError
  else modifyStorage
         (set_local_polls (filter (fun p => strict_eq_str (getProp p "id") id = false) polls)).

Definition loadLocalVotesAll (s : Storage) : gmap string VoteState :=
  breadpoll_local_votes_v1 s.

Definition emptyVoteState : VoteState := mkVoteState ∅ ∅.

(** [options.forEach(opt => { if (typeof counts[opt] !== "number") counts[opt] = 0; })];
    an option is given by its property key. *)
Definition initCounts (options : list string) (c : gmap string Z) : gmap string Z :=
  fold_left (fun c opt => match c !! opt with Some _ => c | None => js_set opt 0 c end)
            options c.

(** [getLocalVoteState(pollId, options)], [pollId] a [plainKey]. *)
Definition getLocalVoteState (pollId : string) (options : list string) (s : Storage)
  : VoteState * Storage :=
  let all := loadLocalVotesAll s in
  let st := default emptyVoteState (all !! pollId) in
  let st := mkVoteState (byToken st) (initCounts options (counts st)) in
  (st, set_local_votes (js_set pollId st all) s).

(** [counts[label]] read as a number, an absent label counting for none. *)
Definition countOf (c : gmap string Z) (label : string) : Z := default 0 (c !! label).

(** [setLocalVote(pollId, token, choice, options)], [pollId] and [token]
    each a [plainKey]. A [choice] of ["__proto__"] that the counts do not
    hold as an own property gets no count: [st.counts[choice] = 0] and
    [st.counts[choice] += 1] store nothing. *)
Definition setLocalVote (pollId token choice : string) (options : list string)
    (s : Storage) : Storage :=
  let all := loadLocalVotesAll s in
  let st := default emptyVoteState (all !! pollId) in
  let counts0 := initCounts options (counts st) in
  let prev := byToken st !! token in
  (* if (prev && typeof st.counts[prev] === "number") *)
  let counts1 :=
    match prev with
    | Some p =>
        if String.eqb p "" then counts0
        else match counts0 !! p with
             | Some n => <[p := Z.max 0 (n - 1)]> counts0
             | None => counts0
             end
    | None => counts0
    end in
  let byToken1 := js_set token choice (byToken st) in
  let counts2 :=
    match counts1 !! choice with Some _ => counts1 | None => js_set choice 0 counts1 end in
  let counts3 := js_set choice (countOf counts2 choice + 1) counts2 in
  set_local_votes (js_set pollId (mkVoteState byToken1 counts3) all) s.

(** [Object.values(counts).reduce((a, b) => a + (Number(b) || 0), 0)] on
    numeric counts. *)
Definition sumCounts (c : gmap string Z) : Z :=
  fold_left (fun a b => a + b) (map snd (map_to_list c)) 0.

Record LocalResults : Type := mkLocalResults {
  lr_poll_id : string;
  lr_total_votes : Z;
  lr_counts : gmap string Z;
}.

(** [buildLocalResults(poll)], the poll given by its id and option keys. *)
Definition buildLocalResults (pollId : string) (options : list string) (s : Storage)
  : LocalResults * Storage :=
  let '(st, s') := getLocalVoteState pollId options s in
  (mkLocalResults pollId (sumCounts (counts st)) (counts st), s').

(** [setRemoteLastChoice(pollId, label)] *)
Definition setRemoteLastChoice (pollId : value) (label : string) (s : Storage) : Storage :=
  set_last_choice (js_set (ToString pollId) label (breadpoll_remote_last_choice_v1 s)) s.

(** [getLocalSelectedChoice(poll)] *)
Definition getLocalSelectedChoice (poll : value) : M (option string) :=
  if negb (truthy (optProp poll "id")) then ret None
  else
    do token <- ensureLocalToken (optProp poll "id") ;
    do s <- getStorage ;
    let st := loadLocalVotesAll s !! ToString (optProp poll "id") in
    let choice := st ≫= (fun st => byToken st !! ToString token) in
    ret (match choice with
         | Some c => if String.eqb c "" then None else Some c
         | None => None
         end).

(** [purgeLocalPollState(localPollId)] *)
Definition purgeLocalPollState (localPollId : value) : M unit :=
  let id := ToString (js_or localPollId (Some (JStr ""))) in
  if String.eqb id "" then ret tt
  else
    run try_catch (removeLocalPoll id) (fun _ => ret tt) ;
    run modifyStorage (fun s => set_local_votes (delete id (loadLocalVotesAll s)) s) ;
    modifyStorage (fun s => set_tokens (delete id (getTokens s)) s).

(* ===================================================================== *)
(** ** Results normalisation *)
(* ===================================================================== *)

(** Expressions that may throw but touch no state. *)
Definition bindR {A B} (m : result A) (k : A -> result B) : result B :=
  match m with Ok a => k a | Thrown e => Thrown e end.

Notation "'let!' x := m 'in' k" := (bindR m (fun x => k))
  (at level 10, x name, m at level 100, k at level 200).

(** [v.k]: reading a property of [null] or [undefined] throws. *)
Definition propE (v : value) (k : string) : result value :=
  match v with
  | None | Some JNull => Thrown TypeError
  | Some j => Ok (getProp j k)
  end.

(** [(v && v.k && typeof v.k === "object") ? v.k : <next>]: the field when the
    test holds. *)
Definition objectField (v : value) (k : string) : result (option json) :=
  if truthy v then
    let! f := propE v k in
    Ok (if truthy f && typeof_object f then f else None)
  else Ok None.

(** [(typeof a.k === test) ? a.k : (typeof b.k === test) ? b.k : null] *)
Definition typedField (test : value -> bool) (a b : value) (k : string) : result json :=
  let! x := propE a k in
  if test x then Ok (default JNull x)
  else
    let! y := propE b k in
    Ok (if test y then default JNull y else JNull).

(** [Object.values(o)] of an object or an array. *)
Definition Object_values (o : json) : list json :=
  match o with
  | JObj m => map snd (map_to_list m)
  | JArr l => l
  | _ => []
  end.

Record Normalized : Type := mkNormalized {
  n_totals : json;
  n_people_voted : json;
  n_represented_weight : Z;
  n_total_votes : json;
  n_validated : json;
  n_weights_used : json;
  n_raw : json;
}.

Section Results.

(** [Number(text)]: the numeric value of a text, [None] for [NaN]. *)
Variable StringToNumber : string -> option Z.

(** [Number(v)], [None] for [NaN]; an array or object is converted through
    its text. *)
Definition ToNumber (j : json) : option Z :=
  match j with
  | JNull => Some 0
  | JBool b => Some (if b then 1 else 0)
  | JNum n => Some n
  | JStr s => StringToNumber s
  | JArr _ | JObj _ => StringToNumber (ToStringJ j)
  end.

(** [values.reduce((a, b) => a + (Number(b) || 0), 0)] *)
Definition sumValues (values : list json) : Z :=
  fold_left (fun a b => a + default 0 (ToNumber b)) values 0.

(** [raw = obj || {}] *)
Definition payloadRaw (obj : value) : value := js_or obj (Some (JObj ∅)).

(** [r = raw.results && typeof raw.results === "object" ? raw.results : raw] *)
Definition payloadInner (obj : value) : result value :=
  let raw := payloadRaw obj in
  let! res := propE raw "results" in
  Ok (if truthy res && typeof_object res then res else raw).

(** [normalizeResults(obj)] *)
Definition normalizeResults (obj : value) : result Normalized :=
  let raw := payloadRaw obj in
  let! r := payloadInner obj in
  let! t1 := objectField r "totals" in
  let! t2 := match t1 with Some _ => Ok t1 | None => objectField r "counts" end in
  let! t3 := match t2 with Some _ => Ok t2 | None => objectField raw "totals" end in
  let! t4 := match t3 with Some _ => Ok t3 | None => objectField raw "counts" end in
  let totals := default (JObj ∅) t4 in
  let! people_voted := typedField typeof_number r raw "people_voted" in
  let! total_votes := typedField typeof_number r raw "total_votes" in
  let! w1 := propE r "weights_used" in
  let! weights_used :=
    if truthy w1 && typeof_object w1 then Ok w1
    else
      let! w2 := propE raw "weights_used" in
      Ok (if truthy w2 && typeof_object w2 then w2 else Some JNull) in
  let! validated := typedField typeof_boolean r raw "validated" in
  let! represented_weight :=
    let! sum := (if truthy weights_used then propE weights_used "sum" else Ok None) in
    match sum with
    | Some (JNum n) => Ok n
    | _ =>
        let! p1 := propE r "represented_people" in
        match p1 with
        | Some (JNum n) => Ok n
        | _ =>
            let! p2 := propE raw "represented_people" in
            match p2 with
            | Some (JNum n) => Ok n
            | _ => Ok (sumValues (Object_values totals))
            end
        end
    end in
  Ok (mkNormalized totals people_voted represented_weight total_votes validated
        (default JNull weights_used) (default JNull raw)).

End Results.

(* ===================================================================== *)
(** ** Casting a vote on the Exchange *)
(* ===================================================================== *)

Definition liftR {A} (r : result A) : M A :=
  match r with Ok a => ret a | Thrown e => throw e end.

(** The [error] of a failed [castExchangeVoteByLabel]; [rejected] stands for
    [rawBody || String(r.status)]. *)
Inductive VoteError : Type :=
  | local_poll_id_not_valid_on_exchange
  | missing_poll_id
  | bad_option
  | no_stamp
  | rejected (status : Z) (rawBody : Body).

(** [{ ok: true }] or [{ ok: false, error }] *)
Inductive VoteResult : Type :=
  | VoteOk
  | VoteFailed (error : VoteError).

(** [arr.findIndex(f)], [None] for [-1]. *)
Fixpoint findIndex {A} (f : A -> bool) (l : list A) : option nat :=
  match l with
  | [] => None
  | x :: r => if f x then Some O else option_map S (findIndex f r)
  end.

(** Calling an array method on [v]: a [TypeError] unless [v] is an array. *)
Definition asArray (v : value) : M (list json) :=
  match v with Some (JArr l) => ret l | _ => throw TypeError end.

Definition votePath (pollId : value) : string :=
  "/polls/" +:+ ToString pollId +:+ "/vote".

(** [fetch(`${EXCHANGE_API}/polls/${pollId}/vote`, { method: "POST", headers, body })] *)
Definition voteRequest (pollId : value) (headers : list (string * string))
    (payload : json) : Request :=
  mkRequest "POST" (EXCHANGE_API +:+ votePath pollId) headers (Some payload).

(** What follows a successful vote: [if (data?.voter_token) setToken(...)],
    [setRemoteLastChoice(...)]. *)
Definition recordVoteReply (pollId : value) (choiceLabel : string) (rawBody : Body)
  : M unit :=
  let data := parseBodyOrNull rawBody in
  run (match optProp data "voter_token" with
       | Some tok => if truthyJ tok then modifyStorage (setToken pollId tok) else ret tt
       | None => ret tt
       end) ;
  modifyStorage (setRemoteLastChoice pollId choiceLabel).

(** The body of [if (!voter_token && r.status === 403) { ... }]: clear the
    pool, take or mint one stamp, vote again; [true] when that second vote
    was accepted (the function then returns [{ ok: true }]). *)
Definition voteRetryOnce (pollId : value) (choiceLabel : string) (payload : json)
  : M bool :=
  run try_catch (modifyStorage clearExchangeStampPool) (fun _ => ret tt) ;
  try_catch
    (do stamp2 <- getOrFetchOneStampOrNull ;
     if truthy stamp2 then
       do r2 <- fetch (voteRequest pollId
                         [("Content-Type", "application/json"); ("X-Stamp", ToString stamp2)]
                         payload) ;
       if status_ok (fst r2) then
         run recordVoteReply pollId choiceLabel (snd r2) ;
         ret true
       else ret false
     else ret false)
    (fun _ => ret false).

(** [poll?.meta?.exchange_poll_id || poll?.meta?.exchange_id ||
    poll?.exchange_poll_id || poll?.exchange_id || poll?.id] *)
Definition exchangePollIdOf (poll : value) : value :=
  let meta := optProp poll "meta" in
  js_or (optProp meta "exchange_poll_id")
    (js_or (optProp meta "exchange_id")
       (js_or (optProp poll "exchange_poll_id")
          (js_or (optProp poll "exchange_id") (optProp poll "id")))).

(** [castExchangeVoteByLabel(poll, choiceLabel, statusEl)]; the status text
    written to [statusEl] is not represented. *)
Definition castExchangeVoteByLabel (poll : value) (choiceLabel : string) : M VoteResult :=
  let pollId := exchangePollIdOf poll in
  if startsWith (ToString pollId) "local_" then
    ret (VoteFailed local_poll_id_not_valid_on_exchange)
  else if negb (truthy pollId) then ret (VoteFailed missing_poll_id)
  else
    do s <- getStorage ;
    let voter_token := getToken pollId s in
    do o <- liftR (propE poll "options") ;
    do opts <- asArray (js_or o (Some (JArr []))) ;
    match findIndex (fun o => strict_eq_str (js_nullish (optProp (Some o) "label") (Some o))
                                            choiceLabel) opts with
    | None => ret (VoteFailed bad_option)
    | Some idx =>
        let optObj := nth_error opts idx in
        let option_id :=
          if truthy optObj && typeof_object optObj && negb (is_nullish (optProp optObj "id"))
          then ToString (optProp optObj "id")
          else string_of_nat (idx + 1) in
        let payload := JObj {[ "option_id" := JStr option_id ]} in
        do stamp <- (if truthy voter_token then ret (Some JNull)
                     else getOrFetchOneStampOrNull) ;
        if negb (truthy voter_token) && negb (truthy stamp) then ret (VoteFailed no_stamp)
        else
          let headers :=
            [("Content-Type", "application/json");
             (if truthy voter_token then ("X-Voter-Token", ToString voter_token)
              else ("X-Stamp", ToString stamp))] in
          do r <- fetch (voteRequest pollId headers payload) ;
          let '(status, rawBody) := r in
          if negb (status_ok status) then
            do retried <- (if negb (truthy voter_token) && (status =? 403)
                           then voteRetryOnce pollId choiceLabel payload
                           else ret false) ;
            ret (if retried then VoteOk else VoteFailed (rejected status rawBody))
          else
            run recordVoteReply pollId choiceLabel rawBody ;
            ret VoteOk
    end.

(* ===================================================================== *)
(** ** Asserting a local draft to the Exchange *)
(* ===================================================================== *)

(** How [assertPollToExchange] ends. Each constructor is one exit of the
    function, named after the text it leaves in [assertOut]; an
    [OpenedRemote] exit has purged the draft and goes on to
    [refreshPolls()] and [openPoll({ id, is_local: false })], which belong to
    the presentation: they read the index and the store and write to
    neither. [merged] tells the reused remote poll from the one
    just created. *)
Inductive AssertOutcome : Type :=
  | AlreadyAsserted
  | MissingIdentity
  | AssertFailed (status : Z)
  | ResponseMissingPollId
  | AssertNetworkError
  | OpenedRemote (merged : bool) (id : value).

(** An object literal; a property whose value is [undefined] is not sent. *)
Definition objectOf (fields : list (string * value)) : json :=
  JObj (list_to_map (omap (fun kv => match snd kv with
                                     | Some j => Some (fst kv, j)
                                     | None => None
                                     end) fields)).

(** [fetch(`${EXCHANGE_API}/polls`, { method: "GET" })] *)
Definition pollsRequest : Request := mkRequest "GET" (EXCHANGE_API +:+ "/polls") [] None.

(** [Array.isArray(list?.polls) ? list.polls : []] *)
Definition pollsOf (doc : json) : list json :=
  match optProp (Some doc) "polls" with
  | Some (JArr l) => l
  | _ => []
  end.

(** [String(p?.meta?.created_local_id || "")] *)
Definition createdLocalIdOf (p : json) : string :=
  ToString (js_or (optProp (optProp (Some p) "meta") "created_local_id") (Some (JStr ""))).

(** [String(p?.created_at || "")] *)
Definition createdAtOf (p : json) : string :=
  ToString (js_or (optProp (Some p) "created_at") (Some (JStr ""))).

(** [polls.filter(p => String(p?.meta?.created_local_id || "") === String(localKey))] *)
Definition matchesOf (localKey : string) (polls : list json) : list json :=
  filter (fun p => String.eqb (createdLocalIdOf p) localKey = true) polls.

(** The comparator of the sort, [(a, b) => cb.localeCompare(ca)]: [Gt] when
    [a] is to come after [b]. *)
Definition newestFirst (h : Host) (a b : json) : comparison :=
  localeCompare h (createdAtOf b) (createdAtOf a).

(** [Array.prototype.sort(cmp)], which is stable: insertion from the right
    keeps equal elements in their order. *)
Fixpoint sortInsert (cmp : json -> json -> comparison) (x : json) (l : list json)
  : list json :=
  match l with
  | [] => [x]
  | y :: r =>
      match cmp x y with
      | Gt => y :: sortInsert cmp x r
      | _ => x :: l
      end
  end.

Definition sortBy (cmp : json -> json -> comparison) (l : list json) : list json :=
  fold_right (sortInsert cmp) [] l.

(** The stamp reserve: [try { if (!pool.length) await fetchStampsFromExchange(); } catch {}] *)
Definition assertReserveStamps : M unit :=
  try_catch
    (do s <- getStorage ;
     match getExchangeStampPool s with
     | [] => run fetchStampsFromExchange ; ret tt
     | _ :: _ => ret tt
     end)
    (fun _ => ret tt).

(** Carrying the local vote to the matched poll: the index is read again
    for the full poll, and the vote is cast on it. A failure is caught. The
    vote result carries no [results], so the immediate refresh of the
    results never runs. *)
Definition carryVoteToMatch (found : json) (localChoice : string) : M unit :=
  try_catch
    (do r2 <- fetch pollsRequest ;
     if status_ok (fst r2) then
       do doc2 <- parseBody (snd r2) ;
       match pollsOf doc2 with
       | [] => ret tt
       | polls2 =>
           do fid <- liftR (propE (Some found) "id") ;
           match find (fun p => String.eqb (ToString (optProp (Some p) "id")) (ToString fid))
                      polls2 with
           | Some fullRemote =>
               if truthyJ fullRemote then
                 run castExchangeVoteByLabel (Some fullRemote) localChoice ; ret tt
               else ret tt
           | None => ret tt
           end
       end
     else ret tt)
    (fun _ => ret tt).

(** The merge check: [Some outcome] when the function returns from it,
    [None] when it goes on to the creation request (no match, a failed
    lookup, or an exception, all of which the source catches). *)
Definition assertMerge (pollId : value) (localKey : string) (localChoice : option string)
  : M (option AssertOutcome) :=
  try_catch
    (do rList <- fetch pollsRequest ;
     if status_ok (fst rList) then
       do doc <- parseBody (snd rList) ;
       do h <- getHost ;
       match sortBy (newestFirst h) (matchesOf localKey (pollsOf doc)) with
       | [] => ret None
       | found :: _ =>
           run (match localChoice with
                | Some c => carryVoteToMatch found c
                | None => ret tt
                end) ;
           run purgeLocalPollState pollId ;
           do fid <- liftR (propE (Some found) "id") ;
           ret (Some (OpenedRemote true fid))
       end
     else ret None)
    (fun _ => ret None).

(** The creation payload built from the local fields. *)
Definition assertPayload (localPoll : value) (localKey : string) (options : list json)
    (asserted_at : Z) : json :=
  let question_html := js_or (optProp localPoll "question_html") (Some (JStr "")) in
  objectOf
    [ ("title", optProp localPoll "title");
      ("description", question_html);
      ("type", Some (JStr "single"));
      ("options",
        Some (JArr (map (fun label => objectOf [("label", Some (JStr (ToStringJ label)))])
                        options)));
      ("meta",
        Some (objectOf
                [ ("poll_type", js_or (optProp localPoll "poll_type") (Some (JStr "")));
                  ("question_html", question_html);
                  ("created_local_id", Some (JStr localKey));
                  ("asserted_at", Some (JNum asserted_at)) ])) ].

(** The signed creation request and what follows it. *)
Definition assertCreate (pollId : value) (payload : json) (localChoice : option string)
  : M AssertOutcome :=
  try_catch
    (do r <- exchangeFetchAuthed "/polls" (mkOpts (Some "POST") (Some payload) []) ;
     let '(status, raw) := r in
     if negb (status_ok status) then ret (AssertFailed status)
     else
       do data <- parseBody raw ;
       let remotePoll := optProp (Some data) "poll" in
       if negb (truthy (optProp remotePoll "id")) then ret ResponseMissingPollId
       else
         run (match localChoice with
              | Some c =>
                  try_catch (run castExchangeVoteByLabel remotePoll c ; ret tt)
                            (fun _ => ret tt)
              | None => ret tt
              end) ;
         run purgeLocalPollState pollId ;
         ret (OpenedRemote false (optProp remotePoll "id")))
    (fun _ => ret AssertNetworkError).

(** [localKey = String(localPoll?.meta?.created_local_id || pollId)] *)
Definition draftKey (localPoll : value) : string :=
  ToString (js_or (optProp (optProp localPoll "meta") "created_local_id")
                  (optProp localPoll "id")).

(** [isLocal = !!localPoll?.is_local || String(pollId).startsWith("local_")] *)
Definition isLocalPoll (localPoll : value) : bool :=
  truthy (optProp localPoll "is_local")
  || startsWith (ToString (optProp localPoll "id")) "local_".

(** [assertPollToExchange(localPoll)] *)
Definition assertPollToExchange (localPoll : value) : M AssertOutcome :=
  let pollId := optProp localPoll "id" in
  let localKey := draftKey localPoll in
  let isLocal := isLocalPoll localPoll in
  if negb isLocal then ret AlreadyAsserted
  else
    do s <- getStorage ;
    match getExchangeHmacCredsOrNull s with
    | None => ret MissingIdentity
    | Some _ =>
        do localChoice <- getLocalSelectedChoice localPoll ;
        run assertReserveStamps ;
        do merged <- assertMerge pollId localKey localChoice ;
        match merged with
        | Some outcome => ret outcome
        | None =>
            do o <- liftR (propE localPoll "options") ;
            do options <- asArray (js_or o (Some (JArr []))) ;
            do now <- Date_now ;
            assertCreate pollId (assertPayload localPoll localKey options now) localChoice
        end
    end.

(* ===================================================================== *)
(** ** Definitions used to state the properties *)
(* ===================================================================== *)

Arguments sha256Hex : simpl never.
Arguments SHA256.hmac : simpl never.
Arguments SHA256.sha256 : simpl never.
Arguments bytesToHex : simpl never.
Arguments hexToBytes : simpl never.
Arguments toUpperCase : simpl never.
Arguments string_of_Z : simpl never.
Arguments string_of_nat : simpl never.

(** A world with its store replaced. *)
Definition withStorage (s : Storage) (w : World) : World :=
  mkWorld s (net w) (sent w) (host w) (tick w).

(** The bytes [makeNonceHex(12)] draws at tick [t]. *)
Definition nonceBytes (h : Host) (t : nat) : list Z :=
  map (fun i => host_bytes h t i mod 256) (seq 0 12).

(** The texts of the string entries of a pool. *)
Definition stampTexts (pool : list json) : list string :=
  omap (fun x => match x with JStr s => Some s | _ => None end) pool.

(** The pool as the application keeps it: stamp strings, none twice. *)
Definition poolInvariant (s : Storage) : Prop :=
  NoDup (getExchangeStampPool s)
  /\ Forall (fun x => isStampString x = true) (getExchangeStampPool s).

(** [data.issued] when it is an array. *)
Definition issuedOf (data : json) : list json :=
  match getProp data "issued" with Some (JArr l) => l | _ => [] end.

(** The stamps the loop of [addStampsToPool] adds to a set. *)
Definition addValid (set : list json) (newStamps : list json) : list json :=
  fold_left (fun set x => if isStampString x then Set_add set x else set) newStamps set.

(** What a mint response writes to the store. *)
Definition mintStore (data : json) (s : Storage) : Storage :=
  let s1 :=
    if truthyJ data && truthy (getProp data "persona_id")
    then set_persona (Some (ToString (getProp data "persona_id"))) s
    else s in
  match (if truthyJ data then getProp data "issued" else None) with
  | Some (JArr (x :: issued)) => addStampsToPool (x :: issued) s1
  | _ => s1
  end.

Definition stampRequestOpts : FetchOpts := mkOpts (Some "POST") (Some (JObj ∅)) [].

(** *** Worlds for the worked examples *)

Definition demoHost : Host :=
  mkHost (fun _ => 1700000000000) (fun _ => 0%Q) (fun _ i => Z.of_nat i)
         (fun _ => "7f3c") (fun _ => "{}") String.compare.

(** A device with an identity and one stamp in its pool. *)
Definition demoStorage : Storage :=
  mkStorage ∅ [] ∅ ∅ (Some (Doc (JArr [JStr "s_a"]))) None (Some "me") (Some "00ff").

(** A network that answers every request with the same reply. *)
Definition always (r : Reply) : Network := fun _ _ => r.

Definition demoWorld : World := mkWorld demoStorage (always Unreachable) [] demoHost 0.

Definition mintReplyDemo : Reply :=
  Http 200 (Json (JObj {[ "ok" := JBool true;
                          "issued" := JArr [JStr "x"; JStr "s_a"; JStr "s_b"; JStr "s_b"; JNum 5] ]})).

Definition mintWorld : World := mkWorld demoStorage (always mintReplyDemo) [] demoHost 0.

(** *** Sequences of local votes and what they tally *)

(** The vote state stored for a poll, the empty one when none is. *)
Definition voteStateOf (pollId : string) (s : Storage) : VoteState :=
  default emptyVoteState (loadLocalVotesAll s !! pollId).

(** One [setLocalVote] call on a poll. *)
Record VoteCall : Type := mkVoteCall {
  call_token : string;
  call_choice : string;
  call_options : list string;
}.

(** A sequence of calls on one poll. *)
Definition castAll (pollId : string) (calls : list VoteCall) (s : Storage) : Storage :=
  fold_left (fun s c => setLocalVote pollId (call_token c) (call_choice c) (call_options c) s)
            calls s.

(** The number of tokens whose recorded vote is [label]. *)
Definition votesFor (bt : gmap string string) (label : string) : Z :=
  Z.of_nat (length (filter (fun kv => snd kv = label) (map_to_list bt))).

(** The number of tokens with a recorded vote. *)
Definition voters (bt : gmap string string) : Z := Z.of_nat (size bt).

Definition sumZ (l : list Z) : Z := foldr Z.add 0 l.

(** A sum over the entries of a map. *)
Definition measure {V} (f : string * V -> Z) (m : gmap string V) : Z :=
  sumZ (map f (map_to_list m)).

(** What the tallies of a poll satisfy after any run of the application:
    no recorded vote is the empty label, each count is the number of tokens
    recorded for that label, and the counts add up to the number of tokens. *)
Definition tallied (st : VoteState) : Prop :=
  (forall t c, byToken st !! t = Some c -> c <> "")
  /\ (forall label, countOf (counts st) label = votesFor (byToken st) label)
  /\ sumCounts (counts st) = voters (byToken st).

(** The counts after the old vote of [token], if any, is taken back. *)
Definition takeBack (bt : gmap string string) (token : string) (c0 : gmap string Z)
  : gmap string Z :=
  match bt !! token with
  | Some p =>
      if String.eqb p "" then c0
      else match c0 !! p with
           | Some n => <[p := Z.max 0 (n - 1)]> c0
           | None => c0
           end
  | None => c0
  end.

(** The votes a sequence of calls records on top of the votes [bt]: each
    call sets the vote of its token, a later call replacing an earlier. *)
Definition recordedVotes (calls : list VoteCall) (bt : gmap string string)
  : gmap string string :=
  fold_left (fun bt c => <[call_token c := call_choice c]> bt) calls bt.

(** A call by a token that names no member of [Object.prototype], with a
    choice label that is neither empty nor ["__proto__"]. *)
Definition plainCall (c : VoteCall) : Prop :=
  plainKey (call_token c) = true /\ call_choice c <> "" /\ call_choice c <> "__proto__".

(** The store of a device on which the poll ["local_1"] has been opened
    and no vote cast: [buildLocalResults] has stored its zero counts. *)
Definition openedStorage : Storage :=
  snd (buildLocalResults "local_1" ["Pizza"; "Tacos"] emptyStorage).

Definition demoCalls : list VoteCall :=
  [ mkVoteCall "t1" "Pizza" ["Pizza"; "Tacos"];
    mkVoteCall "t2" "Tacos" ["Pizza"; "Tacos"];
    mkVoteCall "t1" "Tacos" ["Pizza"; "Tacos"] ].

(** *** The canonical shape in the words of the specification *)

(** The field [k] of [v] when it is a number. *)
Definition numberField (v : value) (k : string) : option Z :=
  match optProp v k with Some (JNum z) => Some z | _ => None end.

(** The field [k] of [v] when it is a Boolean. *)
Definition booleanField (v : value) (k : string) : option bool :=
  match optProp v k with Some (JBool b) => Some b | _ => None end.

(** The field [k] of [v] when it is an object (or an array). *)
Definition objectFieldOf (v : value) (k : string) : option json :=
  match optProp v k with
  | Some (JArr l) => Some (JArr l)
  | Some (JObj m) => Some (JObj m)
  | _ => None
  end.

(** The first alternative that is present. *)
Fixpoint firstOf {A} (alternatives : list (option A)) : option A :=
  match alternatives with
  | [] => None
  | Some a :: _ => Some a
  | None :: rest => firstOf rest
  end.

(** The results proper: nested under [results], or the payload itself. *)
Definition innerOf (obj : value) : value :=
  match objectFieldOf (payloadRaw obj) "results" with
  | Some r => Some r
  | None => payloadRaw obj
  end.

(** [totals], else [counts], nested or at top level, else the empty map. *)
Definition totalsOf (obj : value) : json :=
  default (JObj ∅)
    (firstOf [ objectFieldOf (innerOf obj) "totals"; objectFieldOf (innerOf obj) "counts";
               objectFieldOf (payloadRaw obj) "totals"; objectFieldOf (payloadRaw obj) "counts" ]).

Definition weightsUsedOf (obj : value) : option json :=
  firstOf [ objectFieldOf (innerOf obj) "weights_used";
            objectFieldOf (payloadRaw obj) "weights_used" ].

(** A numeric field, nested or at top level, [null] when absent. *)
Definition numberOrNull (obj : value) (k : string) : json :=
  match firstOf [ numberField (innerOf obj) k; numberField (payloadRaw obj) k ] with
  | Some z => JNum z
  | None => JNull
  end.

Definition booleanOrNull (obj : value) (k : string) : json :=
  match firstOf [ booleanField (innerOf obj) k; booleanField (payloadRaw obj) k ] with
  | Some b => JBool b
  | None => JNull
  end.

(** [weights_used.sum], then [represented_people], then the sum of the
    totals. *)
Definition representedWeightOf (StringToNumber : string -> option Z) (obj : value) : Z :=
  default (sumValues StringToNumber (Object_values (totalsOf obj)))
    (firstOf [ numberField (weightsUsedOf obj) "sum";
               numberField (innerOf obj) "represented_people";
               numberField (payloadRaw obj) "represented_people" ]).

(** The canonical shape of a payload. *)
Definition canonical (StringToNumber : string -> option Z) (obj : value) : Normalized :=
  mkNormalized (totalsOf obj) (numberOrNull obj "people_voted")
    (representedWeightOf StringToNumber obj) (numberOrNull obj "total_votes")
    (booleanOrNull obj "validated") (default JNull (weightsUsedOf obj))
    (default JNull (payloadRaw obj)).

Definition demoCoercion (s : string) : option Z := None.

Definition demoPayload : value :=
  Some (JObj {[ "poll_id" := JStr "p1";
                "results" := JObj {[ "totals" := JObj {[ "1" := JNum 3; "2" := JNum 4 ]} ]} ]}).

(** *** Requests by kind *)

(** A vote: [POST /polls/<id>/vote]. *)
Definition isVoteb (rq : Request) : bool :=
  String.prefix (EXCHANGE_API +:+ "/polls/") (rq_url rq).

(** A mint: [POST /stamp]. *)
Definition isMintb (rq : Request) : bool :=
  String.eqb (rq_url rq) (EXCHANGE_API +:+ "/stamp").

(** A poll creation: [POST /polls]. *)
Definition isCreateb (rq : Request) : bool :=
  String.eqb (rq_method rq) "POST" && String.eqb (rq_url rq) (EXCHANGE_API +:+ "/polls").

Definition countIf (f : Request -> bool) (l : list Request) : nat :=
  length (List.filter f l).

Definition votesIn : list Request -> nat := countIf isVoteb.

Definition mintsIn : list Request -> nat := countIf isMintb.

Definition createsIn : list Request -> nat := countIf isCreateb.

(** The stored identity, and the local drafts with their votes. *)
Definition identityOf (w : World) : option string * option string :=
  (exchange_self_id (localStorage w), exchange_signing_key (localStorage w)).

Definition draftsOf (w : World) : list json * gmap string VoteState :=
  (breadpoll_local_polls_v1 (localStorage w), breadpoll_local_votes_v1 (localStorage w)).

(** From [w] to [w']: the same network, host, identity and drafts; at most
    [a] votes and [b] mints were sent, and no poll was created. *)
Definition within (a b : nat) (w w' : World) : Prop :=
  net w' = net w /\ host w' = host w
  /\ identityOf w' = identityOf w /\ draftsOf w' = draftsOf w
  /\ exists added,
       sent w' = sent w ++ added
       /\ (votesIn added <= a)%nat /\ (mintsIn added <= b)%nat /\ createsIn added = 0%nat.

(** [m], run from [w], ends in a result and a world that satisfy [Q]. *)
Definition ensures {A} (m : M A) (w : World) (Q : result A -> World -> Prop) : Prop :=
  Q (fst (m w)) (snd (m w)).

(** A change of the store that leaves the identity and the drafts alone. *)
Definition sameCore (s s' : Storage) : Prop :=
  exchange_self_id s' = exchange_self_id s
  /\ exchange_signing_key s' = exchange_signing_key s
  /\ breadpoll_local_polls_v1 s' = breadpoll_local_polls_v1 s
  /\ breadpoll_local_votes_v1 s' = breadpoll_local_votes_v1 s.

(** Nothing but the host draws changed. *)
Definition quiet (w w' : World) : Prop :=
  localStorage w' = localStorage w /\ net w' = net w /\ host w' = host w
  /\ sent w' = sent w.

(** The outcome of one attempt to mint. *)
Definition minted (w w' : World) (added : list Request) : Prop :=
  (added = [] /\ localStorage w' = localStorage w)
  \/ exists m,
       added = [m] /\ isMintb m = true
       /\ (localStorage w' = localStorage w
           \/ exists status data,
                net w (sent w) m = Http status (Json data)
                /\ localStorage w' = mintStore data (localStorage w)).

(** What a vote reply may change in the store: the voter tokens and the
    last-choice hints. *)
Definition sameButTokens (s s' : Storage) : Prop :=
  sameCore s s' /\ exchange_stamps s' = exchange_stamps s
  /\ exchange_persona_id s' = exchange_persona_id s.

(** What one [castExchangeVoteByLabel] does: the requests it sends are, in
    order, at most one mint ([pre]), at most one vote ([first]) and the
    retry ([post], at most one mint and one vote). *)
Definition castTraffic (w : World) (poll : value) (r : result VoteResult) (w' : World)
  : Prop :=
  let token := getToken (exchangePollIdOf poll) (localStorage w) in
  exists pre first post,
    sent w' = sent w ++ pre ++ first ++ post
    /\ votesIn pre = 0%nat /\ (mintsIn pre <= 1)%nat /\ createsIn pre = 0%nat
    /\ (length first <= 1)%nat /\ votesIn first = length first
    /\ mintsIn first = 0%nat /\ createsIn first = 0%nat
    /\ (votesIn post <= 1)%nat /\ (mintsIn post <= 1)%nat /\ createsIn post = 0%nat
    /\ (post <> [] ->
        truthy token = false
        /\ exists v1 body, first = [v1] /\ net w (sent w ++ pre) v1 = Http 403 body)
    /\ (truthy token = false ->
        forall v1 body,
          first = [v1] -> net w (sent w ++ pre) v1 = Http 403 body ->
          forall x, x ∈ getExchangeStampPool (localStorage w') ->
            exists m rest status data,
              post = m :: rest /\ isMintb m = true
              /\ net w (sent w ++ pre ++ first) m = Http status (Json data)
              /\ x ∈ issuedOf data)
    /\ (truthy token = true -> r <> Ok VoteOk -> localStorage w' = localStorage w).

(** *** The outcome of an assert *)

(** [rq] was sent in the run that led to [w] and was answered [reply]. *)
Definition answered (w : World) (rq : Request) (reply : Reply) : Prop :=
  exists before after, sent w = before ++ rq :: after /\ net w before rq = reply.

(** From [w] to [w']: the same network, host and identity; the requests
    sent include at most [creates] poll creations. *)
Definition framed (creates : nat) (w w' : World) : Prop :=
  net w' = net w /\ host w' = host w /\ identityOf w' = identityOf w
  /\ exists added, sent w' = sent w ++ added /\ (createsIn added <= creates)%nat.

(** The index [reply] lists no poll created from the draft [localKey]. *)
Definition noMatch (localKey : string) (reply : Reply) : Prop :=
  forall status doc,
    reply = Http status (Json doc) -> status_ok status = true ->
    matchesOf localKey (pollsOf doc) = [].

(** [found] is the first of the polls of the index [reply] created from
    the draft [localKey], newest first. *)
Definition newestMatch (h : Host) (localKey : string) (reply : Reply) (found : json)
  : Prop :=
  exists status doc rest,
    reply = Http status (Json doc) /\ status_ok status = true
    /\ sortBy (newestFirst h) (matchesOf localKey (pollsOf doc)) = found :: rest.

(** In the run that led to [w] a creation request was answered with
    success and a poll of identifier [id]. *)
Definition created (w : World) (id : value) : Prop :=
  exists rq status data,
    isCreateb rq = true /\ answered w rq (Http status (Json data))
    /\ status_ok status = true
    /\ id = optProp (optProp (Some data) "poll") "id" /\ truthy id = true.

(** An assert that went past the identity check: it sent [pre], then the
    merge check, then [post]; [pre] holds no creation request and [post] at
    most one. What it returns follows the reply to the merge check. *)
Definition assertRan (localPoll : value) (w : World) (r : result AssertOutcome)
    (w' : World) : Prop :=
  isLocalPoll localPoll = true
  /\ getExchangeHmacCredsOrNull (localStorage w) <> None
  /\ net w' = net w /\ host w' = host w /\ identityOf w' = identityOf w
  /\ exists pre post,
       sent w' = sent w ++ pre ++ pollsRequest :: post
       /\ createsIn pre = 0%nat /\ (createsIn post <= 1)%nat
       /\ let reply := net w (sent w ++ pre) pollsRequest in
          match r with
          | Ok (OpenedRemote true id) =>
              createsIn post = 0%nat
              /\ exists found,
                   newestMatch (host w) (draftKey localPoll) reply found
                   /\ id = getProp found "id"
          | Ok (OpenedRemote false id) =>
              noMatch (draftKey localPoll) reply /\ created w' id
          | _ => noMatch (draftKey localPoll) reply /\ draftsOf w' = draftsOf w
          end.

(** How [assertPollToExchange] ends. *)
Definition assertEnds (localPoll : value) (w : World) (r : result AssertOutcome)
    (w' : World) : Prop :=
  match r with
  | Ok AlreadyAsserted => isLocalPoll localPoll = false /\ w' = w
  | Ok MissingIdentity =>
      isLocalPoll localPoll = true
      /\ getExchangeHmacCredsOrNull (localStorage w) = None /\ w' = w
  | _ => assertRan localPoll w r w'
  end.

(** *** Exchanges and devices of the worked examples *)

Definition demoPoll : json :=
  JObj {[ "id" := JStr "p1";
          "options" := JArr [ JObj {[ "id" := JStr "1"; "label" := JStr "Yes" ]};
                              JObj {[ "id" := JStr "2"; "label" := JStr "No" ]} ] ]}.

Definition headerOf (name : string) (rq : Request) : option string :=
  option_map snd (find (fun h => String.eqb (fst h) name) (rev (rq_headers rq))).

(** An Exchange that rejects the stamp ["s_a"], issues ["s_b"] and accepts
    it. *)
Definition staleStampExchange : Network := fun _ rq =>
  if isMintb rq then Http 200 (Json (JObj {[ "ok" := JBool true; "issued" := JArr [JStr "s_b"] ]}))
  else match headerOf "X-Stamp" rq with
       | Some "s_a" => Http 403 (Text "stamp already used")
       | _ => Http 200 (Json (JObj {[ "ok" := JBool true; "voter_token" := JStr "vt_1" ]}))
       end.

Definition staleStampWorld : World := mkWorld demoStorage staleStampExchange [] demoHost 0.

(** An Exchange that rejects every vote and issues no stamp. *)
Definition barrenExchange : Network := fun _ rq =>
  if isMintb rq then Http 200 (Json (JObj {[ "ok" := JBool true; "issued" := JArr [] ]}))
  else Http 403 (Text "stamp already used").

Definition barrenWorld : World := mkWorld demoStorage barrenExchange [] demoHost 0.

Definition invalidTokenReply : Reply :=
  Http 403 (Json (JObj {[ "ok" := JBool false; "error" := JStr "invalid X-Voter-Token" ]})).

(** A device holding the voter token ["vt_1"] for poll ["p1"]. *)
Definition tokenWorld : World :=
  mkWorld (setToken (Some (JStr "p1")) (JStr "vt_1") demoStorage)
          (always invalidTokenReply) [] demoHost 0.

(** A draft as the creation form stores it. *)
Definition demoDraft : json :=
  JObj {[ "id" := JStr "local_1"; "title" := JStr "Lunch?"; "poll_type" := JStr "single";
          "options" := JArr [JStr "Yes"; JStr "No"]; "question_html" := JStr "Where?";
          "created_at" := JNum 1700000000000; "is_local" := JBool true;
          "status" := JStr "OPEN" ]}.

(** The poll an Exchange makes of a creation request: the document sent,
    with an identifier and the time of the request. *)
Definition pollOfCreate (n : nat) (rq : Request) : json :=
  match rq_body rq with
  | Some (JObj m) =>
      JObj (<["id" := JStr ("p" +:+ string_of_nat n)]>
              (<["created_at" := JStr (default "0" (headerOf "X-Timestamp" rq))]> m))
  | _ => JNull
  end.

(** The polls created by the requests of a history, oldest first. *)
Definition honestPolls (history : list Request) : list json :=
  fold_left (fun polls rq =>
               if isCreateb rq then polls ++ [pollOfCreate (S (length polls)) rq]
               else polls)
            history [].

(** An Exchange that keeps every poll it is asked to create and lists them
    all in its index. *)
Definition honestExchange : Network := fun history rq =>
  if isCreateb rq then
    Http 201 (Json (JObj {[ "ok" := JBool true;
                            "poll" := pollOfCreate (S (length (honestPolls history))) rq ]}))
  else if isMintb rq then
    Http 200 (Json (JObj {[ "ok" := JBool true; "issued" := JArr [JStr "s_b"] ]}))
  else if isVoteb rq then
    Http 200 (Json (JObj {[ "ok" := JBool true; "voter_token" := JStr "vt_1" ]}))
  else Http 200 (Json (JObj {[ "polls" := JArr (honestPolls history) ]})).

(** A device with an identity, a stamp and the draft. *)
Definition draftWorld : World :=
  mkWorld (addLocalPoll demoDraft demoStorage) honestExchange [] demoHost 0.

(** The same device without an identity. *)
Definition anonymousWorld : World :=
  mkWorld (addLocalPoll demoDraft emptyStorage) honestExchange [] demoHost 0.

(** The device after a first assert of the draft. *)
Definition draftAsserted : World :=
  snd (assertPollToExchange (Some demoDraft) draftWorld).

(** An index that lists the draft ["local_1"] twice, the older poll
    first, and a poll of another draft that is newer than both. *)
Definition listedPoll (id key created_at : string) : json :=
  JObj {[ "id" := JStr id; "created_at" := JStr created_at;
          "meta" := JObj {[ "created_local_id" := JStr key ]} ]}.

Definition duplicateIndex : json :=
  JObj {[ "polls" := JArr [ listedPoll "p_old" "local_1" "2024-01-01T10:00:00Z";
                            listedPoll "p_new" "local_1" "2024-03-01T10:00:00Z";
                            listedPoll "p_other" "local_2" "2024-06-01T10:00:00Z" ] ]}.

Definition duplicateWorld : World :=
  mkWorld (addLocalPoll demoDraft demoStorage) (always (Http 200 (Json duplicateIndex))) []
          demoHost 0.

(** An Exchange as honest as [honestExchange] whose index is the bare
    array of its polls. *)
Definition bareIndexExchange : Network := fun history rq =>
  if isCreateb rq || isMintb rq || isVoteb rq then honestExchange history rq
  else Http 200 (Json (JArr (honestPolls history))).

Definition bareIndexWorld : World :=
  mkWorld (addLocalPoll demoDraft demoStorage) bareIndexExchange [] demoHost 0.

(* ===================================================================== *)
(** ** Further functions of [legacy.app.js] *)
(* ===================================================================== *)

(** The characters of a text. *)
Definition chars (s : string) : list ascii := list_ascii_of_string s.

(** A character of the class [[0-9a-fA-F]]. *)
Definition isHexDigit (c : ascii) : Prop := hexVal c <> None.

(** The double quote. *)
Definition dquote : ascii := ascii_of_nat 34.

(** The replacement [escapeHtml] makes of one character: the entities
    [&amp;], [&lt;], [&gt;], [&quot;] and [&#039;] for the ampersand, the
    angle brackets, the double quote and the apostrophe. *)
Definition escapeChar (c : ascii) : string :=
  if Ascii.eqb c "&" then "&amp;"
  else if Ascii.eqb c "<" then "&lt;"
  else if Ascii.eqb c ">" then "&gt;"
  else if Ascii.eqb c dquote then "&quot;"
  else if Ascii.eqb c "'" then "&#039;"
  else String c EmptyString.

(** [escapeHtml(s)]: every character of the class is replaced, the others
    are kept. *)
Fixpoint escapeHtml (s : string) : string :=
  match s with
  | EmptyString => EmptyString
  | String c r => escapeChar c +:+ escapeHtml r
  end.

(** The characters [escapeHtml] replaces. *)
Definition isMarkup (c : ascii) : bool :=
  Ascii.eqb c "&" || Ascii.eqb c "<" || Ascii.eqb c ">" || Ascii.eqb c dquote
  || Ascii.eqb c "'".

(** [polls.find(p => p.id === id)]: reading [p.id] of a [null] entry
    throws; [undefined] when no entry has the id. *)
Fixpoint findLocalPoll (id : string) (polls : list json) : result value :=
  match polls with
  | [] => Ok None
  | JNull :: _ => Thrown TypeError
  | p :: r => if strict_eq_str (getProp p "id") id then Ok (Some p) else findLocalPoll id r
  end.

(** [getLocalPoll(id)]: [polls.find(p => p.id === id) || null] *)
Definition getLocalPoll (id : string) (s : Storage) : result value :=
  let! found := findLocalPoll id (loadLocalPolls s) in
  Ok (js_or found (Some JNull)).

(** [getRemoteLastChoice(pollId)]: [v ? String(v) : null], [None] being
    [null]; the key [String(pollId)] a [plainKey]. *)
Definition getRemoteLastChoice (pollId : value) (s : Storage) : option string :=
  match breadpoll_remote_last_choice_v1 s !! ToString pollId with
  | Some v => if String.eqb v "" then None else Some v
  | None => None
  end.

(** The keys of the store a vote or a draft never touches: the identity
    and the stamps. *)
Definition credentialsOf (s : Storage)
  : option string * option string * option item * option string :=
  (exchange_self_id s, exchange_signing_key s, exchange_stamps s, exchange_persona_id s).

(** No entry of the stored polls is [null]. *)
Definition noNullPoll (s : Storage) : Prop :=
  Forall (fun p => p <> JNull) (loadLocalPolls s).

(** The no-break space U+00A0 and the byte order mark U+FEFF, in UTF-8. *)
Definition NBSP : string := String (ascii_of_nat 194) (String (ascii_of_nat 160) EmptyString).

Definition BOM : string :=
  String (ascii_of_nat 239) (String (ascii_of_nat 187) (String (ascii_of_nat 191) EmptyString)).

(** The text begins, or ends, with a white space code point. *)
Definition spaceInFront (t : string) : bool :=
  match lead is_space1 is_space2 is_space3 t with Some _ => true | None => false end.

Definition spaceAtEnd (t : string) : bool :=
  match lead is_space1 (fun c1 c2 => is_space2 c2 c1) (fun c1 c2 c3 => is_space3 c3 c2 c1)
             (rev_string t) with
  | Some _ => true
  | None => false
  end.

(** Options whose headers name a signing header. *)
Definition overridingOpts : FetchOpts :=
  mkOpts (Some "post") None [("X-Self-ID", "mallory")].

(** The label of an option, as a property key: [o?.label ?? o]. *)
Definition optionLabel (o : json) : string :=
  ToString (js_nullish (optProp (Some o) "label") (Some o)).

Section CastVote.

(** What [castVote] shows after an accepted vote on the Exchange,
    [refreshPolls()] and [openPoll({ id: pollId, is_local: false })], each
    under a [try] of its own: the presentation, read from the document. *)
Variable showRemotePoll : value -> M unit.

(** [castVote(poll, optionId, labelForUI)]; [optionId] is not used. The
    local path stores the vote with [setLocalVote] and rebuilds the results
    with [buildLocalResults]; what it renders writes nothing. *)
Definition castVote (poll : value) (labelForUI : string) : M unit :=
  let pollId := optProp poll "id" in
  if negb (truthy pollId) then ret tt
  else if isLocalPoll poll then
    try_catch
      (do token <- ensureLocalToken pollId ;
       do opts <- asArray (js_or (optProp poll "options") (Some (JArr []))) ;
       run modifyStorage
             (setLocalVote (ToString pollId) (ToString token) labelForUI
                           (map optionLabel opts)) ;
       run modifyStorage
             (fun s => snd (buildLocalResults (ToString pollId) (map ToStringJ opts) s)) ;
       ret tt)
      (fun _ => ret tt)
  else
    try_catch
      (do result <- castExchangeVoteByLabel poll labelForUI ;
       match result with
       | VoteOk =>
           run modifyStorage (setRemoteLastChoice pollId labelForUI) ;
           try_catch (showRemotePoll pollId) (fun _ => ret tt)
       | VoteFailed _ => ret tt
       end)
      (fun _ => ret tt).

(** One vote after another on the same poll. *)
Definition castVotes (poll : value) (labels : list string) (w : World) : World :=
  fold_left (fun w label => snd (castVote poll label w)) labels w.

End CastVote.

(** [s.split("\n")] *)
Fixpoint splitLines (s : string) : list string :=
  match s with
  | EmptyString => [EmptyString]
  | String c r =>
      if Ascii.eqb c (ascii_of_nat 10) then EmptyString :: splitLines r
      else match splitLines r with
           | line :: lines => String c line :: lines
           | [] => [String c EmptyString]
           end
  end.

(** How a click on [createPoll] ends: one of the two messages, or the
    draft stored. *)
Inductive CreateOutcome : Type :=
  | TitleRequired
  | NeedTwoOptions
  | CreatedLocal (localPoll : json).

(** The option labels the creation form reads:
    [raw = value.split("\n").map(x => x.trim()).filter(Boolean)], and
    [["Yes", "No"]] for a [YES_NO] poll without any. *)
Definition formOptions (poll_type newOptions : string) : list string :=
  let raw := filter (fun x => x <> "") (map trim (splitLines newOptions)) in
  if String.eqb poll_type "YES_NO" && (length raw =? 0)%nat then ["Yes"; "No"] else raw.

Section CreatePoll.

(** What the handler shows after the draft is stored, [refreshPolls()] and
    [openPoll(localPoll)]: the presentation, read from the document. *)
Variable showLocalPoll : json -> M unit.

(** The [onclick] handler of [createPoll], given the values of the fields
    [newTitle], [newType] and [newOptions] and the text of the editor, in a
    document that has the elements [createOut] and [createPoll] (without
    them the handler returns at once). The messages it writes are the
    outcome; the button state is not represented. *)
Definition createPollClick (newTitle newType newOptions question_html : string)
  : M CreateOutcome :=
  let title := trim newTitle in
  let poll_type := if String.eqb newType "" then "YES_NO" else newType in
  let options := formOptions poll_type newOptions in
  if String.eqb title "" then ret TitleRequired
  else if (length options <? 2)%nat then ret NeedTwoOptions
  else
    do u <- makeId ;
    do now <- Date_now ;
    let localPoll :=
      JObj {[ "id" := JStr ("local_" +:+ u); "title" := JStr title;
              "poll_type" := JStr poll_type; "options" := JArr (map JStr options);
              "question_html" := JStr question_html; "created_at" := JNum now;
              "is_local" := JBool true; "status" := JStr "OPEN" ]} in
    run modifyStorage (addLocalPoll localPoll) ;
    run showLocalPoll localPoll ;
    ret (CreatedLocal localPoll).

End CreatePoll.

(** A presentation that shows nothing. *)
Definition showNothing {A} (_ : A) : M unit := ret tt.

(** A local poll as the creation form stores it, with an older choice of
    labels. *)
Definition lunchPoll : json :=
  JObj {[ "id" := JStr "local_1"; "title" := JStr "Lunch?"; "poll_type" := JStr "single";
          "options" := JArr [JStr "Pizza"; JStr "Tacos"]; "is_local" := JBool true ]}.

(** The token [ensureLocalToken] yields for a poll: the stored one, or a
    new one made of the next fresh identifier. *)
Definition deviceToken (pollId : value) (w : World) : value :=
  if truthy (getToken pollId (localStorage w)) then getToken pollId (localStorage w)
  else Some (JStr ("localtok_" +:+ host_uuid (host w) (tick w))).

(** The options of a poll are an array, or there are none. *)
Definition optionsOf (poll : value) (opts : list json) : Prop :=
  js_or (optProp poll "options") (Some (JArr [])) = Some (JArr opts).

(** A label as the creation form keeps it: not empty, and without white
    space at either end. *)
Definition cleanLabel (o : string) : Prop := o <> "" /\ trim o = o.

(** The [option_id] a vote sends for the option at [idx]:
    [(optObj && typeof optObj === "object" && optObj.id != null)
     ? String(optObj.id) : String(idx + 1)]. *)
Definition optionIdAt (opts : list json) (idx : nat) : string :=
  let optObj := nth_error opts idx in
  if truthy optObj && typeof_object optObj && negb (is_nullish (optProp optObj "id"))
  then ToString (optProp optObj "id")
  else string_of_nat (idx + 1).

(** The index of the option a label names:
    [opts.findIndex(o => (o?.label ?? o) === choiceLabel)]. *)
Definition optionIndex (opts : list json) (choiceLabel : string) : option nat :=
  findIndex (fun o => strict_eq_str (js_nullish (optProp (Some o) "label") (Some o))
                                    choiceLabel) opts.

(** The object [buildLocalResults] returns,
    [{ poll_id, total_votes, counts }], as [normalizeResults] receives it. *)
Definition localResultsObject (res : LocalResults) : json :=
  JObj {[ "poll_id" := JStr (lr_poll_id res);
          "total_votes" := JNum (lr_total_votes res);
          "counts" := JObj (JNum <$> lr_counts res) ]}.

Definition set_self_id (v : option string) (s : Storage) : Storage :=
  mkStorage (breadpoll_tokens s) (breadpoll_local_polls_v1 s)
    (breadpoll_local_votes_v1 s) (breadpoll_remote_last_choice_v1 s)
    (exchange_stamps s) (exchange_persona_id s) v (exchange_signing_key s).

Definition set_signing_key (v : option string) (s : Storage) : Storage :=
  mkStorage (breadpoll_tokens s) (breadpoll_local_polls_v1 s)
    (breadpoll_local_votes_v1 s) (breadpoll_remote_last_choice_v1 s)
    (exchange_stamps s) (exchange_persona_id s) (exchange_self_id s) v.





Section Identity.

(** [Number(text)]: the numeric value of a text, [None] for [NaN]. *)
Variable StringToNumber : string -> option Z.



End Identity.



(* ===================================================================== *)
(** * Properties *)
(* ===================================================================== *)

(** ** The hash functions on published test vectors *)

(** FIPS 180-4, the one-block and the two-block message, and the empty
    message. *)
Lemma sha256Hex_vectors :
  sha256Hex "abc" = "ba7816bf8f01cfea414140de5dae2223b00361a396177a9cb410ff61f20015ad"
  /\ sha256Hex "abcdbcdecdefdefgefghfghighijhijkijkljklmklmnlmnomnopnopq"
     = "248d6a61d20638b8e5c026930c3e6039a33ce45964ff2167f6ecedd419db06c1"
  /\ sha256Hex EmptyString
     = "e3b0c44298fc1c149afbf4c8996fb92427ae41e4649b934ca495991b7852b855".
Proof. repeat split; vm_compute; reflexivity. Qed.

(** RFC 4231, test case 2: the key ["Jefe"] in hex. *)
Lemma hmacSha256Hex_vector :
  hmacSha256Hex_pure "4a656665" "what do ya want for nothing?"
  = Some "5bdcc146bf60754e6a042426089575c75a003f089d2739839dec58b964ec3843".
Proof. vm_compute. reflexivity. Qed.

(** ** Proof of work *)

Lemma prefix_cons (a b : ascii) (p s : string) :
  String.prefix (String a p) (String b s) = Ascii.eqb a b && String.prefix p s.
Proof.
  change (String.prefix (String a p) (String b s))
    with (match Ascii.ascii_dec a b with
          | left _ => String.prefix p s
          | right _ => false
          end).
  destruct (Ascii.ascii_dec a b) as [->|Hne].
  - rewrite Ascii.eqb_refl. reflexivity.
  - destruct (Ascii.eqb_spec a b); [contradiction | reflexivity].
Qed.

Lemma startsWith_zeros (h : string) (d : nat) :
  startsWith h (zeros d) = true <-> (d <= leadingZeros h)%nat.
Proof.
  unfold startsWith. revert h.
  induction d as [|d IH]; intros h.
  - destruct h; simpl; split; auto with arith.
  - destruct h as [|c r].
    + simpl. split; [intros [=] | lia].
    + cbn [zeros leadingZeros]. rewrite prefix_cons, Ascii.eqb_sym.
      destruct (Ascii.eqb c "0"); simpl.
      * rewrite IH. lia.
      * split; [intros [=] | lia].
Qed.

Lemma length_append (a b : string) :
  String.length (a +:+ b) = (String.length a + String.length b)%nat.
Proof. induction a; simpl; auto. Qed.

Lemma length_bytesToHex (bytes : list Z) :
  String.length (bytesToHex bytes) = (2 * length bytes)%nat.
Proof.
  induction bytes as [|b r IH]; [reflexivity|].
  change (bytesToHex (b :: r)) with (hex2 b +:+ bytesToHex r).
  rewrite length_append, IH. cbn [hex2 String.length length]. lia.
Qed.

Lemma length_digest_of (s : SHA256.state) : length (SHA256.digest_of s) = 32%nat.
Proof. reflexivity. Qed.

Lemma length_sha256Hex (text : string) : String.length (sha256Hex text) = 64%nat.
Proof.
  unfold sha256Hex, SHA256.sha256. rewrite length_bytesToHex.
  cbv zeta. rewrite length_digest_of. reflexivity.
Qed.

Lemma leadingZeros_le_length (h : string) : (leadingZeros h <= String.length h)%nat.
Proof.
  induction h as [|c r IH]; simpl; [lia|].
  destruct (Ascii.eqb c "0"); lia.
Qed.

(** The loop returns the first candidate at or after [start] whose hash has
    the prefix, provided the fuel reaches it; it returns nothing else. *)
Lemma solvePowLite_from_spec (challenge prefix : string) (fuel start : nat) (c : string) :
  solvePowLite_from fuel challenge prefix start = Some c <->
  exists n, (start <= n < start + fuel)%nat /\ c = string_of_nat n
    /\ startsWith (sha256Hex (challenge +:+ ":" +:+ string_of_nat n)) prefix = true
    /\ forall m, (start <= m < n)%nat ->
         startsWith (sha256Hex (challenge +:+ ":" +:+ string_of_nat m)) prefix = false.
Proof.
  revert start. induction fuel as [|fuel IH]; intros start; cbn [solvePowLite_from].
  - split; [intros [=]|]. intros (n & Hn & _). lia.
  - destruct (startsWith (sha256Hex (challenge +:+ ":" +:+ string_of_nat start)) prefix)
      eqn:Hhit.
    + split.
      * intros [= <-]. exists start. repeat split; [lia | lia | exact Hhit |].
        intros m Hm. lia.
      * intros (n & Hn & -> & Hok & Hmin).
        destruct (Nat.eq_dec n start) as [->|Hne]; [reflexivity|].
        rewrite Hmin in Hhit by lia. discriminate.
    + rewrite IH. split.
      * intros (n & Hn & -> & Hok & Hmin). exists n. repeat split; [lia | lia | exact Hok |].
        intros m Hm. destruct (Nat.eq_dec m start) as [->|Hne]; [exact Hhit|].
        apply Hmin. lia.
      * intros (n & Hn & -> & Hok & Hmin). exists n.
        assert (n <> start) by (intros ->; congruence).
        repeat split; [lia | lia | exact Hok |].
        intros m Hm. apply Hmin. lia.
Qed.

(** C2 (as amended): the solver returns a nonce exactly when some nonce within
    the fuel satisfies the predicate, and then it is the first one in the
    order 0, 1, 2, ...: its hash has at least [d] leading zeros and no
    smaller nonce's hash has. *)
Theorem solvePowLite_first_nonce (challenge : string) (d : Z) (fuel : nat) (c : string) :
  solvePowLite fuel challenge d = Some c <->
  exists n, (n < fuel)%nat /\ c = string_of_nat n /\ pow_ok challenge d n
    /\ forall m, (m < n)%nat -> ~ pow_ok challenge d m.
Proof.
  unfold solvePowLite, pow_ok, targetPrefix.
  rewrite solvePowLite_from_spec. split.
  - intros (n & Hn & -> & Hok & Hmin). exists n.
    repeat split; [lia | | ].
    + apply startsWith_zeros. exact Hok.
    + intros m Hm Hm'. apply startsWith_zeros in Hm'.
      rewrite Hmin in Hm' by lia. discriminate.
  - intros (n & Hn & -> & Hok & Hmin). exists n.
    repeat split; [lia | lia | |].
    + apply startsWith_zeros. exact Hok.
    + intros m Hm. specialize (Hmin m ltac:(lia)).
      destruct (startsWith _ _) eqn:E; [|reflexivity].
      apply startsWith_zeros in E. contradiction.
Qed.

Lemma solvePowLite_first_nonce_witness :
  solvePowLite 17 "helm" 1 = Some "16".
Proof.
  apply (solvePowLite_first_nonce "helm" 1 17 "16").
  exists 16%nat. unfold pow_ok.
  repeat split; [lia | vm_compute; lia |].
  intros m Hm.
  do 16 (destruct m as [|m]; [vm_compute; lia|]). lia.
Defined.

(** At a difficulty above 64 no nonce qualifies, a SHA-256 digest having 64
    hex characters: the solver never returns. *)
Lemma solvePowLite_stalls :
  ~ exists fuel nonce, solvePowLite fuel "helm" 65 = Some nonce.
Proof.
  intros (fuel & nonce & H).
  unfold solvePowLite, targetPrefix in H.
  apply solvePowLite_from_spec in H as (n & _ & _ & Hok & _).
  apply startsWith_zeros in Hok.
  pose proof (leadingZeros_le_length (sha256Hex ("helm" +:+ ":" +:+ string_of_nat n))) as Hl.
  rewrite length_sha256Hex in Hl.
  change (Z.to_nat (Z.max 0 65)) with 65%nat in Hok. lia.
Qed.

(** ** Request signing *)

Lemma signingBase_join (method path ts nonce bodyHash : string) :
  signingBase method path ts nonce bodyHash
  = join LF [toUpperCase method; path; ts; nonce; bodyHash].
Proof. reflexivity. Qed.

Lemma nonceBytes_bytes (h : Host) (t : nat) :
  length (nonceBytes h t) = 12%nat /\ Forall byte_ok (nonceBytes h t).
Proof.
  split; [reflexivity|].
  unfold nonceBytes. apply List.Forall_forall. intros b Hb.
  apply in_map_iff in Hb as (i & <- & _).
  unfold byte_ok. apply Z.mod_pos_bound. lia.
Qed.

(** C3: with an identity stored under a hex signing key, the signed-request
    builder signs exactly five fields joined by line feeds -- the uppercased
    method, the path, the millisecond clock as decimal text, the hex of
    twelve bytes newly drawn from the random source, and the SHA-256 of the
    serialized body (of the empty text for a null body) -- with HMAC-SHA256
    under the stored key; it changes nothing but the count of host draws; and
    [exchangeFetchAuthed] signs the request path behind the prefix
    ["/api"]. *)
Theorem buildHmacHeaders_signs (w : World) (method path : string) (body : value)
    (creds : Creds) (keyBytes : list Z) :
  getExchangeHmacCredsOrNull (localStorage w) = Some creds ->
  hexToBytes (signing_key creds) = Some keyBytes ->
  let ts := string_of_Z (host_now (host w) (tick w)) in
  let nonce := bytesToHex (nonceBytes (host w) (S (tick w))) in
  let bodyHash := sha256Hex (bodyTextOf (host w) body) in
  let base := join LF [toUpperCase method; path; ts; nonce; bodyHash] in
  buildHmacHeaders method path body w
  = (Ok [ ("X-Self-ID", self_id creds); ("X-Timestamp", ts); ("X-Nonce", nonce);
          ("X-Signature", bytesToHex (SHA256.hmac keyBytes (encode base))) ],
     mkWorld (localStorage w) (net w) (sent w) (host w) (S (S (tick w))))
  /\ (is_nullish body = true -> bodyHash = sha256Hex "")
  /\ (forall b, body = Some b -> b <> JNull ->
      bodyHash = sha256Hex (JSON_stringify (host w) b))
  /\ length (nonceBytes (host w) (S (tick w))) = 12%nat
  /\ Forall byte_ok (nonceBytes (host w) (S (tick w)))
  /\ apiPrefix = "/api"
  /\ forall (p : string) (opts : FetchOpts),
       exchangeFetchAuthed p opts w
       = bind (buildHmacHeaders (toUpperCase (methodOrGet opts)) ("/api" +:+ p)
                                (opt_body opts))
              (fun h => fetch (mkRequest
                 (toUpperCase (methodOrGet opts)) (EXCHANGE_API +:+ p)
                 ([("Content-Type", "application/json")] ++ opt_headers opts ++ h)
                 (if is_nullish (opt_body opts) then None else opt_body opts))) w.
Proof.
  intros Hcreds Hkey ts nonce bodyHash base.
  pose proof (nonceBytes_bytes (host w) (S (tick w))) as [Hlen Hbytes].
  split; [|split; [|split; [|split; [exact Hlen
                                    | split; [exact Hbytes | split; [reflexivity|]]]]]].
  - unfold buildHmacHeaders, bind, getStorage. rewrite Hcreds.
    unfold Date_now, makeNonceHex, getRandomValues, bind, draw, getHost, ret.
    cbn [localStorage host tick net sent].
    unfold hmacSha256Hex, hmacSha256Hex_pure. rewrite Hkey.
    unfold ret. rewrite signingBase_join.
    reflexivity.
  - subst bodyHash. destruct body as [[]|]; intros [=]; reflexivity.
  - intros b -> Hb. subst bodyHash. destruct b; try reflexivity. contradiction.
  - intros p opts. unfold exchangeFetchAuthed.
    change apiPrefix with "/api". reflexivity.
Qed.

Lemma buildHmacHeaders_signs_witness :
  fst (buildHmacHeaders "post" "/api/stamp" (Some (JObj ∅)) demoWorld)
  = Ok [ ("X-Self-ID", "me"); ("X-Timestamp", "1700000000000");
         ("X-Nonce", "000102030405060708090a0b");
         ("X-Signature",
          "80000fa1d37f0abe006137f86405288cad2e67c344bf87a85644c7b35b57be60") ].
Proof.
  pose proof (buildHmacHeaders_signs demoWorld "post" "/api/stamp" (Some (JObj ∅))
                (mkCreds "me" "00ff") [0; 255] eq_refl eq_refl) as [H _].
  rewrite H. vm_compute. reflexivity.
Defined.

(** ** The stamp pool *)

Lemma sameValueZero_eq (a b : json) : sameValueZero a b = true -> a = b.
Proof.
  destruct a, b; simpl; try discriminate; intros H.
  - reflexivity.
  - apply Bool.eqb_prop in H. congruence.
  - apply Z.eqb_eq in H. congruence.
  - apply String.eqb_eq in H. congruence.
Qed.

Lemma existsb_sameValueZero_elem (x : json) (set : list json) :
  existsb (sameValueZero x) set = true -> x ∈ set.
Proof.
  intros H. apply existsb_exists in H as (y & Hy & Heq).
  apply sameValueZero_eq in Heq as ->. apply list_elem_of_In. exact Hy.
Qed.

Lemma existsb_sameValueZero_str (t : string) (set : list json) :
  JStr t ∈ set -> existsb (sameValueZero (JStr t)) set = true.
Proof.
  intros H. apply existsb_exists. exists (JStr t). split.
  - apply list_elem_of_In. exact H.
  - simpl. apply String.eqb_refl.
Qed.

Lemma elem_of_Set_add (set : list json) (x y : json) :
  y ∈ Set_add set x -> y ∈ set \/ y = x.
Proof.
  unfold Set_add. destruct (existsb _ _); [auto|].
  rewrite elem_of_app, list_elem_of_singleton. auto.
Qed.

Lemma Set_add_keeps (set : list json) (x y : json) : y ∈ set -> y ∈ Set_add set x.
Proof.
  unfold Set_add. destruct (existsb _ _); [auto|]. rewrite elem_of_app. auto.
Qed.

Lemma Set_add_has (set : list json) (x : json) : x ∈ Set_add set x.
Proof.
  unfold Set_add. destruct (existsb _ _) eqn:E.
  - apply existsb_sameValueZero_elem. exact E.
  - rewrite elem_of_app, list_elem_of_singleton. auto.
Qed.

Lemma stampTexts_app (a b : list json) : stampTexts (a ++ b) = stampTexts a ++ stampTexts b.
Proof. unfold stampTexts. apply omap_app. Qed.

Lemma elem_of_stampTexts (t : string) (l : list json) : t ∈ stampTexts l <-> JStr t ∈ l.
Proof.
  unfold stampTexts. rewrite list_elem_of_omap. split.
  - intros (x & Hx & Hs). destruct x; try discriminate. congruence.
  - intros H. exists (JStr t). auto.
Qed.

Lemma NoDup_stampTexts_Set_add (set : list json) (x : json) :
  NoDup (stampTexts set) -> NoDup (stampTexts (Set_add set x)).
Proof.
  intros Hnd. unfold Set_add. destruct (existsb _ _) eqn:E; [exact Hnd|].
  rewrite stampTexts_app. destruct x; simpl; rewrite ?app_nil_r; try exact Hnd.
  apply NoDup_app. split; [exact Hnd|]. split; [|apply NoDup_singleton].
  intros t Ht Hin. apply list_elem_of_singleton in Hin as ->.
  apply elem_of_stampTexts, existsb_sameValueZero_str in Ht. congruence.
Qed.

Lemma Set_add_fresh (set : list json) (x : json) : x ∉ set -> Set_add set x = set ++ [x].
Proof.
  intros H. unfold Set_add. destruct (existsb _ _) eqn:E; [|reflexivity].
  apply existsb_sameValueZero_elem in E. contradiction.
Qed.

(** Adding the elements of a list without repetition changes nothing. *)
Lemma fold_Set_add_NoDup (l acc : list json) :
  NoDup (acc ++ l) -> fold_left Set_add l acc = acc ++ l.
Proof.
  revert acc. induction l as [|x l IH]; intros acc Hnd; simpl.
  - rewrite app_nil_r. reflexivity.
  - apply NoDup_app in Hnd as Hnd'. destruct Hnd' as (Hacc & Hdis & Hl).
    rewrite Set_add_fresh.
    + rewrite IH; rewrite <- app_assoc; [reflexivity | exact Hnd].
    + intros Hin. apply (Hdis x Hin). left.
Qed.

Lemma addValid_spec (newStamps set : list json) :
  (forall x, x ∈ addValid set newStamps ->
             x ∈ set \/ (x ∈ newStamps /\ isStampString x = true))
  /\ (forall x, x ∈ set -> x ∈ addValid set newStamps)
  /\ (forall x, x ∈ newStamps -> isStampString x = true -> x ∈ addValid set newStamps)
  /\ (NoDup (stampTexts set) -> NoDup (stampTexts (addValid set newStamps)))
  /\ ((forall x, x ∈ newStamps -> isStampString x = false \/ x ∈ set) ->
      addValid set newStamps = set).
Proof.
  unfold addValid. revert set.
  induction newStamps as [|y l IH]; intros set; simpl.
  - repeat split; auto. intros x Hx. inversion Hx.
  - destruct (IH (if isStampString y then Set_add set y else set))
      as (H1 & H2 & H3 & H4 & H5).
    repeat split.
    + intros x Hx. apply H1 in Hx as [Hx|[Hx Hs]].
      * destruct (isStampString y) eqn:E; [|auto].
        apply elem_of_Set_add in Hx as [Hx| ->]; [auto|].
        right. split; [apply elem_of_cons; auto | exact E].
      * right. split; [apply elem_of_cons; auto | exact Hs].
    + intros x Hx. apply H2. destruct (isStampString y); [|exact Hx].
      apply Set_add_keeps. exact Hx.
    + intros x Hx Hs. apply elem_of_cons in Hx as [->|Hx]; [|auto].
      apply H2. rewrite Hs. apply Set_add_has.
    + intros Hnd. apply H4. destruct (isStampString y); [|exact Hnd].
      apply NoDup_stampTexts_Set_add. exact Hnd.
    + intros Hall.
      assert (Hy : (if isStampString y then Set_add set y else set) = set).
      { destruct (isStampString y) eqn:E; [|reflexivity].
        destruct (Hall y ltac:(apply elem_of_cons; auto)) as [F|Hin]; [congruence|].
        unfold Set_add. destruct y; try discriminate E.
        rewrite existsb_sameValueZero_str by exact Hin. reflexivity. }
      rewrite Hy in H5 |- *. apply H5. intros x Hx. apply Hall. apply elem_of_cons. auto.
Qed.

Lemma isStampString_truthy (x : json) : isStampString x = true -> truthyJ x = true.
Proof.
  destruct x; simpl; try discriminate.
  destruct s as [|c r]; simpl; [discriminate | reflexivity].
Qed.

Lemma pool_truthy (s : Storage) (x : json) : x ∈ getExchangeStampPool s -> truthyJ x = true.
Proof.
  unfold getExchangeStampPool.
  destruct (exchange_stamps s) as [[|[]]|]; try (intros H; inversion H; fail).
  intros H. apply list_elem_of_filter in H as [H _]. exact H.
Qed.

Lemma elem_of_fold_Set_add (l acc : list json) (x : json) :
  x ∈ fold_left Set_add l acc <-> x ∈ acc \/ x ∈ l.
Proof.
  revert acc. induction l as [|y l IH]; intros acc; simpl.
  - split; [auto | intros [H|H]; [exact H | inversion H]].
  - rewrite IH, elem_of_cons. split.
    + intros [H|H]; [|auto]. apply elem_of_Set_add in H as [H| ->]; auto.
    + intros [H|[->|H]]; [left; apply Set_add_keeps; exact H | left; apply Set_add_has | auto].
Qed.

Lemma NoDup_stampTexts_fold (l acc : list json) :
  NoDup (stampTexts acc) -> NoDup (stampTexts (fold_left Set_add l acc)).
Proof.
  revert acc. induction l as [|y l IH]; intros acc H; simpl; [exact H|].
  apply IH, NoDup_stampTexts_Set_add, H.
Qed.

Lemma filter_all {A} (P : A -> Prop) `{forall x, Decision (P x)} (l : list A) :
  (forall x, x ∈ l -> P x) -> filter P l = l.
Proof.
  induction l as [|x l IH]; intros Hall; [reflexivity|].
  rewrite filter_cons_True by (apply Hall, elem_of_cons; auto).
  f_equal. apply IH. intros y Hy. apply Hall, elem_of_cons. auto.
Qed.

(** What [addStampsToPool] leaves in the pool. *)
Lemma pool_addStampsToPool (newStamps : list json) (s : Storage) :
  getExchangeStampPool (addStampsToPool newStamps s)
  = addValid (Set_of (getExchangeStampPool s)) newStamps.
Proof.
  unfold addStampsToPool, getExchangeStampPool at 1. simpl.
  apply filter_all. intros x Hx.
  apply (proj1 (addValid_spec newStamps _)) in Hx as [Hx|[_ Hx]].
  - apply elem_of_fold_Set_add in Hx as [Hx|Hx]; [inversion Hx|].
    eapply pool_truthy, Hx.
  - apply isStampString_truthy, Hx.
Qed.

Lemma addStampsToPool_invariant (newStamps : list json) (s : Storage) :
  poolInvariant s -> poolInvariant (addStampsToPool newStamps s).
Proof.
  intros [Hnd Hall]. unfold poolInvariant.
  rewrite pool_addStampsToPool.
  unfold Set_of. rewrite fold_Set_add_NoDup by exact Hnd. simpl.
  destruct (addValid_spec newStamps (getExchangeStampPool s)) as (H1 & _ & _ & H4 & _).
  assert (Hstr : Forall (fun x => isStampString x = true)
                        (addValid (getExchangeStampPool s) newStamps)).
  { apply Forall_forall. intros x Hx. apply H1 in Hx as [Hx|[_ Hx]]; [|exact Hx].
    eapply Forall_forall in Hall; eauto. }
  split; [|exact Hstr].
  (* no string twice, and every element is a string *)
  assert (Hmap : forall l, Forall (fun x => isStampString x = true) l ->
                           l = map JStr (stampTexts l)).
  { induction l as [|x l IH]; intros Hl; [reflexivity|].
    inversion Hl as [|? ? Hx Hl']; subst. destruct x; try discriminate Hx.
    simpl. f_equal. apply IH, Hl'. }
  rewrite (Hmap _ Hstr). apply NoDup_fmap_2; [intros a b [= ->]; reflexivity|].
  apply H4. rewrite (Hmap _ Hall) in Hnd. eapply NoDup_fmap_1, Hnd.
Qed.

Lemma addStampsToPool_nothing_new (newStamps : list json) (s : Storage) :
  NoDup (getExchangeStampPool s) ->
  (forall x, x ∈ newStamps -> isStampString x = false \/ x ∈ getExchangeStampPool s) ->
  getExchangeStampPool (addStampsToPool newStamps s) = getExchangeStampPool s.
Proof.
  intros Hnd Hall. rewrite pool_addStampsToPool.
  unfold Set_of. rewrite fold_Set_add_NoDup by exact Hnd. simpl.
  apply addValid_spec. exact Hall.
Qed.

(** *** A mint and the pool *)

Lemma exchangeFetchAuthed_storage (path : string) (opts : FetchOpts) (w : World) :
  localStorage (snd (exchangeFetchAuthed path opts w)) = localStorage w.
Proof.
  unfold exchangeFetchAuthed, buildHmacHeaders, bind, getStorage, Date_now,
    makeNonceHex, getRandomValues, draw, getHost, ret, throw, hmacSha256Hex, fetch.
  destruct (getExchangeHmacCredsOrNull (localStorage w)); simpl; [|reflexivity].
  destruct (hmacSha256Hex_pure _ _); simpl; [|reflexivity].
  destruct (net w _ _); reflexivity.
Qed.

Lemma pool_set_persona (p : option string) (s : Storage) :
  getExchangeStampPool (set_persona p s) = getExchangeStampPool s.
Proof. reflexivity. Qed.

Lemma withStorage_same (w : World) : withStorage (localStorage w) w = w.
Proof. destruct w; reflexivity. Qed.

(** [fetchStampsFromExchange] in one step: the signed request, then the
    response written to the store. *)
Lemma fetchStampsFromExchange_run (w : World) :
  fetchStampsFromExchange w
  = match getExchangeHmacCredsOrNull (localStorage w) with
    | None => (Thrown missingIdentity, w)
    | Some _ =>
        match exchangeFetchAuthed "/stamp" stampRequestOpts w with
        | (Thrown e, w1) => (Thrown e, w1)
        | (Ok (_, Text _), w1) => (Thrown SyntaxError, w1)
        | (Ok (_, Json data), w1) =>
            (Ok data, withStorage (mintStore data (localStorage w1)) w1)
        end
    end.
Proof.
  unfold fetchStampsFromExchange, bind at 1, getStorage.
  destruct (getExchangeHmacCredsOrNull (localStorage w)); [|reflexivity].
  unfold bind at 1. fold stampRequestOpts.
  destruct (exchangeFetchAuthed "/stamp" stampRequestOpts w) as [[[status body]|e] w1];
    [|reflexivity].
  destruct body as [raw|data]; [reflexivity|].
  unfold mintStore, bind, parseBody, modifyStorage, ret, withStorage. cbn [snd].
  destruct (truthyJ data && truthy (getProp data "persona_id"));
    destruct (if truthyJ data then getProp data "issued" else None)
      as [[| | | |[|x issued]|]|];
    cbn [localStorage net sent host tick]; try reflexivity.
  all: destruct w1; reflexivity.
Qed.

Lemma pool_mintStore (data : json) (s : Storage) :
  getExchangeStampPool (mintStore data s) = getExchangeStampPool s
  \/ exists x issued,
       getProp data "issued" = Some (JArr (x :: issued))
       /\ getExchangeStampPool (mintStore data s)
          = getExchangeStampPool (addStampsToPool (x :: issued) s).
Proof.
  unfold mintStore.
  destruct (truthyJ data); [|left; destruct (_ && _); reflexivity].
  destruct (getProp data "issued") as [[| | | |[|x issued]|]|] eqn:Hi;
    try (left; destruct (_ && _); reflexivity).
  right. exists x, issued. split; [reflexivity|].
  rewrite !pool_addStampsToPool. destruct (_ && _); reflexivity.
Qed.

(** C10: starting from a pool of distinct stamp strings, a mint leaves a
    pool of distinct strings that all begin with ["s_"]; it loses no stamp,
    and stores only entries of the issued list that are such strings; a
    response whose issued entries are all either not ["s_"] strings or
    already pooled, and a failed mint, leave the pool as it was. On any store
    and any list, [addStampsToPool] adds nothing but ["s_"] strings of the
    list and leaves no string twice. *)
Theorem fetchStampsFromExchange_pool (w : World) (newStamps : list json) (s : Storage) :
  poolInvariant (localStorage w) ->
  let p := getExchangeStampPool (localStorage w) in
  let p' := getExchangeStampPool (localStorage (snd (fetchStampsFromExchange w))) in
  (* the mint *)
  poolInvariant (localStorage (snd (fetchStampsFromExchange w)))
  /\ (forall x, x ∈ p -> x ∈ p')
  /\ (forall x, x ∈ p' ->
        x ∈ p \/ exists data, fst (fetchStampsFromExchange w) = Ok data
                              /\ x ∈ issuedOf data /\ isStampString x = true)
  /\ (forall data, fst (fetchStampsFromExchange w) = Ok data ->
        (forall x, x ∈ issuedOf data -> isStampString x = false \/ x ∈ p) -> p' = p)
  /\ (forall e, fst (fetchStampsFromExchange w) = Thrown e -> p' = p)
  (* [addStampsToPool] on any store and any list *)
  /\ (forall x, x ∈ getExchangeStampPool (addStampsToPool newStamps s) ->
        x ∈ getExchangeStampPool s \/ (x ∈ newStamps /\ isStampString x = true))
  /\ NoDup (stampTexts (getExchangeStampPool (addStampsToPool newStamps s)))
  /\ (poolInvariant s -> poolInvariant (addStampsToPool newStamps s)).
Proof.
  intros Hinv p p'.
  assert (Hadd : forall x, x ∈ getExchangeStampPool (addStampsToPool newStamps s) ->
             x ∈ getExchangeStampPool s \/ (x ∈ newStamps /\ isStampString x = true)).
  { intros x. rewrite pool_addStampsToPool. intros Hx.
    apply (proj1 (addValid_spec newStamps _)) in Hx as [Hx|Hx]; [|auto].
    apply elem_of_fold_Set_add in Hx as [Hx|Hx]; [inversion Hx | auto]. }
  assert (Hnd : NoDup (stampTexts (getExchangeStampPool (addStampsToPool newStamps s)))).
  { rewrite pool_addStampsToPool. apply addValid_spec.
    apply NoDup_stampTexts_fold. constructor. }
  cut (poolInvariant (localStorage (snd (fetchStampsFromExchange w)))
       /\ (forall x, x ∈ p -> x ∈ p')
       /\ (forall x, x ∈ p' ->
             x ∈ p \/ exists data, fst (fetchStampsFromExchange w) = Ok data
                                   /\ x ∈ issuedOf data /\ isStampString x = true)
       /\ (forall data, fst (fetchStampsFromExchange w) = Ok data ->
             (forall x, x ∈ issuedOf data -> isStampString x = false \/ x ∈ p) -> p' = p)
       /\ (forall e, fst (fetchStampsFromExchange w) = Thrown e -> p' = p)).
  { intros (H1 & H2 & H3 & H4 & H5).
    split; [exact H1|]. split; [exact H2|]. split; [exact H3|].
    split; [exact H4|]. split; [exact H5|]. split; [exact Hadd|].
    split; [exact Hnd|]. apply addStampsToPool_invariant. }
  subst p p'. rewrite fetchStampsFromExchange_run.
  destruct (getExchangeHmacCredsOrNull (localStorage w)).
  2: { cbn [fst snd]. repeat split; try apply Hinv; auto. }
  pose proof (exchangeFetchAuthed_storage "/stamp" stampRequestOpts w) as Hst.
  destruct (exchangeFetchAuthed "/stamp" stampRequestOpts w) as [[[status [raw|data]]|e] w1];
    cbn [fst snd] in *; rewrite ?Hst.
  1, 3: repeat split; try apply Hinv; auto.
  cbn [withStorage localStorage].
  destruct (pool_mintStore data (localStorage w)) as [Heq | (x & issued & Hi & Heq)];
    rewrite Heq.
  { split; [unfold poolInvariant; rewrite Heq; exact Hinv|].
    repeat split; auto. }
  assert (Hio : issuedOf data = x :: issued) by (unfold issuedOf; rewrite Hi; reflexivity).
  pose proof (addStampsToPool_invariant (x :: issued) _ Hinv) as Hinv'.
  split; [unfold poolInvariant in *; rewrite Heq; exact Hinv'|].
  rewrite pool_addStampsToPool.
  unfold Set_of. rewrite fold_Set_add_NoDup by apply Hinv. cbn [app].
  destruct (addValid_spec (x :: issued) (getExchangeStampPool (localStorage w)))
    as (A1 & A2 & A3 & A4 & A5).
  repeat split.
  - exact A2.
  - intros y Hy. apply A1 in Hy as [Hy|[Hy Hs]]; [auto|].
    right. exists data. rewrite Hio. auto.
  - intros data' [= <-] Hall. apply A5. rewrite <- Hio. exact Hall.
  - intros e [=].
Qed.

Lemma fetchStampsFromExchange_pool_witness :
  getExchangeStampPool (localStorage (snd (fetchStampsFromExchange mintWorld)))
  = [JStr "s_a"; JStr "s_b"]
  /\ poolInvariant (localStorage (snd (fetchStampsFromExchange mintWorld))).
Proof.
  split; [vm_compute; reflexivity|].
  apply (fetchStampsFromExchange_pool mintWorld [] emptyStorage).
  split.
  - vm_compute. apply NoDup_singleton.
  - vm_compute. repeat constructor.
Defined.

(** ** Local votes *)

Lemma fold_left_add (l : list Z) (a : Z) :
  fold_left (fun a b => a + b) l a = a + sumZ l.
Proof.
  revert a. induction l as [|x l IH]; intros a; simpl; [lia|].
  rewrite IH. lia.
Qed.

Lemma sumZ_perm (l l' : list Z) : l ≡ₚ l' -> sumZ l = sumZ l'.
Proof. induction 1; simpl; lia. Qed.

Lemma measure_empty {V} (f : string * V -> Z) : measure f ∅ = 0.
Proof. unfold measure. rewrite map_to_list_empty. reflexivity. Qed.

Lemma measure_insert {V} (f : string * V -> Z) (m : gmap string V) (k : string) (v : V) :
  measure f (<[k := v]> m)
  = measure f m - match m !! k with Some old => f (k, old) | None => 0 end + f (k, v).
Proof.
  unfold measure. destruct (m !! k) as [old|] eqn:Hk.
  - rewrite <- insert_delete_eq.
    rewrite (sumZ_perm _ (map f ((k, v) :: map_to_list (delete k m)))).
    2: { apply Permutation_map, map_to_list_insert, lookup_delete_eq. }
    rewrite (sumZ_perm (map f (map_to_list m)) (map f ((k, old) :: map_to_list (delete k m)))).
    2: { apply Permutation_map. symmetry. apply map_to_list_delete, Hk. }
    simpl. lia.
  - rewrite (sumZ_perm _ (map f ((k, v) :: map_to_list m))).
    2: { apply Permutation_map, map_to_list_insert, Hk. }
    simpl. lia.
Qed.

Lemma sumCounts_measure (c : gmap string Z) : sumCounts c = measure snd c.
Proof. unfold sumCounts, measure. rewrite fold_left_add. lia. Qed.

Lemma votesFor_measure (bt : gmap string string) (label : string) :
  votesFor bt label = measure (fun kv => if decide (snd kv = label) then 1 else 0) bt.
Proof.
  unfold votesFor, measure. induction (map_to_list bt) as [|kv l IH]; [reflexivity|].
  rewrite filter_cons. simpl. destruct (decide (kv.2 = label)); simpl length; lia.
Qed.

Lemma voters_measure (bt : gmap string string) : voters bt = measure (fun _ => 1) bt.
Proof.
  unfold voters, measure. rewrite <- length_map_to_list.
  induction (map_to_list bt) as [|kv l IH]; [reflexivity|].
  simpl length. simpl. lia.
Qed.

Lemma countOf_insert (c : gmap string Z) (k l : string) (v : Z) :
  countOf (<[k := v]> c) l = if decide (k = l) then v else countOf c l.
Proof.
  unfold countOf. destruct (decide (k = l)) as [->|Hne].
  - rewrite lookup_insert_eq. reflexivity.
  - rewrite lookup_insert_ne by exact Hne. reflexivity.
Qed.

Lemma sumCounts_insert (c : gmap string Z) (k : string) (v : Z) :
  sumCounts (<[k := v]> c) = sumCounts c - countOf c k + v.
Proof.
  rewrite !sumCounts_measure, measure_insert. unfold countOf.
  destruct (c !! k); simpl; lia.
Qed.

Lemma votesFor_insert (bt : gmap string string) (t c l : string) :
  votesFor (<[t := c]> bt) l
  = votesFor bt l
    - match bt !! t with Some old => if decide (old = l) then 1 else 0 | None => 0 end
    + (if decide (c = l) then 1 else 0).
Proof. rewrite !votesFor_measure, measure_insert. reflexivity. Qed.

Lemma voters_insert (bt : gmap string string) (t c : string) :
  voters (<[t := c]> bt) = voters bt + match bt !! t with Some _ => 0 | None => 1 end.
Proof. rewrite !voters_measure, measure_insert. destruct (bt !! t); lia. Qed.

Lemma votesFor_nonneg (bt : gmap string string) (l : string) : 0 <= votesFor bt l.
Proof. unfold votesFor. lia. Qed.

Lemma votesFor_recorded (bt : gmap string string) (t c : string) :
  bt !! t = Some c -> 1 <= votesFor bt c.
Proof.
  intros H. rewrite <- (insert_delete_id bt t c H), votesFor_insert, lookup_delete_eq.
  pose proof (votesFor_nonneg (delete t bt) c).
  destruct (decide (c = c)); [lia | contradiction].
Qed.

(** *** Assignments to a plain object *)

Lemma plainKey_proto (k : string) : plainKey k = true -> k <> "__proto__".
Proof. intros H ->. discriminate H. Qed.

Lemma js_set_insert {V} (k : string) (v : V) (o : gmap string V) :
  k <> "__proto__" \/ is_Some (o !! k) -> js_set k v o = <[k := v]> o.
Proof.
  unfold js_set. intros [H|[x H]].
  - destruct (o !! k); [reflexivity|].
    destruct (String.eqb_spec k "__proto__"); [contradiction | reflexivity].
  - rewrite H. reflexivity.
Qed.

Lemma js_set_proto {V} (v : V) (o : gmap string V) :
  o !! "__proto__" = None -> js_set "__proto__" v o = o.
Proof. unfold js_set. intros ->. reflexivity. Qed.

Lemma lookup_js_set_ne {V} (k k' : string) (v : V) (o : gmap string V) :
  k <> k' -> js_set k v o !! k' = o !! k'.
Proof.
  intros Hne. unfold js_set.
  destruct (o !! k); [apply lookup_insert_ne, Hne|].
  destruct (String.eqb k "__proto__"); [reflexivity | apply lookup_insert_ne, Hne].
Qed.

Lemma js_set_cases {V} (k : string) (v : V) (o : gmap string V) :
  js_set k v o = <[k := v]> o
  \/ (k = "__proto__" /\ o !! k = None /\ js_set k v o = o).
Proof.
  unfold js_set. destruct (o !! k) eqn:E; [left; reflexivity|].
  destruct (String.eqb_spec k "__proto__"); [right; auto | left; reflexivity].
Qed.

(** *** The counts of the options *)

Lemma initCounts_countOf (options : list string) (c : gmap string Z) (l : string) :
  countOf (initCounts options c) l = countOf c l.
Proof.
  unfold initCounts. revert c. induction options as [|o options IH]; intros c; simpl;
    [reflexivity|].
  rewrite IH. destruct (c !! o) eqn:Ho; [reflexivity|].
  destruct (js_set_cases o 0 c) as [->|(_ & _ & ->)]; [|reflexivity].
  rewrite countOf_insert. destruct (decide (o = l)) as [->|]; [|reflexivity].
  unfold countOf. rewrite Ho. reflexivity.
Qed.

Lemma initCounts_sum (options : list string) (c : gmap string Z) :
  sumCounts (initCounts options c) = sumCounts c.
Proof.
  unfold initCounts. revert c. induction options as [|o options IH]; intros c; simpl;
    [reflexivity|].
  rewrite IH. destruct (c !! o) eqn:Ho; [reflexivity|].
  destruct (js_set_cases o 0 c) as [->|(_ & _ & ->)]; [|reflexivity].
  rewrite sumCounts_insert. unfold countOf. rewrite Ho. simpl. lia.
Qed.

Lemma initCounts_keeps (options : list string) (c : gmap string Z) (k : string) (n : Z) :
  c !! k = Some n -> initCounts options c !! k = Some n.
Proof.
  unfold initCounts. revert c. induction options as [|o options IH]; intros c H;
    cbn [fold_left]; [exact H|].
  apply IH. destruct (c !! o) eqn:Ho; [exact H|].
  rewrite lookup_js_set_ne; [exact H|]. intros ->. congruence.
Qed.

Lemma tallied_empty : tallied emptyVoteState.
Proof.
  unfold tallied, emptyVoteState. cbn [byToken counts]. split; [|split].
  - intros t c H. rewrite lookup_empty in H. discriminate.
  - intros label. rewrite votesFor_measure, measure_empty. reflexivity.
  - rewrite sumCounts_measure, voters_measure, !measure_empty. reflexivity.
Qed.

Lemma takeBack_keeps (bt : gmap string string) (token k : string) (c : gmap string Z) :
  is_Some (c !! k) -> is_Some (takeBack bt token c !! k).
Proof.
  intros H. unfold takeBack. destruct (bt !! token) as [p|]; [|exact H].
  destruct (String.eqb p ""); [exact H|]. destruct (c !! p) eqn:Hp; [|exact H].
  destruct (decide (p = k)) as [->|Hne].
  - rewrite lookup_insert_eq. eauto.
  - rewrite lookup_insert_ne by exact Hne. exact H.
Qed.

(** The state one call leaves, at keys that are plain and for a label that
    is not ["__proto__"], or that has a count already. *)
Lemma voteStateOf_setLocalVote (pollId token choice : string) (options : list string)
    (s : Storage) :
  plainKey pollId = true -> plainKey token = true ->
  choice <> "__proto__" \/ is_Some (counts (voteStateOf pollId s) !! choice) ->
  let st := voteStateOf pollId s in
  let c1 := takeBack (byToken st) token (initCounts options (counts st)) in
  voteStateOf pollId (setLocalVote pollId token choice options s)
  = mkVoteState (<[token := choice]> (byToken st)) (<[choice := countOf c1 choice + 1]> c1).
Proof.
  intros Hp Ht Hc st c1. subst st c1.
  apply plainKey_proto in Hp, Ht.
  unfold voteStateOf in *. unfold setLocalVote, loadLocalVotesAll in *.
  cbn [set_local_votes breadpoll_local_votes_v1].
  rewrite (js_set_insert pollId) by (left; exact Hp).
  rewrite lookup_insert_eq.
  match goal with |- default _ (Some ?x) = _ => change (default emptyVoteState (Some x)) with x end.
  f_equal.
  - apply js_set_insert. left. exact Ht.
  - fold (takeBack (byToken (default emptyVoteState (breadpoll_local_votes_v1 s !! pollId)))
            token
            (initCounts options
               (counts (default emptyVoteState (breadpoll_local_votes_v1 s !! pollId))))).
    set (c1 := takeBack _ token _).
    assert (Hown : choice <> "__proto__" \/ is_Some (c1 !! choice)).
    { destruct Hc as [Hc|[n Hn]]; [left; exact Hc|]. right.
      apply takeBack_keeps. exists n. apply initCounts_keeps, Hn. }
    destruct (c1 !! choice) eqn:Hcc.
    + apply js_set_insert. right. eauto.
    + assert (Hne : choice <> "__proto__").
      { destruct Hown as [H|[x H]]; [exact H | discriminate H]. }
      rewrite (js_set_insert choice 0) by (left; exact Hne).
      rewrite (js_set_insert choice) by (left; exact Hne).
      rewrite insert_insert_eq. f_equal. rewrite countOf_insert.
      destruct (decide (choice = choice)); [|contradiction].
      unfold countOf. rewrite Hcc. reflexivity.
Qed.

(** One call on tallied state: the token's vote is replaced, the old
    label loses one and the new label gains one. *)
Lemma setLocalVote_step (pollId token choice : string) (options : list string)
    (s : Storage) :
  plainKey pollId = true -> plainKey token = true ->
  choice <> "__proto__" \/ is_Some (counts (voteStateOf pollId s) !! choice) ->
  tallied (voteStateOf pollId s) -> choice <> "" ->
  let st := voteStateOf pollId s in
  let st' := voteStateOf pollId (setLocalVote pollId token choice options s) in
  tallied st'
  /\ byToken st' = <[token := choice]> (byToken st)
  /\ forall label,
       countOf (counts st') label
       = countOf (counts st) label
         - match byToken st !! token with
           | Some old => if decide (old = label) then 1 else 0
           | None => 0
           end
         + (if decide (choice = label) then 1 else 0).
Proof.
  intros Hp Htk Hown (Hne & Hcnt & Hsum) Hchoice st st'.
  subst st'. rewrite voteStateOf_setLocalVote by assumption. cbv zeta. subst st.
  set (st := voteStateOf pollId s) in *. cbn [byToken counts].
  unfold takeBack.
  set (c0 := initCounts options (counts st)) in *.
  assert (H0 : forall l, countOf c0 l = votesFor (byToken st) l).
  { intros l. unfold c0. rewrite initCounts_countOf. apply Hcnt. }
  assert (S0 : sumCounts c0 = voters (byToken st)).
  { unfold c0. rewrite initCounts_sum. exact Hsum. }
  set (c1 := match byToken st !! token with Some _ => _ | None => _ end) in *.
  set (c3 := <[choice := countOf c1 choice + 1]> c1).
  assert (Hc3 : c3 = <[choice := countOf c1 choice + 1]> c1) by reflexivity.
  clearbody c3.
  assert (H1 : forall l, countOf c1 l
                 = countOf c0 l - match byToken st !! token with
                                  | Some old => if decide (old = l) then 1 else 0
                                  | None => 0
                                  end).
  { intros l. subst c1. destruct (byToken st !! token) as [p|] eqn:Hpv; [|lia].
    destruct (String.eqb_spec p "") as [->|Hp']; [exfalso; eapply Hne; eauto|].
    pose proof (votesFor_recorded _ _ _ Hpv) as Hge. rewrite <- H0 in Hge.
    unfold countOf in Hge. destruct (c0 !! p) as [n|] eqn:Hn; simpl in Hge; [|lia].
    rewrite countOf_insert. destruct (decide (p = l)) as [<-|]; [|lia].
    unfold countOf. rewrite Hn. simpl. lia. }
  assert (S1 : sumCounts c1
               = sumCounts c0 - match byToken st !! token with Some _ => 1 | None => 0 end).
  { subst c1. destruct (byToken st !! token) as [p|] eqn:Hpv; [|lia].
    destruct (String.eqb_spec p "") as [->|Hp']; [exfalso; eapply Hne; eauto|].
    pose proof (votesFor_recorded _ _ _ Hpv) as Hge. rewrite <- H0 in Hge.
    unfold countOf in Hge. destruct (c0 !! p) as [n|] eqn:Hn; simpl in Hge; [|lia].
    rewrite sumCounts_insert. unfold countOf. rewrite Hn. simpl. lia. }
  assert (H3 : forall l, countOf c3 l
                 = countOf (counts st) l
                   - match byToken st !! token with
                     | Some old => if decide (old = l) then 1 else 0
                     | None => 0
                     end
                   + (if decide (choice = l) then 1 else 0)).
  { intros l. rewrite Hc3, countOf_insert.
    destruct (decide (choice = l)) as [->|]; rewrite H1, H0, Hcnt; lia. }
  split; [|split; [reflexivity | exact H3]].
  unfold tallied. cbn [byToken counts]. split; [|split].
  - intros t c Ht. rewrite lookup_insert in Ht.
    destruct (decide (token = t)); [congruence | eapply Hne, Ht].
  - intros l. rewrite H3, votesFor_insert, Hcnt. reflexivity.
  - rewrite Hc3, sumCounts_insert, S1, S0, voters_insert.
    destruct (byToken st !! token); lia.
Qed.

Lemma castAll_tallied (pollId : string) (calls : list VoteCall) (s : Storage) :
  plainKey pollId = true ->
  tallied (voteStateOf pollId s) ->
  Forall plainCall calls ->
  tallied (voteStateOf pollId (castAll pollId calls s))
  /\ byToken (voteStateOf pollId (castAll pollId calls s))
     = recordedVotes calls (byToken (voteStateOf pollId s)).
Proof.
  intros Hp. unfold castAll, recordedVotes. revert s.
  induction calls as [|c calls IH]; intros s Hs Hall; simpl; [split; [exact Hs | reflexivity]|].
  inversion Hall as [|? ? (Ht & Hc & Hc') Hrest]; subst.
  destruct (setLocalVote_step pollId (call_token c) (call_choice c) (call_options c) s
              Hp Ht (or_introl Hc') Hs Hc) as (H1 & H2 & _).
  destruct (IH _ H1 Hrest) as (I1 & I2).
  split; [exact I1|]. rewrite I2, H2. reflexivity.
Qed.


Lemma plainCall_demoCalls : Forall plainCall demoCalls.
Proof.
  unfold demoCalls, plainCall.
  repeat (constructor; [split; [reflexivity | split; discriminate]|]). constructor.
Qed.

Lemma tallied_openedStorage : tallied (voteStateOf "local_1" openedStorage).
Proof.
  unfold tallied. split; [|split].
  - intros t c H. vm_compute in H. discriminate H.
  - intros label. rewrite votesFor_measure. unfold countOf.
    change (byToken (voteStateOf "local_1" openedStorage)) with (∅ : gmap string string).
    rewrite measure_empty.
    change (counts (voteStateOf "local_1" openedStorage))
      with (<["Tacos" := 0]> (<["Pizza" := 0]> (∅ : gmap string Z))).
    destruct (decide ("Tacos" = label)) as [<-|H1]; [reflexivity|].
    rewrite lookup_insert_ne by exact H1.
    destruct (decide ("Pizza" = label)) as [<-|H2]; [reflexivity|].
    rewrite lookup_insert_ne by exact H2. reflexivity.
  - vm_compute. reflexivity.
Qed.



(** Voting the empty label twice with one token counts it twice. *)
Lemma setLocalVote_empty_label_counted_twice :
  let st := voteStateOf "local_1"
              (castAll "local_1" [mkVoteCall "t1" "" []; mkVoteCall "t1" "" []] emptyStorage) in
  sumCounts (counts st) = 2 /\ size (byToken st) = 1%nat.
Proof. vm_compute. split; reflexivity. Qed.

(** ** Results normalisation *)

Lemma propE_truthy (v : value) (k : string) :
  truthy v = true -> propE v k = Ok (optProp v k).
Proof. destruct v as [[]|]; simpl; try discriminate; reflexivity. Qed.

Lemma payloadRaw_truthy (obj : value) : truthy (payloadRaw obj) = true.
Proof. unfold payloadRaw, js_or. destruct (truthy obj) eqn:E; [exact E | reflexivity]. Qed.

Lemma objectFieldOf_truthy (v : value) (k : string) (j : json) :
  objectFieldOf v k = Some j -> truthyJ j = true.
Proof.
  unfold objectFieldOf. destruct (optProp v k) as [[]|]; intros [= <-]; reflexivity.
Qed.

Lemma innerOf_truthy (obj : value) : truthy (innerOf obj) = true.
Proof.
  unfold innerOf. destruct (objectFieldOf _ _) eqn:E.
  - simpl. eapply objectFieldOf_truthy, E.
  - apply payloadRaw_truthy.
Qed.

Lemma object_test (v : value) :
  truthy v && typeof_object v
  = match v with Some (JArr _) | Some (JObj _) => true | _ => false end.
Proof.
  destruct v as [[]|]; simpl; rewrite ?Bool.andb_false_r; reflexivity.
Qed.

Lemma payloadInner_eq (obj : value) : payloadInner obj = Ok (innerOf obj).
Proof.
  unfold payloadInner, innerOf, objectFieldOf.
  rewrite propE_truthy by apply payloadRaw_truthy. cbn [bindR].
  rewrite object_test.
  destruct (optProp (payloadRaw obj) "results") as [[]|]; reflexivity.
Qed.

Lemma objectField_eq (v : value) (k : string) :
  truthy v = true -> objectField v k = Ok (objectFieldOf v k).
Proof.
  intros Hv. unfold objectField, objectFieldOf. rewrite Hv, propE_truthy by exact Hv.
  cbn [bindR]. rewrite object_test.
  destruct (optProp v k) as [[]|]; reflexivity.
Qed.

Lemma typedField_number (obj : value) (k : string) :
  typedField typeof_number (innerOf obj) (payloadRaw obj) k = Ok (numberOrNull obj k).
Proof.
  unfold typedField, numberOrNull, numberField.
  rewrite !propE_truthy by (apply innerOf_truthy || apply payloadRaw_truthy).
  cbn [bindR firstOf].
  destruct (optProp (innerOf obj) k) as [[]|]; cbn [typeof_number default]; try reflexivity.
  all: destruct (optProp (payloadRaw obj) k) as [[]|]; reflexivity.
Qed.

Lemma typedField_boolean (obj : value) (k : string) :
  typedField typeof_boolean (innerOf obj) (payloadRaw obj) k = Ok (booleanOrNull obj k).
Proof.
  unfold typedField, booleanOrNull, booleanField.
  rewrite !propE_truthy by (apply innerOf_truthy || apply payloadRaw_truthy).
  cbn [bindR firstOf].
  destruct (optProp (innerOf obj) k) as [[]|]; cbn [typeof_boolean default]; try reflexivity.
  all: destruct (optProp (payloadRaw obj) k) as [[]|]; reflexivity.
Qed.

Lemma weightsUsed_eq (obj : value) :
  (let! w1 := propE (innerOf obj) "weights_used" in
   if truthy w1 && typeof_object w1 then Ok w1
   else
     let! w2 := propE (payloadRaw obj) "weights_used" in
     Ok (if truthy w2 && typeof_object w2 then w2 else Some JNull))
  = Ok (Some (default JNull (weightsUsedOf obj))).
Proof.
  unfold weightsUsedOf, objectFieldOf.
  rewrite !propE_truthy by (apply innerOf_truthy || apply payloadRaw_truthy).
  cbn [bindR firstOf]. rewrite !object_test.
  destruct (optProp (innerOf obj) "weights_used") as [[]|]; try reflexivity.
  all: destruct (optProp (payloadRaw obj) "weights_used") as [[]|]; reflexivity.
Qed.

Lemma weightsSum_eq (obj : value) :
  (if truthy (Some (default JNull (weightsUsedOf obj)))
   then propE (Some (default JNull (weightsUsedOf obj))) "sum"
   else Ok None)
  = Ok (optProp (weightsUsedOf obj) "sum").
Proof.
  assert (H : forall j, weightsUsedOf obj = Some j -> truthyJ j = true).
  { unfold weightsUsedOf. cbn [firstOf]. intros j.
    destruct (objectFieldOf (innerOf obj) "weights_used") eqn:E1.
    - intros [= <-]. eapply objectFieldOf_truthy, E1.
    - destruct (objectFieldOf (payloadRaw obj) "weights_used") eqn:E2; [|discriminate].
      intros [= <-]. eapply objectFieldOf_truthy, E2. }
  destruct (weightsUsedOf obj) as [j|]; [|reflexivity].
  cbv [default from_option id truthy]. rewrite (H j eq_refl).
  apply propE_truthy. apply H. reflexivity.
Qed.

Lemma numberChain_eq (a b c : value) (d : Z) :
  match a with
  | Some (JNum n) => Ok n
  | _ =>
      match b with
      | Some (JNum n) => Ok n
      | _ => match c with Some (JNum n) => Ok n | _ => Ok d end
      end
  end
  = Ok (default d
          (firstOf [ match a with Some (JNum z) => Some z | _ => None end;
                     match b with Some (JNum z) => Some z | _ => None end;
                     match c with Some (JNum z) => Some z | _ => None end ])).
Proof.
  destruct a as [[]|]; try reflexivity.
  all: destruct b as [[]|]; try reflexivity.
  all: destruct c as [[]|]; reflexivity.
Qed.

Lemma totalsChain_eq (t1 t2 t3 t4 : option json) :
  (let! t2' := match t1 with Some _ => Ok t1 | None => Ok t2 end in
   let! t3' := match t2' with Some _ => Ok t2' | None => Ok t3 end in
   let! t4' := match t3' with Some _ => Ok t3' | None => Ok t4 end in
   Ok t4')
  = Ok (firstOf [t1; t2; t3; t4]).
Proof. destruct t1, t2, t3, t4; reflexivity. Qed.

(** The normalizer returns the canonical shape on every payload. *)
Lemma normalizeResults_canonical (StringToNumber : string -> option Z) (obj : value) :
  normalizeResults StringToNumber obj = Ok (canonical StringToNumber obj).
Proof.
  unfold normalizeResults.
  rewrite payloadInner_eq. cbn [bindR].
  rewrite !objectField_eq by (apply innerOf_truthy || apply payloadRaw_truthy).
  cbn [bindR].
  set (t1 := objectFieldOf (innerOf obj) "totals").
  set (t2 := objectFieldOf (innerOf obj) "counts").
  set (t3 := objectFieldOf (payloadRaw obj) "totals").
  set (t4 := objectFieldOf (payloadRaw obj) "counts").
  assert (Ht : default (JObj ∅) (firstOf [t1; t2; t3; t4]) = totalsOf obj) by reflexivity.
  destruct t1 as [j1|]; [|destruct t2 as [j2|]; [|destruct t3 as [j3|]; [|destruct t4 as [j4|]]]];
    cbn [bindR firstOf default] in *.
  all: rewrite !typedField_number; cbn [bindR].
  all: rewrite !propE_truthy by (apply innerOf_truthy || apply payloadRaw_truthy).
  all: cbn [bindR].
  all: pose proof (weightsUsed_eq obj) as Hw.
  all: rewrite !propE_truthy in Hw by (apply innerOf_truthy || apply payloadRaw_truthy).
  all: cbn [bindR] in Hw.
  all: rewrite Hw; cbn [bindR].
  all: rewrite typedField_boolean; cbn [bindR].
  all: rewrite weightsSum_eq; cbn [bindR].
  all: rewrite numberChain_eq; cbn [bindR].
  all: unfold canonical, representedWeightOf, numberField; rewrite <- Ht; reflexivity.
Qed.

(** C9: on every payload the normalizer returns without throwing; its
    [people_voted] and [total_votes] are [null] when the payload has none;
    its [represented_weight] is [weights_used.sum], else
    [represented_people], else the sum of the totals, which are [totals] or
    [counts], nested under [results] or at top level; and the three
    documented shapes of one tally give the same totals. *)
Theorem normalizeResults_total (StringToNumber : string -> option Z) (obj : value) :
  exists n,
    normalizeResults StringToNumber obj = Ok n
    /\ (optProp (innerOf obj) "people_voted" = None ->
        optProp (payloadRaw obj) "people_voted" = None -> n_people_voted n = JNull)
    /\ (optProp (innerOf obj) "total_votes" = None ->
        optProp (payloadRaw obj) "total_votes" = None -> n_total_votes n = JNull)
    /\ n_totals n
       = default (JObj ∅)
           (firstOf [ objectFieldOf (innerOf obj) "totals";
                      objectFieldOf (innerOf obj) "counts";
                      objectFieldOf (payloadRaw obj) "totals";
                      objectFieldOf (payloadRaw obj) "counts" ])
    /\ n_represented_weight n
       = default (sumValues StringToNumber (Object_values (n_totals n)))
           (firstOf [ numberField (weightsUsedOf obj) "sum";
                      numberField (innerOf obj) "represented_people";
                      numberField (payloadRaw obj) "represented_people" ])
    /\ (forall tally : gmap string json,
          let bare_totals := Some (JObj {[ "totals" := JObj tally ]}) in
          let bare_counts := Some (JObj {[ "counts" := JObj tally ]}) in
          let nested := Some (JObj {[ "results" := JObj {[ "totals" := JObj tally ]} ]}) in
          totalsOf bare_totals = JObj tally
          /\ totalsOf bare_counts = JObj tally
          /\ totalsOf nested = JObj tally).
Proof.
  exists (canonical StringToNumber obj).
  split; [apply normalizeResults_canonical|].
  unfold canonical. cbn [n_people_voted n_total_votes n_totals n_represented_weight].
  split; [|split; [|split; [reflexivity | split; [reflexivity|]]]].
  - intros H1 H2. unfold numberOrNull, numberField. rewrite H1, H2. reflexivity.
  - intros H1 H2. unfold numberOrNull, numberField. rewrite H1, H2. reflexivity.
  - intros tally. repeat split.
Qed.

Lemma normalizeResults_total_witness :
  exists n,
    normalizeResults demoCoercion demoPayload = Ok n
    /\ n_people_voted n = JNull /\ n_total_votes n = JNull
    /\ n_represented_weight n = 7.
Proof.
  destruct (normalizeResults_total demoCoercion demoPayload)
    as (n & Hn & Hp & Hv & Ht & Hr & _).
  exists n. split; [exact Hn|].
  split; [apply Hp; reflexivity|]. split; [apply Hv; reflexivity|].
  rewrite Hr, Ht. vm_compute. reflexivity.
Defined.

(** ** Reasoning about runs *)

Lemma ensures_ret {A} (a : A) (w : World) (Q : result A -> World -> Prop) :
  Q (Ok a) w -> ensures (ret a) w Q.
Proof. exact (fun H => H). Qed.

Lemma ensures_throw {A} (e : exn) (w : World) (Q : result A -> World -> Prop) :
  Q (Thrown e) w -> ensures (throw e) w Q.
Proof. exact (fun H => H). Qed.

Lemma ensures_bind {A B} (m : M A) (k : A -> M B) (w : World)
    (Q : result B -> World -> Prop) :
  ensures m w (fun r w1 => match r with
                           | Ok a => ensures (k a) w1 Q
                           | Thrown e => Q (Thrown e) w1
                           end) ->
  ensures (bind m k) w Q.
Proof.
  unfold ensures, bind. destruct (m w) as [[a|e] w1]; cbn [fst snd]; auto.
Qed.

Lemma ensures_try_catch {A} (m : M A) (h : exn -> M A) (w : World)
    (Q : result A -> World -> Prop) :
  ensures m w (fun r w1 => match r with
                           | Ok a => Q (Ok a) w1
                           | Thrown e => ensures (h e) w1 Q
                           end) ->
  ensures (try_catch m h) w Q.
Proof.
  unfold ensures, try_catch. destruct (m w) as [[a|e] w1]; cbn [fst snd]; auto.
Qed.

Lemma ensures_conseq {A} (m : M A) (w : World) (Q Q' : result A -> World -> Prop) :
  ensures m w Q -> (forall r w', Q r w' -> Q' r w') -> ensures m w Q'.
Proof. unfold ensures. auto. Qed.

Lemma ensures_getStorage (w : World) (Q : result Storage -> World -> Prop) :
  Q (Ok (localStorage w)) w -> ensures getStorage w Q.
Proof. exact (fun H => H). Qed.

Lemma ensures_getHost (w : World) (Q : result Host -> World -> Prop) :
  Q (Ok (host w)) w -> ensures getHost w Q.
Proof. exact (fun H => H). Qed.

Lemma ensures_modifyStorage (f : Storage -> Storage) (w : World)
    (Q : result unit -> World -> Prop) :
  Q (Ok tt) (withStorage (f (localStorage w)) w) -> ensures (modifyStorage f) w Q.
Proof. exact (fun H => H). Qed.

Lemma ensures_liftR {A} (r : result A) (w : World) (Q : result A -> World -> Prop) :
  Q r w -> ensures (liftR r) w Q.
Proof. destruct r; exact (fun H => H). Qed.

Lemma countIf_app (f : Request -> bool) (l l' : list Request) :
  countIf f (l ++ l') = (countIf f l + countIf f l')%nat.
Proof. unfold countIf. rewrite List.filter_app, length_app. reflexivity. Qed.

Lemma within_refl (w : World) : within 0 0 w w.
Proof.
  unfold within. repeat split; try reflexivity.
  exists []. rewrite app_nil_r. repeat split; reflexivity.
Qed.

Lemma within_trans (a b a' b' : nat) (w w1 w2 : World) :
  within a b w w1 -> within a' b' w1 w2 -> within (a + a') (b + b') w w2.
Proof.
  intros (Hn & Hh & Hi & Hd & l & Hs & Hv & Hm & Hc)
         (Hn' & Hh' & Hi' & Hd' & l' & Hs' & Hv' & Hm' & Hc').
  unfold within. repeat split; try congruence.
  exists (l ++ l'). rewrite Hs', Hs, app_assoc.
  unfold votesIn, mintsIn, createsIn in *. rewrite !countIf_app.
  repeat split; lia.
Qed.

Lemma within_weaken (a b a' b' : nat) (w w' : World) :
  within a b w w' -> (a <= a')%nat -> (b <= b')%nat -> within a' b' w w'.
Proof.
  intros (Hn & Hh & Hi & Hd & l & Hs & Hv & Hm & Hc) Ha Hb.
  unfold within. repeat split; try assumption.
  exists l. repeat split; try assumption; lia.
Qed.

Lemma within_withStorage (s' : Storage) (w : World) :
  sameCore (localStorage w) s' -> within 0 0 w (withStorage s' w).
Proof.
  intros (H1 & H2 & H3 & H4). unfold within, identityOf, draftsOf, withStorage.
  cbn [net host sent localStorage]. repeat split; try congruence.
  exists []. rewrite app_nil_r. repeat split; reflexivity.
Qed.

Lemma within_tick (w : World) (t : nat) :
  within 0 0 w (mkWorld (localStorage w) (net w) (sent w) (host w) t).
Proof.
  unfold within, identityOf, draftsOf. cbn [net host sent localStorage].
  repeat split; try reflexivity.
  exists []. rewrite app_nil_r. repeat split; reflexivity.
Qed.

Lemma within_send (rq : Request) (w : World) :
  isCreateb rq = false ->
  within (if isVoteb rq then 1 else 0) (if isMintb rq then 1 else 0) w
         (mkWorld (localStorage w) (net w) (sent w ++ [rq]) (host w) (tick w)).
Proof.
  intros Hc. unfold within, identityOf, draftsOf. cbn [net host sent localStorage].
  repeat split; try reflexivity.
  exists [rq]. unfold votesIn, mintsIn, createsIn, countIf. cbn [List.filter].
  rewrite Hc. destruct (isVoteb rq), (isMintb rq); repeat split; simpl; lia.
Qed.

Lemma quiet_refl (w : World) : quiet w w.
Proof. repeat split. Qed.

Lemma quiet_trans (w w1 w2 : World) : quiet w w1 -> quiet w1 w2 -> quiet w w2.
Proof. unfold quiet. intros (?&?&?&?) (?&?&?&?). repeat split; congruence. Qed.

Lemma quiet_within (w w' : World) : quiet w w' -> within 0 0 w w'.
Proof.
  intros (Hs & Hn & Hh & Hl). unfold within, identityOf, draftsOf.
  rewrite Hs. repeat split; try assumption.
  exists []. rewrite app_nil_r. repeat split; [exact Hl | reflexivity..].
Qed.

Lemma buildHmacHeaders_spec (method path : string) (body : value) (w : World) :
  ensures (buildHmacHeaders method path body) w (fun _ w' => quiet w w').
Proof.
  cbv [ensures buildHmacHeaders bind getStorage Date_now makeNonceHex
       getRandomValues draw getHost ret throw hmacSha256Hex].
  destruct (getExchangeHmacCredsOrNull (localStorage w)); cbn [fst snd];
    [|apply quiet_refl].
  match goal with
  | |- context [hmacSha256Hex_pure ?k ?b] => destruct (hmacSha256Hex_pure k b)
  end; repeat split.
Qed.

(** A signed request: it fails before anything is sent, or exactly one
    request goes to the path and its reply is what the call yields. *)
Lemma exchangeFetchAuthed_spec (path : string) (opts : FetchOpts) (w : World) :
  ensures (exchangeFetchAuthed path opts) w (fun r w' =>
    localStorage w' = localStorage w /\ net w' = net w /\ host w' = host w
    /\ ((sent w' = sent w /\ exists e, r = Thrown e)
        \/ exists rq,
             sent w' = sent w ++ [rq]
             /\ rq_url rq = EXCHANGE_API +:+ path
             /\ rq_method rq = toUpperCase (methodOrGet opts)
             /\ match r with
                | Ok (status, body) => net w (sent w) rq = Http status body
                | Thrown _ => net w (sent w) rq = Unreachable
                end)).
Proof.
  unfold exchangeFetchAuthed. apply ensures_bind.
  eapply ensures_conseq; [apply buildHmacHeaders_spec|].
  intros [h|e] w1 (Hs & Hn & Hh & Hl); cbn beta iota.
  - unfold ensures, fetch. rewrite Hn, Hl, Hs, Hh.
    match goal with |- context [net w (sent w) ?rq] => set (rq0 := rq) end.
    destruct (net w (sent w) rq0) as [|status body] eqn:Hr; cbn [fst snd localStorage net host sent];
      repeat split; right; exists rq0; repeat split; exact Hr.
  - repeat split; try assumption. left. split; [exact Hl | eauto].
Qed.

Lemma mint_kind (m : Request) :
  rq_url m = EXCHANGE_API +:+ "/stamp" ->
  isMintb m = true /\ isVoteb m = false /\ isCreateb m = false.
Proof.
  intros H. unfold isMintb, isVoteb, isCreateb. rewrite H. repeat split.
  apply Bool.andb_false_r.
Qed.

Lemma isMintb_kind (m : Request) :
  isMintb m = true -> isVoteb m = false /\ isCreateb m = false.
Proof.
  unfold isMintb. intros H. apply String.eqb_eq in H. apply mint_kind in H. tauto.
Qed.

Lemma fetchStampsFromExchange_spec (w : World) :
  ensures fetchStampsFromExchange w (fun r w' =>
    net w' = net w /\ host w' = host w
    /\ exists added, sent w' = sent w ++ added /\ minted w w' added
         /\ (forall e, r = Thrown e -> localStorage w' = localStorage w)).
Proof.
  unfold ensures. rewrite fetchStampsFromExchange_run.
  destruct (getExchangeHmacCredsOrNull (localStorage w)).
  2: { cbn [fst snd]. split; [reflexivity|]. split; [reflexivity|].
       exists []. rewrite app_nil_r. split; [reflexivity|]. split; [|reflexivity].
       left. split; reflexivity. }
  pose proof (exchangeFetchAuthed_spec "/stamp" stampRequestOpts w) as H.
  unfold ensures in H.
  destruct (exchangeFetchAuthed "/stamp" stampRequestOpts w) as [[[status body]|e] w1];
    cbn [fst snd] in H; destruct H as (Hs & Hn & Hh & Hsent).
  - destruct Hsent as [[_ [e [=]]] | (rq & Hrq & Hurl & _ & Hrep)].
    apply mint_kind in Hurl as (Hm & _).
    destruct body as [raw|data]; cbn [fst snd withStorage localStorage net host sent].
    + split; [exact Hn|]. split; [exact Hh|].
      exists [rq]. split; [exact Hrq|]. split; [|intros; exact Hs].
      right. exists rq. split; [reflexivity|]. split; [exact Hm|]. left. exact Hs.
    + split; [exact Hn|]. split; [exact Hh|].
      exists [rq]. split; [exact Hrq|]. split; [|intros e [=]].
      right. exists rq. split; [reflexivity|]. split; [exact Hm|].
      right. exists status, data. rewrite Hs. split; [exact Hrep | reflexivity].
  - cbn [fst snd]. split; [exact Hn|]. split; [exact Hh|].
    destruct Hsent as [[Hl _] | (rq & Hrq & Hurl & _ & Hrep)].
    + exists []. rewrite app_nil_r. split; [exact Hl|]. split; [|intros; exact Hs].
      left. split; [reflexivity | exact Hs].
    + apply mint_kind in Hurl as (Hm & _).
      exists [rq]. split; [exact Hrq|]. split; [|intros; exact Hs].
      right. exists rq. split; [reflexivity|]. split; [exact Hm|]. left. exact Hs.
Qed.

Lemma pickOneStampOrNull_spec (w : World) :
  ensures pickOneStampOrNull w (fun r w' =>
    quiet w w'
    /\ exists v, r = Ok v
         /\ (truthy v = true ->
             exists x, v = Some x /\ x ∈ getExchangeStampPool (localStorage w))).
Proof.
  unfold ensures, pickOneStampOrNull, bind, getStorage, Math_random, draw, getHost, ret.
  destruct (getExchangeStampPool (localStorage w)) as [|x0 pool] eqn:Hp; cbn [fst snd].
  - split; [apply quiet_refl|]. eexists. split; [reflexivity|]. simpl. discriminate.
  - split; [repeat split|]. eexists. split; [reflexivity|].
    intros Ht. destruct (_ <? 0); [discriminate Ht|].
    destruct (nth_error _ _) as [x|] eqn:Hx; [|discriminate Ht].
    exists x. split; [reflexivity|].
    apply list_elem_of_In. eapply nth_error_In, Hx.
Qed.

(** The running [pickOneStampOrNull] writes nothing: the stamp it returns
    is still in the stored pool afterwards. *)
Lemma pickOneStampOrNull_storage (w : World) :
  localStorage (snd (pickOneStampOrNull w)) = localStorage w.
Proof. apply (pickOneStampOrNull_spec w). Qed.

Lemma mintStore_sameCore (data : json) (s : Storage) : sameCore s (mintStore data s).
Proof.
  unfold mintStore, sameCore.
  destruct (truthyJ data && truthy (getProp data "persona_id"));
    destruct (if truthyJ data then getProp data "issued" else None)
      as [[| | | |[|x issued]|]|]; repeat split.
Qed.

Lemma minted_sameCore (w w' : World) (added : list Request) :
  minted w w' added -> sameCore (localStorage w) (localStorage w').
Proof.
  intros [[_ ->] | (m & _ & _ & [-> | (st & data & _ & ->)])];
    try (repeat split; fail).
  apply mintStore_sameCore.
Qed.

Lemma minted_counts (w w' : World) (added : list Request) :
  minted w w' added ->
  votesIn added = 0%nat /\ (mintsIn added <= 1)%nat /\ createsIn added = 0%nat.
Proof.
  intros [[-> _] | (m & -> & Hm & _)]; [repeat split; apply Nat.le_0_l|].
  destruct (isMintb_kind m Hm) as (Hv & Hc).
  unfold votesIn, mintsIn, createsIn, countIf. cbn [List.filter].
  rewrite Hm, Hv, Hc. repeat split; simpl; lia.
Qed.

(** Taking a stamp, minting first when the pool is empty: the stamp
    returned is in the pool as it then stands. *)
Lemma getOrFetchOneStampOrNull_spec (w : World) :
  ensures getOrFetchOneStampOrNull w (fun r w' =>
    net w' = net w /\ host w' = host w
    /\ exists v, r = Ok v
         /\ (truthy v = true ->
             exists x, v = Some x /\ x ∈ getExchangeStampPool (localStorage w'))
         /\ exists added, sent w' = sent w ++ added /\ minted w w' added
              /\ (added <> [] -> getExchangeStampPool (localStorage w) = [])).
Proof.
  unfold getOrFetchOneStampOrNull. apply ensures_bind, ensures_getStorage.
  destruct (getExchangeStampPool (localStorage w)) as [|x0 pool] eqn:Hp.
  - destruct (getExchangeHmacCredsOrNull (localStorage w)).
    + apply ensures_try_catch, ensures_bind.
      eapply ensures_conseq; [apply fetchStampsFromExchange_spec|].
      intros [data|e] w1 (Hn & Hh & added & Hs & Hm & Hthrow).
      * eapply ensures_conseq; [apply pickOneStampOrNull_spec|].
        intros r w2 ((Hs2 & Hn2 & Hh2 & Hl2) & v & -> & Hv).
        split; [congruence|]. split; [congruence|].
        exists v. split; [reflexivity|]. split.
        { intros Ht. destruct (Hv Ht) as (x & -> & Hx). exists x.
          rewrite Hs2. auto. }
        exists added. split; [congruence|]. split; [|auto].
        destruct Hm as [[-> Hl] | (m & -> & Hm & Hcase)]; [left; split; congruence|].
        right. exists m. split; [reflexivity|]. split; [exact Hm|].
        rewrite Hs2. exact Hcase.
      * apply ensures_ret. split; [exact Hn|]. split; [exact Hh|].
        exists (Some JNull). split; [reflexivity|]. split; [discriminate|].
        exists added. auto.
    + apply ensures_ret. repeat split.
      exists (Some JNull). split; [reflexivity|]. split; [discriminate|].
      exists []. rewrite app_nil_r. split; [reflexivity|]. split; [|auto].
      left. auto.
  - eapply ensures_conseq; [apply pickOneStampOrNull_spec|].
    intros r w1 ((Hs & Hn & Hh & Hl) & v & -> & Hv).
    split; [exact Hn|]. split; [exact Hh|].
    exists v. split; [reflexivity|]. split.
    { intros Ht. destruct (Hv Ht) as (x & -> & Hx). exists x. rewrite Hs. auto. }
    exists []. rewrite app_nil_r. split; [exact Hl|]. split; [|congruence].
    left. auto.
Qed.

Lemma recordVoteReply_spec (pollId : value) (choiceLabel : string) (rawBody : Body)
    (w : World) :
  ensures (recordVoteReply pollId choiceLabel rawBody) w (fun r w' =>
    r = Ok tt /\ net w' = net w /\ host w' = host w /\ sent w' = sent w
    /\ sameButTokens (localStorage w) (localStorage w')).
Proof.
  cbv [ensures recordVoteReply bind modifyStorage ret].
  destruct (optProp (parseBodyOrNull rawBody) "voter_token") as [tok|];
    [destruct (truthyJ tok)|]; cbn [fst snd localStorage net host sent];
    repeat split.
Qed.

Lemma prefix_app (p s : string) : String.prefix p (p +:+ s) = true.
Proof.
  induction p as [|c p IH]; [destruct s; reflexivity|].
  change (String c p +:+ s) with (String c (p +:+ s)).
  rewrite prefix_cons, Ascii.eqb_refl. exact IH.
Qed.

Lemma vote_kind (pollId : value) (headers : list (string * string)) (payload : json) :
  isVoteb (voteRequest pollId headers payload) = true
  /\ isMintb (voteRequest pollId headers payload) = false
  /\ isCreateb (voteRequest pollId headers payload) = false.
Proof.
  unfold isVoteb, isMintb, isCreateb, voteRequest, votePath. cbn [rq_url rq_method].
  split; [|split].
  - change (EXCHANGE_API +:+ "/polls/" +:+ ToString pollId +:+ "/vote")
      with ((EXCHANGE_API +:+ "/polls/") +:+ (ToString pollId +:+ "/vote")).
    apply prefix_app.
  - reflexivity.
  - reflexivity.
Qed.

Lemma index_kind :
  isVoteb pollsRequest = false /\ isMintb pollsRequest = false
  /\ isCreateb pollsRequest = false.
Proof. repeat split. Qed.

(** The retry after a rejected first vote: from a cleared pool, at most one
    mint and at most one vote; what the pool then holds was issued by that
    mint. *)
Lemma voteRetryOnce_spec (pollId : value) (choiceLabel : string) (payload : json)
    (w : World) :
  ensures (voteRetryOnce pollId choiceLabel payload) w (fun r w' =>
    net w' = net w /\ host w' = host w
    /\ (exists b, r = Ok b)
    /\ sameCore (localStorage w) (localStorage w')
    /\ exists post,
         sent w' = sent w ++ post
         /\ (votesIn post <= 1)%nat /\ (mintsIn post <= 1)%nat /\ createsIn post = 0%nat
         /\ forall x, x ∈ getExchangeStampPool (localStorage w') ->
              exists m rest status data,
                post = m :: rest /\ isMintb m = true
                /\ net w (sent w) m = Http status (Json data)
                /\ x ∈ issuedOf data).
Proof.
  unfold voteRetryOnce. apply ensures_bind, ensures_try_catch, ensures_modifyStorage.
  set (w0 := withStorage (clearExchangeStampPool (localStorage w)) w).
  apply ensures_try_catch, ensures_bind.
  eapply ensures_conseq; [apply getOrFetchOneStampOrNull_spec|].
  intros r w1 (Hn & Hh & v & -> & Hv & added & Hs & Hm & _).
  change (net w0) with (net w) in Hn. change (host w0) with (host w) in Hh.
  change (sent w0) with (sent w) in Hs.
  assert (Hcore : sameCore (localStorage w) (localStorage w1)).
  { destruct (minted_sameCore _ _ _ Hm) as (A & B & C & D).
    split; [rewrite A | split; [rewrite B | split; [rewrite C | rewrite D]]];
      reflexivity. }
  destruct (minted_counts _ _ _ Hm) as (Hcv & Hcm & Hcc).
  assert (Hpool : forall x, x ∈ getExchangeStampPool (localStorage w1) ->
            exists m status data,
              added = [m] /\ isMintb m = true
              /\ net w (sent w) m = Http status (Json data) /\ x ∈ issuedOf data).
  { intros x Hx.
    destruct Hm as [[_ Hl] | (m & -> & Hmint & [Hl | (st & data & Hrep & Hl)])];
      try (rewrite Hl in Hx; inversion Hx; fail).
    exists m, st, data. repeat split; auto.
    rewrite Hl in Hx.
    destruct (pool_mintStore data (localStorage w0)) as [Heq | (y & issued & Hi & Heq)];
      rewrite Heq in Hx; [inversion Hx|].
    rewrite pool_addStampsToPool in Hx.
    apply (proj1 (addValid_spec _ _)) in Hx as [Hx | [Hx _]]; [inversion Hx|].
    unfold issuedOf. rewrite Hi. exact Hx. }
  destruct (truthy v) eqn:Htv.
  - apply ensures_bind. unfold ensures at 1, fetch.
    set (v2 := voteRequest pollId _ payload).
    destruct (vote_kind pollId [("Content-Type", "application/json");
                                ("X-Stamp", ToString v)] payload) as (Kv & Km & Kc).
    fold v2 in Kv, Km, Kc.
    assert (Hcount : (votesIn (added ++ [v2]) <= 1)%nat
                     /\ (mintsIn (added ++ [v2]) <= 1)%nat
                     /\ createsIn (added ++ [v2]) = 0%nat).
    { unfold votesIn, mintsIn, createsIn in *. rewrite !countIf_app.
      unfold countIf in *. cbn [List.filter]. rewrite Kv, Km, Kc. simpl. lia. }
    assert (Hshape : forall x, x ∈ getExchangeStampPool (localStorage w1) ->
              exists m rest status data,
                added ++ [v2] = m :: rest /\ isMintb m = true
                /\ net w (sent w) m = Http status (Json data) /\ x ∈ issuedOf data).
    { intros x Hx. destruct (Hpool x Hx) as (m & st & data & -> & H1 & H2 & H3).
      exists m, [v2], st, data. auto. }
    assert (Hdone : forall (b : bool) (w' : World),
              net w' = net w1 -> host w' = host w1 -> sent w' = sent w1 ++ [v2] ->
              sameButTokens (localStorage w1) (localStorage w') ->
              net w' = net w /\ host w' = host w
              /\ (exists b0, Ok b = Ok b0)
              /\ sameCore (localStorage w) (localStorage w')
              /\ exists post,
                   sent w' = sent w ++ post
                   /\ (votesIn post <= 1)%nat /\ (mintsIn post <= 1)%nat
                   /\ createsIn post = 0%nat
                   /\ forall x, x ∈ getExchangeStampPool (localStorage w') ->
                        exists m rest status data,
                          post = m :: rest /\ isMintb m = true
                          /\ net w (sent w) m = Http status (Json data)
                          /\ x ∈ issuedOf data).
    { intros b w' En Eh Es ((C1 & C2 & C3 & C4) & Est & _).
      split; [congruence|]. split; [congruence|]. split; [eauto|]. split.
      { destruct Hcore as (?&?&?&?). repeat split; congruence. }
      exists (added ++ [v2]). rewrite Es, Hs, <- app_assoc.
      split; [reflexivity|]. split; [apply Hcount|]. split; [apply Hcount|].
      split; [apply Hcount|].
      intros x Hx. apply Hshape. unfold getExchangeStampPool in *.
      rewrite Est in Hx. exact Hx. }
    assert (Hsame : forall s, sameButTokens s s) by (intros s; repeat split).
    destruct (net w1 (sent w1) v2) as [|status body]; cbn [fst snd].
    + apply ensures_ret. apply Hdone; auto.
    + destruct (status_ok status).
      * apply ensures_bind.
        eapply ensures_conseq; [apply recordVoteReply_spec|].
        intros r w3 (-> & Hn3 & Hh3 & Hs3 & Hsb).
        cbn [net host localStorage sent] in *.
        apply ensures_ret. apply Hdone; auto.
      * apply ensures_ret. apply Hdone; auto.
  - apply ensures_ret. split; [exact Hn|]. split; [exact Hh|]. split; [eauto|].
    split; [exact Hcore|].
    exists added. split; [exact Hs|]. split; [lia|]. split; [exact Hcm|].
    split; [exact Hcc|].
    intros x Hx. destruct (Hpool x Hx) as (m & st & data & -> & H1 & H2 & H3).
    exists m, [], st, data. auto.
Qed.

Lemma sameCore_refl (s : Storage) : sameCore s s.
Proof. repeat split. Qed.

Lemma sameCore_trans (s s1 s2 : Storage) : sameCore s s1 -> sameCore s1 s2 -> sameCore s s2.
Proof. intros (?&?&?&?) (?&?&?&?). repeat split; congruence. Qed.

Lemma castTraffic_none (w : World) (poll : value) (r : result VoteResult) :
  castTraffic w poll r w.
Proof.
  exists [], [], []. rewrite !app_nil_r.
  repeat split; try reflexivity; try apply Nat.le_0_l; try congruence.
Qed.

Lemma castExchangeVoteByLabel_spec (poll : value) (choiceLabel : string) (w : World) :
  ensures (castExchangeVoteByLabel poll choiceLabel) w (fun r w' =>
    net w' = net w /\ host w' = host w
    /\ sameCore (localStorage w) (localStorage w')
    /\ castTraffic w poll r w').
Proof.
  unfold castExchangeVoteByLabel. cbv zeta.
  set (pollId := exchangePollIdOf poll).
  assert (Hstill : forall r : result VoteResult,
            net w = net w /\ host w = host w
            /\ sameCore (localStorage w) (localStorage w) /\ castTraffic w poll r w).
  { intros r. repeat split. apply castTraffic_none. }
  destruct (startsWith (ToString pollId) "local_"); [apply ensures_ret, Hstill|].
  destruct (negb (truthy pollId)); [apply ensures_ret, Hstill|].
  apply ensures_bind, ensures_getStorage, ensures_bind, ensures_liftR.
  destruct (propE poll "options") as [o|e]; [|apply Hstill].
  apply ensures_bind. unfold asArray.
  destruct (js_or o (Some (JArr []))) as [[| | | | opts |]|];
    try (apply ensures_throw, Hstill).
  apply ensures_ret.
  destruct (findIndex _ opts) as [idx|]; [|apply ensures_ret, Hstill].
  set (payload := JObj _).
  set (token := getToken pollId (localStorage w)).
  destruct (truthy token) eqn:Htok.
  - (* revote: the stored token is sent *)
    apply ensures_bind, ensures_ret. cbn [negb andb].
    apply ensures_bind. unfold ensures at 1, fetch.
    set (v1 := voteRequest pollId _ payload).
    destruct (vote_kind pollId [("Content-Type", "application/json");
                                ("X-Voter-Token", ToString token)] payload) as (Kv & Km & Kc).
    fold v1 in Kv, Km, Kc.
    assert (Htraffic : forall r w', sent w' = sent w ++ [v1] ->
              (r <> Ok VoteOk -> localStorage w' = localStorage w) ->
              castTraffic w poll r w').
    { intros r w' Hs Hl. exists [], [v1], []. rewrite app_nil_r. cbn [app].
      unfold votesIn, mintsIn, createsIn, countIf. cbn [List.filter].
      rewrite Kv, Km, Kc. fold pollId. fold token.
      repeat split; try reflexivity; try apply Nat.le_0_l; try congruence; auto. }
    destruct (net w (sent w) v1) as [|status rawBody]; cbn [fst snd].
    + repeat split. apply Htraffic; reflexivity.
    + destruct (status_ok status); cbn [negb].
      * apply ensures_bind.
        eapply ensures_conseq; [apply recordVoteReply_spec|].
        intros r w3 (-> & Hn3 & Hh3 & Hs3 & (Hc3 & _)).
        cbn [net host localStorage sent] in *.
        apply ensures_ret. repeat split; try assumption; try apply Hc3.
        apply Htraffic; [exact Hs3 | congruence].
      * apply ensures_bind, ensures_ret, ensures_ret. repeat split.
        apply Htraffic; reflexivity.
  - (* first vote: a stamp is taken *)
    apply ensures_bind.
    eapply ensures_conseq; [apply getOrFetchOneStampOrNull_spec|].
    intros r w1 (Hn & Hh & stamp & -> & _ & pre & Hs & Hm & _).
    pose proof (minted_sameCore _ _ _ Hm) as Hcore1.
    destruct (minted_counts _ _ _ Hm) as (Hpv & Hpm & Hpc).
    cbn [negb andb].
    destruct (truthy stamp).
    2: { apply ensures_ret. repeat split; try assumption; try apply Hcore1.
         exists pre, [], []. rewrite !app_nil_r. fold pollId. fold token.
         repeat split; try assumption; try reflexivity; try apply Nat.le_0_l;
           try congruence. }
    cbn [negb]. apply ensures_bind. unfold ensures at 1, fetch.
    set (v1 := voteRequest pollId _ payload).
    destruct (vote_kind pollId [("Content-Type", "application/json");
                                ("X-Stamp", ToString stamp)] payload) as (Kv & Km & Kc).
    fold v1 in Kv, Km, Kc.
    assert (Hfirst : (length [v1] <= 1)%nat /\ votesIn [v1] = length [v1]
                     /\ mintsIn [v1] = 0%nat /\ createsIn [v1] = 0%nat).
    { unfold votesIn, mintsIn, createsIn, countIf. cbn [List.filter].
      rewrite Kv, Km, Kc. simpl. repeat split; lia. }
    destruct Hfirst as (F1 & F2 & F3 & F4).
    rewrite Hn, Hs.
    (* the run ends after the first vote, which was not answered 403 *)
    assert (Hend : forall r w', sent w' = (sent w ++ pre) ++ [v1] ->
              (forall body, net w (sent w ++ pre) v1 <> Http 403 body) ->
              castTraffic w poll r w').
    { intros r w' Hs' Hnot. exists pre, [v1], []. rewrite app_nil_r, Hs', <- app_assoc.
      fold pollId. fold token.
      repeat split; try assumption; try reflexivity; try apply Nat.le_0_l;
        try congruence.
      all: try (intros _ v body [= <-] Hrep; exfalso; eapply Hnot, Hrep). }
    destruct (net w (sent w ++ pre) v1) as [|status rawBody] eqn:Hrep; cbn [fst snd].
    + repeat split; try assumption; try apply Hcore1.
      apply Hend; [reflexivity | discriminate].
    + destruct (status_ok status) eqn:Hok; cbn [negb].
      * apply ensures_bind.
        eapply ensures_conseq; [apply recordVoteReply_spec|].
        intros r w3 (-> & Hn3 & Hh3 & Hs3 & (Hc3 & _)).
        cbn [net host localStorage sent] in *.
        apply ensures_ret.
        split; [congruence|]. split; [congruence|].
        split; [eapply sameCore_trans; eassumption|].
        apply Hend; [exact Hs3|]. intros body [= -> _]. discriminate Hok.
      * apply ensures_bind.
        destruct (status =? 403) eqn:H403.
        -- apply Z.eqb_eq in H403 as ->.
           eapply ensures_conseq; [apply voteRetryOnce_spec|].
           intros r w3 (Hn3 & Hh3 & (b & ->) & Hc3 & post & Hs3 & Pv & Pm & Pc & Ppool).
           cbn [net host localStorage sent] in *.
           apply ensures_ret.
           split; [congruence|]. split; [congruence|].
           split; [eapply sameCore_trans; eassumption|].
           exists pre, [v1], post. fold pollId. fold token.
           rewrite Hs3, <- !app_assoc.
           split; [reflexivity|].
           repeat (split; [assumption|]).
           split; [intros _; split; [exact Htok | exists v1, rawBody; auto]|].
           split; [|congruence].
           intros _ v body [= <-] _ x Hx.
           destruct (Ppool x Hx) as (m & rest & st & data & E1 & E2 & E3 & E4).
           exists m, rest, st, data. rewrite <- app_assoc in E3. auto.
        -- apply ensures_ret, ensures_ret. cbn [net host localStorage sent].
           split; [reflexivity|]. split; [exact Hh|]. split; [exact Hcore1|].
           apply Hend; [reflexivity|]. intros body [= -> _]. discriminate H403.
Qed.

(** ** Asserting a draft *)

Lemma framed_refl (w : World) : framed 0 w w.
Proof.
  repeat split. exists []. rewrite app_nil_r. split; [reflexivity | apply Nat.le_0_l].
Qed.

Lemma framed_trans (c c' : nat) (w w1 w2 : World) :
  framed c w w1 -> framed c' w1 w2 -> framed (c + c') w w2.
Proof.
  intros (Hn & Hh & Hi & l & Hs & Hc) (Hn' & Hh' & Hi' & l' & Hs' & Hc').
  unfold framed. repeat split; try congruence.
  exists (l ++ l'). rewrite Hs', Hs, app_assoc. split; [reflexivity|].
  unfold createsIn in *. rewrite countIf_app. lia.
Qed.

Lemma sameCore_identity (w w' : World) :
  sameCore (localStorage w) (localStorage w') -> identityOf w' = identityOf w.
Proof. intros (H1 & H2 & _). unfold identityOf. congruence. Qed.

Lemma sameCore_drafts (w w' : World) :
  sameCore (localStorage w) (localStorage w') -> draftsOf w' = draftsOf w.
Proof. intros (_ & _ & H3 & H4). unfold draftsOf. congruence. Qed.

Lemma answered_later (w w' : World) (rq : Request) (reply : Reply) (more : list Request) :
  answered w rq reply -> net w' = net w -> sent w' = sent w ++ more ->
  answered w' rq reply.
Proof.
  intros (before & after & Hs & Hr) Hn Hs'.
  exists before, (after ++ more). rewrite Hs', Hs, Hn, <- app_assoc. auto.
Qed.

Lemma ensureLocalToken_spec (pollId : value) (w : World) :
  ensures (ensureLocalToken pollId) w (fun r w' =>
    (exists tok, r = Ok tok) /\ net w' = net w /\ host w' = host w /\ sent w' = sent w
    /\ sameButTokens (localStorage w) (localStorage w')).
Proof.
  cbv [ensures ensureLocalToken bind getStorage makeId draw getHost modifyStorage ret].
  destruct (truthy (getToken pollId (localStorage w))); cbn [fst snd localStorage net host sent];
    repeat split; eauto.
Qed.

Lemma getLocalSelectedChoice_spec (poll : value) (w : World) :
  ensures (getLocalSelectedChoice poll) w (fun r w' =>
    (exists c, r = Ok c) /\ net w' = net w /\ host w' = host w /\ sent w' = sent w
    /\ sameButTokens (localStorage w) (localStorage w')).
Proof.
  unfold getLocalSelectedChoice.
  destruct (negb (truthy (optProp poll "id"))).
  - apply ensures_ret. repeat split; eauto.
  - apply ensures_bind.
    eapply ensures_conseq; [apply ensureLocalToken_spec|].
    intros r w1 ((tok & ->) & Hn & Hh & Hs & Hst).
    apply ensures_bind, ensures_getStorage, ensures_ret.
    repeat split; eauto; apply Hst.
Qed.

Lemma assertReserveStamps_spec (w : World) :
  ensures assertReserveStamps w (fun r w' =>
    r = Ok tt /\ net w' = net w /\ host w' = host w
    /\ exists added, sent w' = sent w ++ added /\ minted w w' added).
Proof.
  unfold assertReserveStamps. apply ensures_try_catch, ensures_bind, ensures_getStorage.
  destruct (getExchangeStampPool (localStorage w)).
  - apply ensures_bind.
    eapply ensures_conseq; [apply fetchStampsFromExchange_spec|].
    intros [data|e] w1 (Hn & Hh & added & Hs & Hm & _); apply ensures_ret; eauto 10.
  - apply ensures_ret. repeat split. exists []. rewrite app_nil_r.
    split; [reflexivity|]. left. auto.
Qed.

(** The stamps, votes and polls a vote leaves alone, and the requests it
    sends, as a frame. *)
Lemma castExchangeVoteByLabel_framed (poll : value) (choiceLabel : string) (w : World) :
  ensures (castExchangeVoteByLabel poll choiceLabel) w (fun _ w' =>
    framed 0 w w' /\ draftsOf w' = draftsOf w).
Proof.
  eapply ensures_conseq; [apply castExchangeVoteByLabel_spec|].
  intros r w' (Hn & Hh & Hc & pre & first & post & Hs & _ & _ & C1 & _ & _ & _ & C2 & _ & _ & C3 & _).
  split; [|apply sameCore_drafts, Hc].
  split; [exact Hn|]. split; [exact Hh|]. split; [apply sameCore_identity, Hc|].
  exists (pre ++ first ++ post). split; [exact Hs|].
  unfold createsIn in *. rewrite !countIf_app. lia.
Qed.

Lemma fetch_index_spec (w : World) :
  ensures (fetch pollsRequest) w (fun r w' =>
    localStorage w' = localStorage w /\ net w' = net w /\ host w' = host w
    /\ sent w' = sent w ++ [pollsRequest]
    /\ match r with
       | Ok (status, body) => net w (sent w) pollsRequest = Http status body
       | Thrown _ => net w (sent w) pollsRequest = Unreachable
       end).
Proof.
  unfold ensures, fetch. destruct (net w (sent w) pollsRequest); repeat split.
Qed.

Lemma framed_index (w w' : World) :
  localStorage w' = localStorage w -> net w' = net w -> host w' = host w ->
  sent w' = sent w ++ [pollsRequest] ->
  framed 0 w w' /\ draftsOf w' = draftsOf w.
Proof.
  intros Hs Hn Hh Hl. unfold framed, identityOf, draftsOf. rewrite Hs.
  repeat split; try assumption. exists [pollsRequest]. split; [exact Hl|].
  apply Nat.le_0_l.
Qed.

Lemma carryVoteToMatch_spec (found : json) (localChoice : string) (w : World) :
  ensures (carryVoteToMatch found localChoice) w (fun r w' =>
    r = Ok tt /\ framed 0 w w' /\ draftsOf w' = draftsOf w).
Proof.
  unfold carryVoteToMatch. apply ensures_try_catch, ensures_bind.
  eapply ensures_conseq; [apply fetch_index_spec|].
  intros r w1 (Hs & Hn & Hh & Hl & _).
  destruct (framed_index w w1 Hs Hn Hh Hl) as (Hf & Hd).
  assert (Hhere : forall (u : result unit), u = Ok tt ->
            u = Ok tt /\ framed 0 w w1 /\ draftsOf w1 = draftsOf w) by auto.
  destruct r as [[status body]|e]; [|apply ensures_ret; auto].
  cbn [fst snd]. destruct (status_ok status); [|apply ensures_ret; auto].
  apply ensures_bind. destruct body as [raw|doc2]; cbn [parseBody].
  { apply ensures_throw, ensures_ret. auto. }
  apply ensures_ret.
  destruct (pollsOf doc2) as [|p polls2]; [apply ensures_ret; auto|].
  apply ensures_bind, ensures_liftR.
  destruct (propE (Some found) "id") as [fid|e]; [|apply ensures_ret; auto].
  destruct (find _ (p :: polls2)) as [fullRemote|]; [|apply ensures_ret; auto].
  destruct (truthyJ fullRemote); [|apply ensures_ret; auto].
  apply ensures_bind.
  eapply ensures_conseq; [apply castExchangeVoteByLabel_framed|].
  intros r w2 (Hf2 & Hd2).
  assert (Hend : framed 0 w w2 /\ draftsOf w2 = draftsOf w).
  { split; [apply (framed_trans 0 0 w w1 w2); assumption | congruence]. }
  destruct r; apply ensures_ret; split; auto.
Qed.

(** The purge touches the drafts and the tokens, nothing else. *)
Lemma purgeLocalPollState_spec (localPollId : value) (w : World) :
  ensures (purgeLocalPollState localPollId) w (fun r w' =>
    r = Ok tt /\ framed 0 w w'
    /\ exchange_stamps (localStorage w') = exchange_stamps (localStorage w)).
Proof.
  unfold purgeLocalPollState.
  destruct (String.eqb _ "").
  - apply ensures_ret. repeat split. apply framed_refl.
  - cbv [ensures bind try_catch removeLocalPoll getStorage modifyStorage ret throw].
    destruct (existsb _ _); cbn [fst snd localStorage net host sent];
      (split; [reflexivity|]); (split; [|reflexivity]);
      repeat split; exists []; rewrite app_nil_r; (split; [reflexivity | apply Nat.le_0_l]).
Qed.

(** ** The newest match *)

Section Sorting.
Variable cmp : json -> json -> comparison.

Lemma elem_of_sortInsert (x y : json) (l : list json) :
  y ∈ sortInsert cmp x l <-> y = x \/ y ∈ l.
Proof.
  induction l as [|z l IH]; cbn [sortInsert].
  - rewrite list_elem_of_singleton, elem_of_nil. tauto.
  - destruct (cmp x z); rewrite !elem_of_cons; try rewrite IH; tauto.
Qed.

Lemma elem_of_sortBy (y : json) (l : list json) : y ∈ sortBy cmp l <-> y ∈ l.
Proof.
  unfold sortBy. induction l as [|x l IH]; cbn [fold_right]; [reflexivity|].
  rewrite elem_of_sortInsert, elem_of_cons, IH. reflexivity.
Qed.

Lemma sortBy_nil (l : list json) : sortBy cmp l = [] -> l = [].
Proof.
  destruct l as [|x l]; [reflexivity|]. intros H.
  assert (Hx : x ∈ sortBy cmp (x :: l)) by (apply elem_of_sortBy, elem_of_cons; auto).
  rewrite H in Hx. apply elem_of_nil in Hx. contradiction.
Qed.

Lemma sortBy_head_elem (l : list json) (found : json) (rest : list json) :
  sortBy cmp l = found :: rest -> found ∈ l.
Proof.
  intros E. apply elem_of_sortBy. rewrite E. apply elem_of_cons. auto.
Qed.

Hypothesis cmp_anti : forall a b, cmp a b = Gt -> cmp b a <> Gt.
Hypothesis cmp_trans : forall a b c, cmp a b <> Gt -> cmp b c <> Gt -> cmp a c <> Gt.

Lemma cmp_refl (a : json) : cmp a a <> Gt.
Proof. intros H. exact (cmp_anti a a H H). Qed.

(** When the head of [l] comes before every entry of [l], so does the
    head after an insertion. *)
Lemma sortInsert_head (x : json) (l : list json) :
  (forall h r, l = h :: r -> forall y, y ∈ l -> cmp h y <> Gt) ->
  forall h r, sortInsert cmp x l = h :: r ->
    forall y, y ∈ sortInsert cmp x l -> cmp h y <> Gt.
Proof.
  intros Hl h r E y Hy. apply elem_of_sortInsert in Hy.
  destruct l as [|z l]; cbn [sortInsert] in E.
  - injection E as <- <-. destruct Hy as [->|Hy]; [apply cmp_refl|].
    apply elem_of_nil in Hy. contradiction.
  - specialize (Hl z l eq_refl).
    destruct (cmp x z) eqn:C; injection E as <- <-.
    + destruct Hy as [->|Hy]; [apply cmp_refl|].
      apply (cmp_trans x z y); [congruence | apply Hl, Hy].
    + destruct Hy as [->|Hy]; [apply cmp_refl|].
      apply (cmp_trans x z y); [congruence | apply Hl, Hy].
    + destruct Hy as [->|Hy]; [apply cmp_anti, C | apply Hl, Hy].
Qed.

Lemma sortBy_head (l : list json) (found : json) (rest : list json) :
  sortBy cmp l = found :: rest ->
  found ∈ l /\ forall y, y ∈ l -> cmp found y <> Gt.
Proof.
  intros E. split.
  - apply (sortBy_head_elem _ _ _ E).
  - intros y Hy. apply elem_of_sortBy in Hy. revert found rest E y Hy.
    unfold sortBy. induction l as [|x l IH]; cbn [fold_right]; [discriminate|].
    intros found rest E y Hy.
    apply (sortInsert_head x (fold_right (sortInsert cmp) [] l)) with (r := rest);
      assumption.
Qed.
End Sorting.

Lemma match_key (localKey : string) (polls : list json) (p : json) :
  p ∈ matchesOf localKey polls <-> createdLocalIdOf p = localKey /\ p ∈ polls.
Proof.
  unfold matchesOf. rewrite list_elem_of_filter, String.eqb_eq. reflexivity.
Qed.

(** Only an object can carry a key that is not empty. *)
Lemma match_is_object (localKey : string) (polls : list json) (p : json) :
  localKey <> "" -> p ∈ matchesOf localKey polls -> exists m, p = JObj m.
Proof.
  intros Hk Hp. apply match_key in Hp. destruct Hp as [Hp _].
  destruct p; try (exfalso; apply Hk; rewrite <- Hp; reflexivity).
  eauto.
Qed.

Lemma after_index (w w1 w' : World) :
  localStorage w1 = localStorage w -> net w1 = net w -> host w1 = host w ->
  sent w1 = sent w ++ [pollsRequest] -> framed 0 w1 w' ->
  net w' = net w /\ host w' = host w /\ identityOf w' = identityOf w
  /\ exists post, sent w' = sent w ++ pollsRequest :: post /\ createsIn post = 0%nat.
Proof.
  intros Hs Hn Hh Hl (Hn' & Hh' & Hi' & post & Hp & Hc).
  split; [congruence|]. split; [congruence|].
  split; [rewrite Hi'; unfold identityOf; rewrite Hs; reflexivity|].
  exists post. rewrite Hp, Hl, <- app_assoc. split; [reflexivity | lia].
Qed.

(** The merge check, for a draft key that is not empty: it never throws; it
    sends no creation request; it returns from the function exactly when the
    index lists a poll created from the draft, with the newest such poll;
    otherwise the drafts are as they were. *)
Lemma assertMerge_spec (pollId : value) (localKey : string)
    (localChoice : option string) (w : World) :
  localKey <> "" ->
  ensures (assertMerge pollId localKey localChoice) w (fun r w' =>
    net w' = net w /\ host w' = host w /\ identityOf w' = identityOf w
    /\ (exists post, sent w' = sent w ++ pollsRequest :: post /\ createsIn post = 0%nat)
    /\ match r with
       | Ok None =>
           noMatch localKey (net w (sent w) pollsRequest) /\ draftsOf w' = draftsOf w
       | Ok (Some o) =>
           exists found,
             newestMatch (host w) localKey (net w (sent w) pollsRequest) found
             /\ o = OpenedRemote true (getProp found "id")
       | Thrown _ => False
       end).
Proof.
  intros Hk. unfold assertMerge. apply ensures_try_catch, ensures_bind.
  eapply ensures_conseq; [apply fetch_index_spec|].
  intros r w1 (Hs & Hn & Hh & Hl & Hr).
  destruct (framed_index w w1 Hs Hn Hh Hl) as (Hf & Hd).
  pose proof (after_index w w1 w1 Hs Hn Hh Hl (framed_refl w1)) as (F1 & F2 & F3 & F4).
  assert (Hnone : noMatch localKey (net w (sent w) pollsRequest) ->
            net w1 = net w /\ host w1 = host w /\ identityOf w1 = identityOf w
            /\ (exists post, sent w1 = sent w ++ pollsRequest :: post
                             /\ createsIn post = 0%nat)
            /\ noMatch localKey (net w (sent w) pollsRequest)
            /\ draftsOf w1 = draftsOf w) by auto 10.
  destruct r as [[status body]|e].
  2: { apply ensures_ret, Hnone. intros st doc E. congruence. }
  cbn [fst snd]. destruct (status_ok status) eqn:Hok.
  2: { apply ensures_ret, Hnone. intros st doc E Ho. congruence. }
  apply ensures_bind. destruct body as [raw|doc]; cbn [parseBody].
  { apply ensures_throw, ensures_ret, Hnone. intros st doc E. congruence. }
  apply ensures_ret, ensures_bind, ensures_getHost. rewrite Hh.
  destruct (sortBy (newestFirst (host w)) (matchesOf localKey (pollsOf doc)))
    as [|found rest] eqn:E.
  { apply ensures_ret, Hnone. intros st doc' E' _.
    assert (doc' = doc) as -> by congruence.
    apply (sortBy_nil _ _ E). }
  assert (Hobj : exists m, found = JObj m).
  { apply (match_is_object localKey (pollsOf doc)); [exact Hk|].
    apply (elem_of_sortBy (newestFirst (host w))). rewrite E.
    apply elem_of_cons. auto. }
  destruct Hobj as (m & ->).
  apply ensures_bind.
  assert (Hcarry : ensures (match localChoice with
                            | Some c => carryVoteToMatch (JObj m) c
                            | None => ret tt
                            end) w1 (fun r w2 => r = Ok tt /\ framed 0 w1 w2)).
  { destruct localChoice as [c|].
    - eapply ensures_conseq; [apply carryVoteToMatch_spec|].
      intros r w2 (Hr2 & Hf2 & _). auto.
    - apply ensures_ret. split; [reflexivity | apply framed_refl]. }
  eapply ensures_conseq; [exact Hcarry|].
  intros r w2 (-> & Hf2). apply ensures_bind.
  eapply ensures_conseq; [apply purgeLocalPollState_spec|].
  intros r w3 (-> & Hf3 & _).
  apply ensures_bind, ensures_liftR. cbn [propE]. apply ensures_ret.
  pose proof (after_index w w1 w3 Hs Hn Hh Hl (framed_trans 0 0 w1 w2 w3 Hf2 Hf3))
    as (G1 & G2 & G3 & G4).
  repeat (split; [assumption|]).
  exists (JObj m). split; [|reflexivity].
  exists status, doc, rest. repeat split; assumption.
Qed.

Lemma framed_one (w w1 : World) :
  localStorage w1 = localStorage w -> net w1 = net w -> host w1 = host w ->
  (sent w1 = sent w \/ exists rq, sent w1 = sent w ++ [rq]) ->
  framed 1 w w1 /\ draftsOf w1 = draftsOf w.
Proof.
  intros Hs Hn Hh Hl. unfold framed, identityOf, draftsOf. rewrite Hs.
  repeat split; try assumption.
  destruct Hl as [Hl | (rq & Hl)].
  - exists []. rewrite app_nil_r. split; [exact Hl | apply Nat.le_0_l].
  - exists [rq]. split; [exact Hl|].
    unfold createsIn, countIf. cbn [List.filter]. destruct (isCreateb rq); simpl; lia.
Qed.

Lemma answered_framed (c : nat) (w w' : World) (rq : Request) (reply : Reply) :
  answered w rq reply -> framed c w w' -> answered w' rq reply.
Proof.
  intros Ha (Hn & _ & _ & more & Hs & _). exact (answered_later w w' rq reply more Ha Hn Hs).
Qed.

(** The creation request and what follows it: at most one creation request
    is sent; the function never throws; the drafts change only when the
    request was answered with success and a poll identifier. *)
Lemma assertCreate_spec (pollId : value) (payload : json) (localChoice : option string)
    (w : World) :
  ensures (assertCreate pollId payload localChoice) w (fun r w' =>
    framed 1 w w'
    /\ exists o, r = Ok o
       /\ match o with
          | OpenedRemote merged id => merged = false /\ created w' id
          | AlreadyAsserted | MissingIdentity => False
          | _ => draftsOf w' = draftsOf w
          end).
Proof.
  unfold assertCreate. apply ensures_try_catch, ensures_bind.
  eapply ensures_conseq; [apply exchangeFetchAuthed_spec|].
  intros r w1 (Hs & Hn & Hh & Hcase).
  assert (Hl : sent w1 = sent w \/ exists rq, sent w1 = sent w ++ [rq]).
  { destruct Hcase as [[Hl _] | (rq & Hl & _)]; eauto. }
  destruct (framed_one w w1 Hs Hn Hh Hl) as (Hf & Hd).
  assert (Hfail : forall o, (o = AssertNetworkError \/ o = ResponseMissingPollId
                             \/ exists status, o = AssertFailed status) ->
            framed 1 w w1
            /\ exists o', Ok o = Ok o'
               /\ match o' with
                  | OpenedRemote merged id => merged = false /\ created w1 id
                  | AlreadyAsserted | MissingIdentity => False
                  | _ => draftsOf w1 = draftsOf w
                  end).
  { intros o Ho. split; [exact Hf|]. exists o. split; [reflexivity|].
    destruct Ho as [-> | [-> | (st & ->)]]; exact Hd. }
  destruct r as [[status raw]|e]; [|apply ensures_ret, Hfail; auto].
  destruct Hcase as [(_ & e & [=]) | (rq & Hrq & Hurl & Hmeth & Hreply)].
  destruct (negb (status_ok status)) eqn:Hok; [apply ensures_ret, Hfail; eauto|].
  apply Bool.negb_false_iff in Hok.
  apply ensures_bind. destruct raw as [text|data]; cbn [parseBody].
  { apply ensures_throw, ensures_ret, Hfail. auto. }
  apply ensures_ret. cbv zeta.
  destruct (negb (truthy (optProp (optProp (Some data) "poll") "id"))) eqn:Hid;
    [apply ensures_ret, Hfail; auto|].
  apply Bool.negb_false_iff in Hid.
  apply ensures_bind.
  assert (Hcarry : ensures (match localChoice with
                            | Some c =>
                                try_catch
                                  (run castExchangeVoteByLabel
                                         (optProp (Some data) "poll") c ; ret tt)
                                  (fun _ => ret tt)
                            | None => ret tt
                            end) w1 (fun r w2 => r = Ok tt /\ framed 0 w1 w2)).
  { destruct localChoice as [c|].
    - apply ensures_try_catch, ensures_bind.
      eapply ensures_conseq; [apply castExchangeVoteByLabel_framed|].
      intros r w2 (Hf2 & _). destruct r; apply ensures_ret; auto.
    - apply ensures_ret. split; [reflexivity | apply framed_refl]. }
  eapply ensures_conseq; [exact Hcarry|].
  intros r w2 (-> & Hf2). apply ensures_bind.
  eapply ensures_conseq; [apply purgeLocalPollState_spec|].
  intros r w3 (-> & Hf3 & _). apply ensures_ret.
  split; [exact (framed_trans 1 0 w w2 w3 (framed_trans 1 0 w w1 w2 Hf Hf2) Hf3)|].
  eexists. split; [reflexivity|]. split; [reflexivity|].
  exists rq, status, data.
  split.
  { unfold isCreateb. rewrite Hurl, Hmeth. reflexivity. }
  split.
  { apply (answered_framed 0 w2 w3); [|exact Hf3].
    apply (answered_framed 0 w1 w2); [|exact Hf2].
    exists (sent w), []. split; [exact Hrq | rewrite Hn; exact Hreply]. }
  auto.
Qed.

Lemma Date_now_spec (w : World) :
  ensures Date_now w (fun r w' =>
    (exists t, r = Ok t) /\ localStorage w' = localStorage w /\ net w' = net w
    /\ host w' = host w /\ sent w' = sent w).
Proof.
  cbv [ensures Date_now bind draw getHost ret]. cbn [fst snd localStorage net host sent].
  eauto 10.
Qed.

(** [assertPollToExchange], whatever the draft, the store and the
    Exchange. *)
Lemma assertPollToExchange_spec (localPoll : value) (w : World) :
  draftKey localPoll <> "" ->
  ensures (assertPollToExchange localPoll) w (assertEnds localPoll w).
Proof.
  intros Hk. unfold assertPollToExchange. cbv zeta.
  destruct (negb (isLocalPoll localPoll)) eqn:Hloc.
  { apply ensures_ret. apply Bool.negb_true_iff in Hloc. split; [exact Hloc | reflexivity]. }
  apply Bool.negb_false_iff in Hloc.
  apply ensures_bind, ensures_getStorage.
  destruct (getExchangeHmacCredsOrNull (localStorage w)) as [creds|] eqn:Hcreds.
  2: { apply ensures_ret. repeat split; assumption. }
  assert (Hsome : getExchangeHmacCredsOrNull (localStorage w) <> None) by congruence.
  clear Hcreds.
  apply ensures_bind.
  eapply ensures_conseq; [apply getLocalSelectedChoice_spec|].
  intros r w1 ((localChoice & ->) & Hn1 & Hh1 & Hs1 & (Hc1 & _)).
  apply ensures_bind.
  eapply ensures_conseq; [apply assertReserveStamps_spec|].
  intros r w2 (-> & Hn2 & Hh2 & pre & Hs2 & Hm).
  pose proof (minted_counts _ _ _ Hm) as (_ & _ & Hpre).
  pose proof (minted_sameCore _ _ _ Hm) as Hc2.
  pose proof (sameCore_trans _ _ _ Hc1 Hc2) as Hc.
  assert (Hsent2 : sent w2 = sent w ++ pre) by congruence.
  assert (Hnet2 : net w2 = net w) by congruence.
  assert (Hhost2 : host w2 = host w) by congruence.
  apply ensures_bind.
  eapply ensures_conseq; [apply (assertMerge_spec _ _ _ _ Hk)|].
  intros r w3 (Hn3 & Hh3 & Hi3 & (post & Hs3 & Hpost) & Hr).
  rewrite Hnet2, Hsent2 in Hr. rewrite Hhost2 in Hr.
  assert (Hsent3 : sent w3 = sent w ++ pre ++ pollsRequest :: post).
  { rewrite Hs3, Hsent2, <- app_assoc. reflexivity. }
  assert (Hid3 : identityOf w3 = identityOf w).
  { rewrite Hi3. apply sameCore_identity, Hc. }
  destruct r as [[o|]|e]; [| |contradiction].
  { (* merged *)
    destruct Hr as (found & Hfound & ->). apply ensures_ret.
    cbn [assertEnds]. repeat (split; [congruence|]).
    exists pre, post. split; [exact Hsent3|]. split; [exact Hpre|].
    split; [lia|]. cbv zeta. split; [exact Hpost|]. exists found. auto. }
  destruct Hr as (Hno & Hd3).
  assert (Hd : draftsOf w3 = draftsOf w).
  { rewrite Hd3. apply sameCore_drafts, Hc. }
  assert (Hthrow : forall e, assertEnds localPoll w (Thrown e) w3).
  { intros e. cbn [assertEnds]. repeat (split; [congruence|]).
    exists pre, post. split; [exact Hsent3|]. split; [exact Hpre|].
    split; [lia|]. cbv zeta. auto. }
  apply ensures_bind, ensures_liftR.
  destruct (propE localPoll "options") as [o|e]; [|apply Hthrow].
  apply ensures_bind. unfold asArray.
  destruct (js_or o (Some (JArr []))) as [[| | | | options |]|];
    try (apply ensures_throw, Hthrow).
  apply ensures_ret, ensures_bind.
  eapply ensures_conseq; [apply Date_now_spec|].
  intros r w4 ((now & ->) & Hs4 & Hn4 & Hh4 & Hl4).
  eapply ensures_conseq; [apply assertCreate_spec|].
  intros r w5 ((Hn5 & Hh5 & Hi5 & last & Hs5 & Hlast) & o' & -> & Ho).
  assert (Hran : forall r',
            match r' with
            | Ok (OpenedRemote true id) => False
            | Ok (OpenedRemote false id) => created w5 id
            | _ => draftsOf w5 = draftsOf w
            end -> assertRan localPoll w r' w5).
  { intros r' Hr'. split; [exact Hloc|]. split; [exact Hsome|].
    split; [congruence|]. split; [congruence|].
    split; [rewrite Hi5; unfold identityOf; rewrite Hs4; exact Hid3|].
    exists pre, (post ++ last).
    split; [rewrite Hs5, Hl4, Hsent3, <- !app_assoc; reflexivity|].
    split; [exact Hpre|].
    split; [unfold createsIn in *; rewrite countIf_app; lia|]. cbv zeta.
    destruct r' as [[| | | | |[|] id]|e]; auto; contradiction. }
  assert (Hd4 : draftsOf w4 = draftsOf w).
  { rewrite <- Hd. unfold draftsOf. rewrite Hs4. reflexivity. }
  destruct o' as [| | status | | | merged id]; try contradiction;
    cbn [assertEnds]; apply Hran; try congruence.
  destruct Ho as (-> & Hcr). exact Hcr.
Qed.

(** A draft as the creation form makes it, with an identifier that starts
    with [local_] and no [meta], has a key that is not empty. *)
Lemma draftKey_created (m : gmap string json) (id : string) :
  m !! "id" = Some (JStr id) -> m !! "meta" = None -> startsWith id "local_" = true ->
  draftKey (Some (JObj m)) = id /\ id <> "".
Proof.
  intros Hid Hmeta Hpre.
  assert (Hne : id <> "") by (intros ->; discriminate).
  split; [|exact Hne].
  unfold draftKey. cbn [optProp getProp]. rewrite Hmeta, Hid. cbn [optProp].
  unfold js_or. cbn [truthy truthyJ]. cbv [ToString ToStringJ]. reflexivity.
Qed.

Lemma assertEnds_frame (localPoll : value) (w : World) (r : result AssertOutcome)
    (w' : World) :
  assertEnds localPoll w r w' ->
  net w' = net w /\ host w' = host w /\ identityOf w' = identityOf w.
Proof.
  assert (Hran : assertRan localPoll w r w' ->
            net w' = net w /\ host w' = host w /\ identityOf w' = identityOf w).
  { intros (_ & _ & Hn & Hh & Hi & _). auto. }
  destruct r as [[| | | | |]|]; cbn [assertEnds]; try exact Hran.
  - intros (_ & ->). auto.
  - intros (_ & _ & ->). auto.
Qed.

(** ** The retry of a rejected first vote *)

Lemma truthy_exchangePollIdOf (poll : value) (k : string) :
  truthy (exchangePollIdOf poll) = true -> propE poll k = Ok (optProp poll k).
Proof.
  destruct poll as [[]|]; try reflexivity; discriminate.
Qed.

(** The function up to the choice of the option. *)
Lemma castExchangeVoteByLabel_run (poll : value) (label : string) (opts : list json)
    (w : World) :
  startsWith (ToString (exchangePollIdOf poll)) "local_" = false ->
  truthy (exchangePollIdOf poll) = true ->
  optionsOf poll opts ->
  let pollId := exchangePollIdOf poll in
  let voter_token := getToken pollId (localStorage w) in
  castExchangeVoteByLabel poll label w
  = match optionIndex opts label with
    | None => (Ok (VoteFailed bad_option), w)
    | Some idx =>
        let payload := JObj {[ "option_id" := JStr (optionIdAt opts idx) ]} in
        (do stamp <- (if truthy voter_token then ret (Some JNull)
                      else getOrFetchOneStampOrNull) ;
         if negb (truthy voter_token) && negb (truthy stamp) then ret (VoteFailed no_stamp)
         else
           let headers :=
             [("Content-Type", "application/json");
              (if truthy voter_token then ("X-Voter-Token", ToString voter_token)
               else ("X-Stamp", ToString stamp))] in
           do r <- fetch (voteRequest pollId headers payload) ;
           let '(status, rawBody) := r in
           if negb (status_ok status) then
             do retried <- (if negb (truthy voter_token) && (status =? 403)
                            then voteRetryOnce pollId label payload
                            else ret false) ;
             ret (if retried then VoteOk else VoteFailed (rejected status rawBody))
           else
             run recordVoteReply pollId label rawBody ;
             ret VoteOk) w
    end.
Proof.
  intros Hloc Hid Hopts. cbv zeta. unfold castExchangeVoteByLabel. cbv zeta.
  rewrite Hloc, Hid. cbn [negb].
  unfold bind at 1, getStorage. cbn [fst snd].
  rewrite (truthy_exchangePollIdOf poll "options" Hid).
  unfold bind at 1, liftR, ret at 1. cbn [fst snd].
  unfold optionsOf in Hopts. rewrite Hopts.
  unfold bind at 1, asArray, ret at 1. cbn [fst snd].
  unfold optionIndex, optionIdAt.
  destruct (findIndex _ opts); reflexivity.
Qed.

Lemma recordVoteReply_run (pollId : value) (label : string) (rawBody : Body) (w : World) :
  recordVoteReply pollId label rawBody w
  = (Ok tt,
     withStorage
       (setRemoteLastChoice pollId label
          (match optProp (parseBodyOrNull rawBody) "voter_token" with
           | Some tok => if truthyJ tok then setToken pollId tok (localStorage w)
                         else localStorage w
           | None => localStorage w
           end)) w).
Proof.
  unfold recordVoteReply, bind, modifyStorage, ret, withStorage.
  destruct w as [s n se h t].
  destruct (optProp (parseBodyOrNull rawBody) "voter_token") as [tok|];
    [destruct (truthyJ tok)|]; reflexivity.
Qed.

Lemma pool_clearExchangeStampPool (s : Storage) :
  getExchangeStampPool (clearExchangeStampPool s) = [].
Proof. reflexivity. Qed.

(** A stamp obtained while the pool is empty was issued by the one mint
    then sent. *)
Lemma getOrFetchOneStampOrNull_fresh (w : World) (stamp : value) :
  getExchangeStampPool (localStorage w) = [] ->
  fst (getOrFetchOneStampOrNull w) = Ok stamp -> truthy stamp = true ->
  exists x m status data,
    stamp = Some x /\ sent (snd (getOrFetchOneStampOrNull w)) = sent w ++ [m]
    /\ isMintb m = true /\ net w (sent w) m = Http status (Json data)
    /\ x ∈ issuedOf data.
Proof.
  intros Hp Hf Ht. pose proof (getOrFetchOneStampOrNull_spec w) as H. unfold ensures in H.
  destruct H as (_ & _ & v & Hv & Hin & added & Hs & Hm & _).
  rewrite Hf in Hv. injection Hv as <-.
  destruct (Hin Ht) as (x & -> & Hx).
  destruct Hm as [[_ Hl] | (m & -> & Hmint & [Hl | (st & data & Hrep & Hl)])];
    try (rewrite Hl, Hp in Hx; inversion Hx; fail).
  exists x, m, st, data. repeat split; auto.
  rewrite Hl in Hx.
  destruct (pool_mintStore data (localStorage w)) as [Heq | (y & issued & Hi & Heq)];
    rewrite Heq in Hx; [rewrite Hp in Hx; inversion Hx|].
  rewrite pool_addStampsToPool, Hp in Hx.
  apply (proj1 (addValid_spec _ _)) in Hx as [Hx | [Hx _]]; [inversion Hx|].
  unfold issuedOf. rewrite Hi. exact Hx.
Qed.

(** The retry, step by step: the pool is cleared, one stamp is taken or
    minted, and when there is one the vote is sent again with it. *)
Lemma voteRetryOnce_run (pollId : value) (choiceLabel : string) (payload : json)
    (w : World) :
  let cleared := withStorage (clearExchangeStampPool (localStorage w)) w in
  let again := getOrFetchOneStampOrNull cleared in
  voteRetryOnce pollId choiceLabel payload w
  = match fst again with
    | Ok stamp2 =>
        if truthy stamp2 then
          let v2 := voteRequest pollId
                      [("Content-Type", "application/json"); ("X-Stamp", ToString stamp2)]
                      payload in
          let w3 := mkWorld (localStorage (snd again)) (net (snd again))
                            (sent (snd again) ++ [v2]) (host (snd again))
                            (tick (snd again)) in
          match net (snd again) (sent (snd again)) v2 with
          | Unreachable => (Ok false, w3)
          | Http status body =>
              if status_ok status
              then (Ok true, snd (recordVoteReply pollId choiceLabel body w3))
              else (Ok false, w3)
          end
        else (Ok false, snd again)
    | Thrown _ => (Ok false, snd again)
    end.
Proof.
  cbv zeta. unfold voteRetryOnce.
  unfold bind at 1, try_catch at 1, modifyStorage. cbn [fst snd].
  fold (withStorage (clearExchangeStampPool (localStorage w)) w).
  set (cleared := withStorage (clearExchangeStampPool (localStorage w)) w).
  unfold try_catch, bind at 1.
  destruct (getOrFetchOneStampOrNull cleared) as [[stamp2|e] w2]; cbn [fst snd];
    [|reflexivity].
  destruct (truthy stamp2); [|reflexivity].
  unfold bind at 1, fetch.
  destruct (net w2 (sent w2) _) as [|status body]; [reflexivity|]. cbn [fst snd].
  destruct (status_ok status); [|reflexivity].
  unfold bind at 1. rewrite recordVoteReply_run. reflexivity.
Qed.

(** C7 (as amended): the requests of one [castExchangeVoteByLabel] are
    [pre], then at most one first vote, then [post]. [pre] holds no vote and
    at most one mint, [post] at most one vote and at most one mint: there is
    never a second retry. [post] is not empty only when no voter token was
    stored and the first vote was answered 403; and whatever the pool holds
    afterwards was issued by the single mint of [post]. And the retry does
    happen: when a first vote, sent with the stamp [stamp] and without
    stored token on a poll whose identifier names, as text, no member of
    [Object.prototype], is answered 403, the pool is cleared and a stamp is
    asked for again; from the cleared pool that sends at most one mint and
    no vote; when it yields a stamp, that stamp was issued by this mint,
    and the vote is sent again exactly once, the same vote with the fresh
    stamp in [X-Stamp], as the last request: the result is [ok] when the
    Exchange accepts it and the first failure otherwise; when it yields no
    stamp, no vote is sent again and the result is the first failure. *)
Theorem castExchangeVoteByLabel_retries_at_most_once (w : World) (poll : value)
    (choiceLabel : string) :
  let out := castExchangeVoteByLabel poll choiceLabel w in
  let w' := snd out in
  let pollId := exchangePollIdOf poll in
  let token := getToken pollId (localStorage w) in
  (exists pre first post,
     sent w' = sent w ++ pre ++ first ++ post
     /\ votesIn pre = 0%nat /\ (mintsIn pre <= 1)%nat
     /\ (length first <= 1)%nat /\ votesIn first = length first /\ mintsIn first = 0%nat
     /\ (votesIn post <= 1)%nat /\ (mintsIn post <= 1)%nat
     /\ (post <> [] ->
         truthy token = false
         /\ exists v1 body, first = [v1] /\ net w (sent w ++ pre) v1 = Http 403 body)
     /\ (truthy token = false ->
         forall v1 body,
           first = [v1] -> net w (sent w ++ pre) v1 = Http 403 body ->
           forall x, x ∈ getExchangeStampPool (localStorage w') ->
             exists m rest status data,
               post = m :: rest /\ isMintb m = true
               /\ net w (sent w ++ pre ++ first) m = Http status (Json data)
               /\ x ∈ issuedOf data))
  /\ forall opts idx stamp w0 body,
       startsWith (ToString pollId) "local_" = false -> truthy pollId = true ->
       optionsOf poll opts -> optionIndex opts choiceLabel = Some idx ->
       plainKey (ToString pollId) = true -> truthy token = false ->
       getOrFetchOneStampOrNull w = (Ok stamp, w0) -> truthy stamp = true ->
       let payload := JObj {[ "option_id" := JStr (optionIdAt opts idx) ]} in
       let v1 := voteRequest pollId
                   [("Content-Type", "application/json"); ("X-Stamp", ToString stamp)]
                   payload in
       net w0 (sent w0) v1 = Http 403 body ->
       let cleared := mkWorld (clearExchangeStampPool (localStorage w0)) (net w0)
                              (sent w0 ++ [v1]) (host w0) (tick w0) in
       let again := getOrFetchOneStampOrNull cleared in
       getExchangeStampPool (localStorage cleared) = []
       /\ (exists added, sent (snd again) = sent cleared ++ added
                         /\ votesIn added = 0%nat /\ (mintsIn added <= 1)%nat)
       /\ match fst again with
          | Ok stamp2 =>
              if truthy stamp2 then
                let v2 := voteRequest pollId
                            [("Content-Type", "application/json");
                             ("X-Stamp", ToString stamp2)] payload in
                sent w' = sent (snd again) ++ [v2]
                /\ (exists x m status data,
                      stamp2 = Some x /\ sent (snd again) = sent cleared ++ [m]
                      /\ isMintb m = true
                      /\ net cleared (sent cleared) m = Http status (Json data)
                      /\ x ∈ issuedOf data)
                /\ fst out
                   = match net (snd again) (sent (snd again)) v2 with
                     | Http status2 _ =>
                         if status_ok status2 then Ok VoteOk
                         else Ok (VoteFailed (rejected 403 body))
                     | Unreachable => Ok (VoteFailed (rejected 403 body))
                     end
              else sent w' = sent (snd again)
                   /\ fst out = Ok (VoteFailed (rejected 403 body))
          | Thrown _ =>
              sent w' = sent (snd again) /\ fst out = Ok (VoteFailed (rejected 403 body))
          end.
Proof.
  intros out w' pollId token. split.
  { destruct (castExchangeVoteByLabel_spec poll choiceLabel w)
      as (_ & _ & _ & pre & first & post & H).
    exists pre, first, post. fold out in H. fold w' in H. fold pollId in H. fold token in H.
    destruct H as (H1 & H2 & H3 & _ & H5 & H6 & H7 & _ & H9 & H10 & _ & H12 & H13 & _).
    repeat (split; [assumption|]). exact H13. }
  intros opts idx stamp w0 body Hloc Hid Hopts Hidx _ Htok Hstamp Hts payload v1 H403
    cleared again.
  split; [reflexivity|].
  split.
  { pose proof (getOrFetchOneStampOrNull_spec cleared) as H. unfold ensures in H.
    fold again in H. destruct H as (_ & _ & _ & _ & _ & added & Hs & Hm & _).
    destruct (minted_counts _ _ _ Hm) as (Hv & Hmi & _).
    exists added. auto. }
  assert (Hrun : out
            = let r := voteRetryOnce pollId choiceLabel payload
                         (mkWorld (localStorage w0) (net w0) (sent w0 ++ [v1]) (host w0)
                                  (tick w0)) in
              (match fst r with
               | Ok true => Ok VoteOk
               | Ok false => Ok (VoteFailed (rejected 403 body))
               | Thrown e => Thrown e
               end, snd r)).
  { subst out. rewrite (castExchangeVoteByLabel_run poll choiceLabel opts w Hloc Hid Hopts).
    rewrite Hidx. cbv zeta. fold pollId. fold token. rewrite Htok.
    unfold bind at 1. rewrite Hstamp, Hts. cbn [negb andb].
    unfold bind at 1, fetch. fold payload. fold v1. rewrite H403. cbn [fst snd].
    change (status_ok 403) with false. cbn [negb]. change (403 =? 403) with true.
    unfold bind at 1.
    destruct (voteRetryOnce pollId choiceLabel payload _) as [[[|]|e] w3]; reflexivity. }
  pose proof (voteRetryOnce_run pollId choiceLabel payload
                (mkWorld (localStorage w0) (net w0) (sent w0 ++ [v1]) (host w0) (tick w0)))
    as Hretry.
  cbv zeta in Hretry.
  change (withStorage (clearExchangeStampPool _) _) with cleared in Hretry.
  fold again in Hretry.
  subst w'. rewrite Hrun. cbv zeta. rewrite Hretry. clear Hrun Hretry.
  destruct (fst again) as [stamp2|e] eqn:Hagain; [|split; reflexivity].
  destruct (truthy stamp2) eqn:Ht2; [|split; reflexivity].
  cbv zeta.
  set (v2 := voteRequest pollId _ payload).
  split; [|split].
  - destruct (net (snd again) (sent (snd again)) v2) as [|status2 body2]; [reflexivity|].
    destruct (status_ok status2); [|reflexivity].
    rewrite recordVoteReply_run. reflexivity.
  - apply (getOrFetchOneStampOrNull_fresh cleared stamp2); [reflexivity | exact Hagain | exact Ht2].
  - destruct (net (snd again) (sent (snd again)) v2) as [|status2 body2]; [reflexivity|].
    destruct (status_ok status2); reflexivity.
Qed.

Lemma castExchangeVoteByLabel_retries_at_most_once_witness :
  let out := castExchangeVoteByLabel (Some demoPoll) "No" staleStampWorld in
  fst out = Ok VoteOk
  /\ map (headerOf "X-Stamp") (sent (snd out)) = [Some "s_a"; None; Some "s_b"]
  /\ votesIn (sent (snd out)) = 2%nat
  /\ (exists pre first post,
        sent (snd out) = sent staleStampWorld ++ pre ++ first ++ post
        /\ (votesIn post <= 1)%nat)
  /\ exists before,
       sent (snd out)
       = before ++ [voteRequest (Some (JStr "p1"))
                      [("Content-Type", "application/json"); ("X-Stamp", "s_b")]
                      (JObj {[ "option_id" := JStr "2" ]})].
Proof.
  intros out.
  split; [vm_compute; reflexivity|]. split; [vm_compute; reflexivity|].
  split; [vm_compute; reflexivity|].
  destruct (castExchangeVoteByLabel_retries_at_most_once staleStampWorld (Some demoPoll) "No")
    as ((pre & first & post & Hs & _ & _ & _ & _ & _ & Hv & _) & Hretry).
  split; [exists pre, first, post; split; [exact Hs | exact Hv]|].
  specialize (Hretry [JObj {[ "id" := JStr "1"; "label" := JStr "Yes" ]};
                      JObj {[ "id" := JStr "2"; "label" := JStr "No" ]}]
                     1%nat (Some (JStr "s_a"))
                     (snd (getOrFetchOneStampOrNull staleStampWorld))
                     (Text "stamp already used")).
  cbv zeta in Hretry.
  destruct Hretry as (_ & _ & Hretry).
  - vm_compute. reflexivity.
  - vm_compute. reflexivity.
  - vm_compute. reflexivity.
  - vm_compute. reflexivity.
  - vm_compute. reflexivity.
  - vm_compute. reflexivity.
  - apply injective_projections; [vm_compute; reflexivity | reflexivity].
  - reflexivity.
  - vm_compute. reflexivity.
  - match type of Hretry with
    | match fst ?g with _ => _ end =>
        assert (Hagain : fst g = Ok (Some (JStr "s_b"))) by (vm_compute; reflexivity);
        rewrite Hagain in Hretry
    end.
    cbn [truthy truthyJ] in Hretry. cbv zeta in Hretry.
    destruct Hretry as (Hsent & _).
    eexists. exact Hsent.
Defined.

(** A first vote rejected with 403 and not retried: the mint that follows
    the rejection yields no stamp. *)
Lemma castExchangeVoteByLabel_no_retry :
  let out := castExchangeVoteByLabel (Some demoPoll) "No" barrenWorld in
  truthy (getToken (exchangePollIdOf (Some demoPoll)) (localStorage barrenWorld)) = false
  /\ fst out = Ok (VoteFailed (rejected 403 (Text "stamp already used")))
  /\ map (headerOf "X-Stamp") (sent (snd out)) = [Some "s_a"; None]
  /\ votesIn (sent (snd out)) = 1%nat /\ mintsIn (sent (snd out)) = 1%nat.
Proof. repeat split; vm_compute; reflexivity. Qed.

(** ** A rejected voter token *)

(** With a stored token, a vote that does not succeed leaves the store as
    it was: the token stays. *)
Lemma castExchangeVoteByLabel_token_kept (w : World) (poll : value) (choiceLabel : string) :
  truthy (getToken (exchangePollIdOf poll) (localStorage w)) = true ->
  fst (castExchangeVoteByLabel poll choiceLabel w) <> Ok VoteOk ->
  localStorage (snd (castExchangeVoteByLabel poll choiceLabel w)) = localStorage w.
Proof.
  intros Ht Hr.
  destruct (castExchangeVoteByLabel_spec poll choiceLabel w)
    as (_ & _ & _ & pre & first & post & H).
  apply H; assumption.
Qed.

(** C8 (the code at the failing input): the Exchange answers a revote with
    "invalid X-Voter-Token"; [castExchangeVoteByLabel] fails, the token is
    still stored, and the next vote sends the same token again instead of
    a stamp. *)
Theorem castExchangeVoteByLabel_keeps_invalid_token :
  let once := castExchangeVoteByLabel (Some demoPoll) "No" tokenWorld in
  let again := castExchangeVoteByLabel (Some demoPoll) "No" (snd once) in
  fst once
  = Ok (VoteFailed (rejected 403
          (Json (JObj {[ "ok" := JBool false; "error" := JStr "invalid X-Voter-Token" ]}))))
  /\ getToken (Some (JStr "p1")) (localStorage (snd once)) = Some (JStr "vt_1")
  /\ localStorage (snd again) = localStorage tokenWorld
  /\ map (headerOf "X-Voter-Token") (sent (snd again)) = [Some "vt_1"; Some "vt_1"]
  /\ map (headerOf "X-Stamp") (sent (snd again)) = [None; None].
Proof. repeat split; vm_compute; reflexivity. Qed.

(** ** Picking a stamp *)

(** C1 (the code at the failing input): with the pool [["s_a"]], the
    running [pickOneStampOrNull] returns ["s_a"], leaves it in the stored
    pool, and returns it again at the next pick. *)
Theorem pickOneStampOrNull_returns_kept_stamp :
  let once := pickOneStampOrNull demoWorld in
  let again := pickOneStampOrNull (snd once) in
  fst once = Ok (Some (JStr "s_a"))
  /\ getExchangeStampPool (localStorage (snd once)) = [JStr "s_a"]
  /\ fst again = Ok (Some (JStr "s_a")).
Proof. repeat split; vm_compute; reflexivity. Qed.

(** The first declaration, which the second one replaces, does remove the
    stamp it returns. *)
Lemma pickOneStampOrNull_first_removes (s : Storage) (x : json) (pool : list json) :
  getExchangeStampPool s = x :: pool -> NoDup (x :: pool) ->
  fst (pickOneStampOrNull_first s) = Some x
  /\ getExchangeStampPool (snd (pickOneStampOrNull_first s)) = pool
  /\ x ∉ getExchangeStampPool (snd (pickOneStampOrNull_first s)).
Proof.
  intros Hp Hnd. unfold pickOneStampOrNull_first. rewrite Hp. cbn [fst snd].
  assert (Hpool : getExchangeStampPool (set_stamps (Some (Doc (JArr pool))) s) = pool).
  { unfold getExchangeStampPool at 1. cbn [set_stamps exchange_stamps].
    apply filter_all. intros y Hy. apply (pool_truthy s). rewrite Hp.
    apply elem_of_cons. auto. }
  rewrite Hpool. split; [reflexivity|]. split; [reflexivity|].
  apply NoDup_cons in Hnd. apply Hnd.
Qed.

(** ** Asserting a draft: what a failure keeps *)

Lemma newestMatch_found (h : Host) (localKey : string) (reply : Reply) (found : json) :
  newestMatch h localKey reply found ->
  exists status doc,
    reply = Http status (Json doc) /\ status_ok status = true
    /\ found ∈ pollsOf doc /\ createdLocalIdOf found = localKey.
Proof.
  intros (status & doc & rest & Hr & Hok & Hsort).
  exists status, doc. split; [exact Hr|]. split; [exact Hok|].
  apply sortBy_head_elem in Hsort. apply match_key in Hsort. tauto.
Qed.

(** C5: for a draft whose key is not empty (every draft the creation form
    makes), [assertPollToExchange] (i) with no stored identity ends with
    the missing-identity message and leaves the whole world as it was, so
    that no request is sent; (ii) whenever it does not end by opening a
    remote poll (it throws, or ends with any of the failure messages) the
    stored drafts and their vote states are what they were; (iii) when the
    drafts or their votes have changed, it has ended by opening a remote
    poll which either the index listed under the draft's key or a creation
    request answered with success and an identifier has made. *)
Theorem assertPollToExchange_failure_keeps_draft (localPoll : value) (w : World) :
  draftKey localPoll <> "" ->
  let out := assertPollToExchange localPoll w in
  (isLocalPoll localPoll = true ->
   getExchangeHmacCredsOrNull (localStorage w) = None ->
   fst out = Ok MissingIdentity /\ snd out = w)
  /\ ((forall merged id, fst out <> Ok (OpenedRemote merged id)) ->
      draftsOf (snd out) = draftsOf w)
  /\ (draftsOf (snd out) <> draftsOf w ->
      exists merged id,
        fst out = Ok (OpenedRemote merged id)
        /\ if merged
           then exists status doc found,
                  answered (snd out) pollsRequest (Http status (Json doc))
                  /\ status_ok status = true
                  /\ found ∈ pollsOf doc
                  /\ createdLocalIdOf found = draftKey localPoll
                  /\ id = getProp found "id"
           else created (snd out) id).
Proof.
  intros Hk out. pose proof (assertPollToExchange_spec localPoll w Hk) as H.
  unfold ensures in H. fold out in H.
  destruct (fst out) as [o|e]; [destruct o as [| | status | | | merged id]|];
    cbn [assertEnds] in H.
  - (* already asserted *)
    destruct H as (Hloc & ->).
    split; [congruence|]. split; [reflexivity|]. intros Hd. contradiction.
  - (* missing identity *)
    destruct H as (_ & _ & ->).
    split; [auto|]. split; [reflexivity|]. intros Hd. contradiction.
  - destruct H as (_ & Hc & _ & _ & _ & pre & post & _ & _ & _ & _ & Hd).
    split; [congruence|]. split; [auto|]. intros Hd'. contradiction.
  - destruct H as (_ & Hc & _ & _ & _ & pre & post & _ & _ & _ & _ & Hd).
    split; [congruence|]. split; [auto|]. intros Hd'. contradiction.
  - destruct H as (_ & Hc & _ & _ & _ & pre & post & _ & _ & _ & _ & Hd).
    split; [congruence|]. split; [auto|]. intros Hd'. contradiction.
  - destruct H as (_ & Hc & Hn & _ & _ & pre & post & Hs & _ & _ & Hr).
    split; [congruence|].
    split; [intros Hnot; exfalso; exact (Hnot merged id eq_refl)|].
    intros _. exists merged, id. split; [reflexivity|]. cbv zeta in Hr.
    destruct merged.
    + destruct Hr as (_ & found & Hfound & ->).
      apply newestMatch_found in Hfound as (status & doc & Hreply & Hok & Hin & Hkey).
      exists status, doc, found. split; [|auto].
      exists (sent w ++ pre), post. rewrite Hs, Hn, <- app_assoc. auto.
    + apply Hr.
  - destruct H as (_ & Hc & _ & _ & _ & pre & post & _ & _ & _ & _ & Hd).
    split; [congruence|]. split; [auto|]. intros Hd'. contradiction.
Qed.

Lemma assertPollToExchange_failure_keeps_draft_witness :
  draftKey (Some demoDraft) <> ""
  /\ fst (assertPollToExchange (Some demoDraft) anonymousWorld) = Ok MissingIdentity
  /\ snd (assertPollToExchange (Some demoDraft) anonymousWorld) = anonymousWorld
  /\ draftsOf (snd (assertPollToExchange (Some demoDraft) anonymousWorld))
     = ([demoDraft], ∅).
Proof.
  assert (Hk : draftKey (Some demoDraft) <> "") by (vm_compute; discriminate).
  split; [exact Hk|].
  destruct (assertPollToExchange_failure_keeps_draft (Some demoDraft) anonymousWorld Hk)
    as (H1 & H2 & _).
  destruct (H1 eq_refl eq_refl) as (Hout & Hw).
  split; [exact Hout|]. split; [exact Hw|].
  rewrite H2; [reflexivity|]. rewrite Hout. discriminate.
Defined.

(** ** Asserting a draft twice *)

Lemma compare_anti (a b : string) :
  String.compare a b = Gt -> String.compare b a <> Gt.
Proof.
  rewrite (String.compare_antisym a b). destruct (String.compare b a); discriminate.
Qed.

Lemma compare_trans (a b c : string) :
  String.compare a b <> Gt -> String.compare b c <> Gt -> String.compare a c <> Gt.
Proof.
  intros Hab Hbc Hac.
  apply OrderedTypeEx.String_as_OT.compare_helper_gt in Hac.
  destruct (String.compare a b) eqn:Eab; [| |congruence];
    destruct (String.compare b c) eqn:Ebc; try congruence.
  - apply String.compare_eq_iff in Eab, Ebc. subst.
    exact (OrderedTypeEx.String_as_OT.lt_not_eq _ _ Hac eq_refl).
  - apply String.compare_eq_iff in Eab. subst.
    apply OrderedTypeEx.String_as_OT.cmp_lt in Ebc.
    exact (OrderedTypeEx.String_as_OT.lt_not_eq _ _
             (OrderedTypeEx.String_as_OT.lt_trans _ _ _ Hac Ebc) eq_refl).
  - apply String.compare_eq_iff in Ebc. subst.
    apply OrderedTypeEx.String_as_OT.cmp_lt in Eab.
    exact (OrderedTypeEx.String_as_OT.lt_not_eq _ _
             (OrderedTypeEx.String_as_OT.lt_trans _ _ _ Hac Eab) eq_refl).
  - apply OrderedTypeEx.String_as_OT.cmp_lt in Eab, Ebc.
    exact (OrderedTypeEx.String_as_OT.lt_not_eq _ _
             (OrderedTypeEx.String_as_OT.lt_trans _ _ _ Hac
                (OrderedTypeEx.String_as_OT.lt_trans _ _ _ Eab Ebc)) eq_refl).
Qed.

Lemma createsIn_cons (rq : Request) (l : list Request) :
  createsIn (rq :: l) = 0%nat -> isCreateb rq = false /\ createsIn l = 0%nat.
Proof.
  unfold createsIn, countIf. cbn [List.filter].
  destruct (isCreateb rq); [discriminate | auto].
Qed.

(** The honest Exchange lists the same polls as long as no poll is
    created. *)
Lemma honestPolls_app (history more : list Request) :
  createsIn more = 0%nat -> honestPolls (history ++ more) = honestPolls history.
Proof.
  unfold honestPolls. rewrite fold_left_app.
  generalize (fold_left (fun polls rq =>
                           if isCreateb rq
                           then polls ++ [pollOfCreate (S (length polls)) rq]
                           else polls) history []).
  induction more as [|rq more IH]; intros polls Hc; [reflexivity|].
  apply createsIn_cons in Hc as (Hrq & Hc). cbn [fold_left]. rewrite Hrq.
  apply IH, Hc.
Qed.

Lemma honestExchange_index (history : list Request) :
  honestExchange history pollsRequest
  = Http 200 (Json (JObj {[ "polls" := JArr (honestPolls history) ]})).
Proof. reflexivity. Qed.

Lemma createdAtOf_text (p : json) (t : string) :
  getProp p "created_at" = Some (JStr t) -> createdAtOf p = t.
Proof.
  intros H. unfold createdAtOf.
  replace (optProp (Some p) "created_at") with (Some (JStr t))
    by (destruct p; try discriminate H; symmetry; exact H).
  unfold js_or. cbn [truthy truthyJ].
  destruct t; reflexivity.
Qed.

Lemma assertPollToExchange_frame (localPoll : value) (w : World) :
  draftKey localPoll <> "" ->
  net (snd (assertPollToExchange localPoll w)) = net w
  /\ host (snd (assertPollToExchange localPoll w)) = host w.
Proof.
  intros Hk. pose proof (assertPollToExchange_spec localPoll w Hk) as H.
  apply assertEnds_frame in H. tauto.
Qed.

(** C6 (as amended): let a local draft with a key that is not empty be
    asserted on a device that holds an identity, and let the index request
    of the Exchange, for as long as no poll is created, be answered with a
    success status and a document whose [polls] array lists at least one
    poll whose [meta.created_local_id] is the draft's key (as it is after
    a first successful assert on an Exchange that lists its polls so).
    With a [localeCompare] that is an order, [assertPollToExchange] ends by
    opening a poll of the index that carries the draft's key and sends no
    creation request; no poll of the index with that key has a later
    [String(created_at || "")], so that among the listed polls of the key
    whose [created_at] is a text the opened one has the latest. When the
    index request fails, is refused, or is answered with the bare array
    of the polls, the function goes on to the creation request instead:
    a second assert then creates a second poll. *)
Theorem assertPollToExchange_merges (localPoll : value) (w : World) (status : Z)
    (doc : json) :
  isLocalPoll localPoll = true ->
  draftKey localPoll <> "" ->
  getExchangeHmacCredsOrNull (localStorage w) <> None ->
  (forall a b, localeCompare (host w) a b = Gt -> localeCompare (host w) b a <> Gt) ->
  (forall a b c, localeCompare (host w) a b <> Gt -> localeCompare (host w) b c <> Gt ->
                 localeCompare (host w) a c <> Gt) ->
  status_ok status = true ->
  (forall more, createsIn more = 0%nat ->
                net w (sent w ++ more) pollsRequest = Http status (Json doc)) ->
  matchesOf (draftKey localPoll) (pollsOf doc) <> [] ->
  let out := assertPollToExchange localPoll w in
  exists found,
    fst out = Ok (OpenedRemote true (getProp found "id"))
    /\ found ∈ pollsOf doc
    /\ createdLocalIdOf found = draftKey localPoll
    /\ (forall p, p ∈ pollsOf doc -> createdLocalIdOf p = draftKey localPoll ->
          localeCompare (host w) (createdAtOf p) (createdAtOf found) <> Gt)
    /\ (forall p t t', p ∈ pollsOf doc -> createdLocalIdOf p = draftKey localPoll ->
          getProp p "created_at" = Some (JStr t) ->
          getProp found "created_at" = Some (JStr t') ->
          localeCompare (host w) t t' <> Gt)
    /\ exists added, sent (snd out) = sent w ++ added /\ createsIn added = 0%nat.
Proof.
  intros Hloc Hk Hcreds Hanti Htrans Hok Hindex Hsome out.
  pose proof (assertPollToExchange_spec localPoll w Hk) as H.
  unfold ensures in H. fold out in H.
  assert (Hran : assertRan localPoll w (fst out) (snd out)).
  { destruct (fst out) as [[| | | | |]|]; cbn [assertEnds] in H; try exact H.
    - destruct H as (H & _). congruence.
    - destruct H as (_ & H & _). congruence. }
  clear H. destruct Hran as (_ & _ & _ & _ & _ & pre & post & Hs & Hpre & Hpost & Hr).
  cbv zeta in Hr. rewrite (Hindex pre Hpre) in Hr.
  assert (Hno : ~ noMatch (draftKey localPoll) (Http status (Json doc))).
  { intros Hno. exact (Hsome (Hno status doc eq_refl Hok)). }
  destruct (fst out) as [[| | | | |[|] id]|]; try (exfalso; apply Hno, Hr).
  destruct Hr as (Hcreate & found & (status' & doc' & rest & Hreply & _ & Hsort) & ->).
  assert (doc' = doc) as -> by congruence.
  exists found. split; [reflexivity|].
  destruct (sortBy_head (newestFirst (host w))) with (l := matchesOf (draftKey localPoll) (pollsOf doc))
    (found := found) (rest := rest) as (Hin & Hnewest).
  { intros a b. unfold newestFirst. apply Hanti. }
  { intros a b c. unfold newestFirst. intros Hab Hbc. exact (Htrans _ _ _ Hbc Hab). }
  { exact Hsort. }
  apply match_key in Hin. destruct Hin as (Hkey & Hin).
  split; [exact Hin|]. split; [exact Hkey|].
  split.
  { intros p Hp Hpk. apply (Hnewest p). apply match_key. auto. }
  split.
  { intros p t t' Hp Hpk Ht Ht'.
    rewrite <- (createdAtOf_text p t Ht), <- (createdAtOf_text found t' Ht').
    apply (Hnewest p). apply match_key. auto. }
  exists (pre ++ pollsRequest :: post). split; [exact Hs|].
  unfold createsIn in *. rewrite countIf_app. change (pollsRequest :: post) with ([pollsRequest] ++ post).
  rewrite countIf_app. rewrite Hpre, Hcreate. reflexivity.
Qed.

Lemma assertPollToExchange_merges_witness :
  fst (assertPollToExchange (Some demoDraft) draftWorld)
  = Ok (OpenedRemote false (Some (JStr "p1")))
  /\ fst (assertPollToExchange (Some demoDraft) draftAsserted)
     = Ok (OpenedRemote true (Some (JStr "p1")))
  /\ createsIn (sent (snd (assertPollToExchange (Some demoDraft) draftAsserted))) = 1%nat
  /\ fst (assertPollToExchange (Some demoDraft) duplicateWorld)
     = Ok (OpenedRemote true (Some (JStr "p_new")))
  /\ (exists found,
        fst (assertPollToExchange (Some demoDraft) duplicateWorld)
        = Ok (OpenedRemote true (getProp found "id"))
        /\ createdLocalIdOf found = "local_1"
        /\ String.compare "2024-01-01T10:00:00Z" (createdAtOf found) <> Gt
        /\ String.compare "2024-03-01T10:00:00Z" (createdAtOf found) <> Gt)
  /\ exists found,
       fst (assertPollToExchange (Some demoDraft) draftAsserted)
       = Ok (OpenedRemote true (getProp found "id"))
       /\ found ∈ honestPolls (sent draftAsserted)
       /\ createdLocalIdOf found = "local_1".
Proof.
  split; [vm_compute; reflexivity|]. split; [vm_compute; reflexivity|].
  split; [vm_compute; reflexivity|]. split; [vm_compute; reflexivity|].
  assert (Hk : draftKey (Some demoDraft) <> "") by (vm_compute; discriminate).
  split.
  { destruct (assertPollToExchange_merges (Some demoDraft) duplicateWorld 200 duplicateIndex)
      as (found & Hout & _ & Hkey & Hnewest & _).
    - vm_compute. reflexivity.
    - exact Hk.
    - vm_compute. discriminate.
    - exact compare_anti.
    - exact compare_trans.
    - reflexivity.
    - intros more _. reflexivity.
    - vm_compute. discriminate.
    - exists found. split; [exact Hout|]. split; [exact Hkey|]. split.
      + apply (Hnewest (listedPoll "p_old" "local_1" "2024-01-01T10:00:00Z"));
          [vm_compute; repeat constructor | reflexivity].
      + apply (Hnewest (listedPoll "p_new" "local_1" "2024-03-01T10:00:00Z"));
          [vm_compute; repeat constructor | reflexivity]. }
  destruct (assertPollToExchange_frame (Some demoDraft) draftWorld Hk) as (Hn & Hh).
  fold draftAsserted in Hn, Hh.
  destruct (assertPollToExchange_merges (Some demoDraft) draftAsserted 200
              (JObj {[ "polls" := JArr (honestPolls (sent draftAsserted)) ]}))
    as (found & Hout & Hin & Hkey & _).
  - vm_compute. reflexivity.
  - exact Hk.
  - vm_compute. discriminate.
  - rewrite Hh. exact compare_anti.
  - rewrite Hh. exact compare_trans.
  - reflexivity.
  - intros more Hm. rewrite Hn. change (net draftWorld) with honestExchange.
    rewrite honestExchange_index, (honestPolls_app _ _ Hm). reflexivity.
  - vm_compute. discriminate.
  - exists found. split; [exact Hout|]. split; [exact Hin | exact Hkey].
Defined.

(** When the Exchange lists its polls as a bare array, as an index may,
    the merge check finds no match: a second assert of the draft, after a
    first that succeeded, sends a second creation request, and the
    Exchange then holds two polls of the same [created_local_id]. *)
Lemma assertPollToExchange_bare_index_creates_twice :
  let first := assertPollToExchange (Some demoDraft) bareIndexWorld in
  let second := assertPollToExchange (Some demoDraft) (snd first) in
  fst first = Ok (OpenedRemote false (Some (JStr "p1")))
  /\ net (snd first) (sent (snd first)) pollsRequest
     = Http 200 (Json (JArr (honestPolls (sent (snd first)))))
  /\ map createdLocalIdOf (honestPolls (sent (snd first))) = ["local_1"]
  /\ fst second = Ok (OpenedRemote false (Some (JStr "p2")))
  /\ createsIn (sent (snd second)) = 2%nat
  /\ map createdLocalIdOf (honestPolls (sent (snd second))) = ["local_1"; "local_1"].
Proof. vm_compute. repeat split; reflexivity. Qed.

(** ** White space *)

Lemma rev_string_involutive (s : string) : rev_string (rev_string s) = s.
Proof.
  unfold rev_string. rewrite list_ascii_of_string_of_list_ascii, rev_involutive.
  apply string_of_list_ascii_of_string.
Qed.

Lemma chars_rev_string (s : string) : chars (rev_string s) = rev (chars s).
Proof. unfold chars, rev_string. apply list_ascii_of_string_of_list_ascii. Qed.

Lemma chars_app (a b : string) : chars (a +:+ b) = chars a ++ chars b.
Proof.
  unfold chars. induction a as [|c a IH]; [reflexivity|].
  change (String c a +:+ b) with (String c (a +:+ b)).
  cbn [list_ascii_of_string app]. f_equal. exact IH.
Qed.

Lemma chars_inj (a b : string) : chars a = chars b -> a = b.
Proof.
  unfold chars. intros H.
  rewrite <- (string_of_list_ascii_of_string a), <- (string_of_list_ascii_of_string b), H.
  reflexivity.
Qed.

Lemma rev_string_app (a b : string) :
  rev_string (a +:+ b) = rev_string b +:+ rev_string a.
Proof.
  apply chars_inj. rewrite chars_app, !chars_rev_string, chars_app, rev_app_distr.
  reflexivity.
Qed.

Section StripFacts.

Variable one : ascii -> bool.

Variable two : ascii -> ascii -> bool.

Variable three : ascii -> ascii -> ascii -> bool.

Lemma strip_lead (s : string) :
  strip one two three s
  = match lead one two three s with
    | Some r => strip one two three r
    | None => s
    end.
Proof.
  destruct s as [|c1 r1]; [reflexivity|]. cbn [strip lead].
  destruct (one c1); [reflexivity|]. destruct r1 as [|c2 r2]; [reflexivity|].
  destruct (two c1 c2); [reflexivity|]. destruct r2 as [|c3 r3]; [reflexivity|].
  destruct (three c1 c2 c3); reflexivity.
Qed.

(** What [lead] drops is one to three bytes in front. *)
Lemma lead_cut (s r : string) :
  lead one two three s = Some r ->
  exists p, s = p +:+ r /\ (String.length r < String.length s)%nat.
Proof.
  destruct s as [|c1 r1]; [discriminate|]. cbn [lead].
  destruct (one c1).
  { intros [= <-]. exists (String c1 ""). split; [reflexivity | simpl; lia]. }
  destruct r1 as [|c2 r2]; [discriminate|]. destruct (two c1 c2).
  { intros [= <-]. exists (String c1 (String c2 "")). split; [reflexivity | simpl; lia]. }
  destruct r2 as [|c3 r3]; [discriminate|]. destruct (three c1 c2 c3); [|discriminate].
  intros [= <-]. exists (String c1 (String c2 (String c3 ""))).
  split; [reflexivity | simpl; lia].
Qed.

Lemma strip_spec (s : string) :
  lead one two three (strip one two three s) = None
  /\ exists p, s = p +:+ strip one two three s.
Proof.
  remember (String.length s) as n eqn:Hn.
  revert s Hn. induction n as [n IH] using lt_wf_ind. intros s Hn.
  rewrite strip_lead. destruct (lead one two three s) as [r|] eqn:E.
  - destruct (lead_cut s r E) as (p & Hs & Hlen).
    destruct (IH (String.length r) ltac:(lia) r eq_refl) as (H1 & q & H2).
    split; [exact H1|]. exists (p +:+ q). rewrite Hs at 1. rewrite H2 at 1.
    apply chars_inj. rewrite !chars_app. apply app_assoc.
  - split; [exact E|]. exists "". reflexivity.
Qed.

Lemma strip_keeps (s : string) :
  lead one two three s = None -> strip one two three s = s.
Proof. intros H. rewrite strip_lead, H. reflexivity. Qed.

Lemma strip_idempotent (s : string) :
  strip one two three (strip one two three s) = strip one two three s.
Proof. apply strip_keeps, strip_spec. Qed.

(** A text that begins with no code point of the class has no prefix that
    does. *)
Lemma lead_prefix (p q : string) :
  lead one two three (p +:+ q) = None -> lead one two three p = None.
Proof.
  destruct p as [|c1 p1]; [reflexivity|].
  change (String c1 p1 +:+ q) with (String c1 (p1 +:+ q)). cbn [lead].
  destruct (one c1); [discriminate|].
  destruct p1 as [|c2 p2]; [reflexivity|].
  change (String c2 p2 +:+ q) with (String c2 (p2 +:+ q)). cbn [lead].
  destruct (two c1 c2); [discriminate|].
  destruct p2 as [|c3 p3]; [reflexivity|].
  change (String c3 p3 +:+ q) with (String c3 (p3 +:+ q)). cbn [lead].
  destruct (three c1 c2 c3); [discriminate | reflexivity].
Qed.

End StripFacts.

(** Trimming a trimmed text changes nothing. *)
Lemma trim_idempotent (s : string) : trim (trim s) = trim s.
Proof.
  unfold trim. set (a := trim_start s).
  set (b := trim_start_rev (rev_string a)).
  assert (Hhead : trim_start (rev_string b) = rev_string b).
  { apply strip_keeps.
    destruct (strip_spec is_space1 (fun c1 c2 => is_space2 c2 c1)
                (fun c1 c2 c3 => is_space3 c3 c2 c1) (rev_string a)) as (_ & p & Hp).
    fold trim_start_rev in Hp. fold b in Hp.
    apply (lead_prefix _ _ _ (rev_string b) (rev_string p)).
    rewrite <- rev_string_app, <- Hp, rev_string_involutive.
    apply (strip_spec is_space1 is_space2 is_space3 s). }
  rewrite Hhead, rev_string_involutive. unfold b, trim_start_rev.
  rewrite strip_idempotent. reflexivity.
Qed.

(** A trimmed text has no white space in front or at the end. *)
Lemma trim_no_space (s : string) :
  spaceInFront (trim s) = false /\ spaceAtEnd (trim s) = false.
Proof.
  unfold spaceInFront, spaceAtEnd, trim. set (a := trim_start s).
  set (b := trim_start_rev (rev_string a)).
  destruct (strip_spec is_space1 (fun c1 c2 => is_space2 c2 c1)
              (fun c1 c2 c3 => is_space3 c3 c2 c1) (rev_string a)) as (Hend & p & Hp).
  fold trim_start_rev in Hp, Hend. fold b in Hp, Hend.
  split.
  - rewrite (lead_prefix _ _ _ (rev_string b) (rev_string p)); [reflexivity|].
    rewrite <- rev_string_app, <- Hp, rev_string_involutive.
    apply (strip_spec is_space1 is_space2 is_space3 s).
  - rewrite rev_string_involutive, Hend. reflexivity.
Qed.

(** White space in front is dropped whatever follows. *)
Lemma trim_space_in_front (ws t : string) :
  lead is_space1 is_space2 is_space3 ws = Some "" -> trim (ws +:+ t) = trim t.
Proof.
  intros H. unfold trim, trim_start.
  rewrite (strip_lead _ _ _ (ws +:+ t)).
  replace (lead is_space1 is_space2 is_space3 (ws +:+ t)) with (Some t); [reflexivity|].
  destruct ws as [|c1 r1]; [discriminate H|]. cbn [lead] in H.
  change (String c1 r1 +:+ t) with (String c1 (r1 +:+ t)). cbn [lead].
  destruct (is_space1 c1).
  { injection H as ->. reflexivity. }
  destruct r1 as [|c2 r2]; [discriminate H|].
  change (String c2 r2 +:+ t) with (String c2 (r2 +:+ t)). cbn [lead].
  destruct (is_space2 c1 c2).
  { injection H as ->. reflexivity. }
  destruct r2 as [|c3 r3]; [discriminate H|].
  change (String c3 r3 +:+ t) with (String c3 (r3 +:+ t)). cbn [lead].
  destruct (is_space3 c1 c2 c3); [|discriminate H].
  injection H as ->. reflexivity.
Qed.

(** A text of ASCII characters that are no white space is its own trim. *)
Lemma trim_fixed (s : string) :
  Forall (fun c => is_space1 c = false /\ (nat_of_ascii c < 128)%nat) (chars s) ->
  trim s = s.
Proof.
  intros H. unfold trim, trim_start, trim_start_rev.
  assert (Hs : strip is_space1 is_space2 is_space3 s = s).
  { apply strip_keeps. destruct s as [|c r]; [reflexivity|].
    inversion H as [|? ? [Hc Hn] _]; subst. cbn [lead]. rewrite Hc.
    assert (H2 : forall c2, is_space2 c c2 = false).
    { intros c2. unfold is_space2.
      destruct (Nat.eqb_spec (nat_of_ascii c) 194); [lia | reflexivity]. }
    assert (H3 : forall c2 c3, is_space3 c c2 c3 = false).
    { intros c2 c3. unfold is_space3.
      destruct (Nat.eqb_spec (nat_of_ascii c) 225); [lia|].
      destruct (Nat.eqb_spec (nat_of_ascii c) 226); [lia|].
      destruct (Nat.eqb_spec (nat_of_ascii c) 227); [lia|].
      destruct (Nat.eqb_spec (nat_of_ascii c) 239); [lia | reflexivity]. }
    destruct r as [|c2 [|c3 r]]; rewrite ?H2, ?H3; reflexivity. }
  rewrite Hs. rewrite strip_keeps; [apply rev_string_involutive|].
  assert (Hr : Forall (fun c => is_space1 c = false /\ (nat_of_ascii c < 128)%nat)
                 (chars (rev_string s))).
  { rewrite chars_rev_string. apply List.Forall_rev. exact H. }
  destruct (rev_string s) as [|c r]; [reflexivity|].
  inversion Hr as [|? ? [Hc Hn] _]; subst. cbn [lead]. rewrite Hc.
  assert (H2 : forall c2, is_space2 c2 c = false).
  { intros c2. unfold is_space2.
    destruct (Nat.eqb_spec (nat_of_ascii c) 160); [lia | apply andb_false_r]. }
  assert (H3 : forall c2 c3, is_space3 c3 c2 c = false).
  { intros c2 c3. unfold is_space3.
    repeat match goal with
           | |- context [(nat_of_ascii c =? ?k)%nat] =>
               destruct (Nat.eqb_spec (nat_of_ascii c) k); [lia|]
           | |- context [(?k <=? nat_of_ascii c)%nat] =>
               destruct (Nat.leb_spec k (nat_of_ascii c)); [lia|]
           end.
    rewrite !andb_false_r. reflexivity. }
  destruct r as [|c2 [|c3 r]]; rewrite ?H2, ?H3; reflexivity.
Qed.

(** ** Hex keys *)

Lemma isHexDigit_ascii (c : ascii) : isHexDigit c -> (nat_of_ascii c < 128)%nat.
Proof.
  unfold isHexDigit, hexVal. set (n := Z.of_nat (nat_of_ascii c)).
  destruct ((48 <=? n) && (n <=? 57)) eqn:E1.
  { intros _. apply andb_prop in E1 as [? ?]. lia. }
  destruct ((97 <=? n) && (n <=? 102)) eqn:E2.
  { intros _. apply andb_prop in E2 as [? ?]. lia. }
  destruct ((65 <=? n) && (n <=? 70)) eqn:E3; [|intros H; contradiction H; reflexivity].
  intros _. apply andb_prop in E3 as [? ?]. lia.
Qed.

Lemma hexVal_range (c : ascii) (h : Z) : hexVal c = Some h -> 0 <= h < 16.
Proof.
  unfold hexVal. set (n := Z.of_nat (nat_of_ascii c)).
  destruct ((48 <=? n) && (n <=? 57)) eqn:E1.
  { intros [= <-]. apply andb_prop in E1 as [? ?]. lia. }
  destruct ((97 <=? n) && (n <=? 102)) eqn:E2.
  { intros [= <-]. apply andb_prop in E2 as [? ?]. lia. }
  destruct ((65 <=? n) && (n <=? 70)) eqn:E3; [|discriminate].
  intros [= <-]. apply andb_prop in E3 as [? ?]. lia.
Qed.

Lemma hexDigit_spec (n : Z) :
  0 <= n < 16 -> hexVal (hexDigit n) = Some n /\ is_space1 (hexDigit n) = false.
Proof.
  intros H. rewrite <- (Z2Nat.id n) by lia.
  assert (Hk : (Z.to_nat n < 16)%nat) by lia.
  remember (Z.to_nat n) as k eqn:Ek. clear Ek H.
  do 16 (destruct k as [|k]; [split; reflexivity|]). lia.
Qed.

Lemma bytesToHex_cons (b : Z) (r : list Z) :
  bytesToHex (b :: r)
  = String (hexDigit (b / 16 mod 16)) (String (hexDigit (b mod 16)) (bytesToHex r)).
Proof. reflexivity. Qed.

Lemma chars_bytesToHex (bytes : list Z) :
  Forall (fun c => is_space1 c = false /\ isHexDigit c) (chars (bytesToHex bytes)).
Proof.
  induction bytes as [|b r IH]; [constructor|].
  rewrite bytesToHex_cons. unfold chars in *. cbn [list_ascii_of_string].
  assert (H1 : 0 <= b / 16 mod 16 < 16) by (apply Z.mod_pos_bound; lia).
  assert (H2 : 0 <= b mod 16 < 16) by (apply Z.mod_pos_bound; lia).
  destruct (hexDigit_spec _ H1) as [V1 S1]. destruct (hexDigit_spec _ H2) as [V2 S2].
  unfold isHexDigit. repeat constructor; try assumption; congruence.
Qed.

Lemma hexPairs_bytesToHex (bytes : list Z) :
  Forall byte_ok bytes -> hexPairs (bytesToHex bytes) = Some bytes.
Proof.
  induction 1 as [|b r Hb _ IH]; [reflexivity|].
  rewrite bytesToHex_cons. cbn [hexPairs].
  assert (H1 : 0 <= b / 16 mod 16 < 16) by (apply Z.mod_pos_bound; lia).
  assert (H2 : 0 <= b mod 16 < 16) by (apply Z.mod_pos_bound; lia).
  destruct (hexDigit_spec _ H1) as [-> _]. destruct (hexDigit_spec _ H2) as [-> _].
  rewrite IH. f_equal. f_equal. unfold byte_ok in Hb.
  rewrite (Z.mod_small (b / 16) 16) by (split; [apply Z.div_pos; lia | apply Z.div_lt_upper_bound; lia]).
  rewrite (Z.div_mod b 16) at 3 by lia. lia.
Qed.

(** X1: writing bytes as hex and reading them back gives the bytes, except
    that the empty text is no key: [hexToBytes] answers [null] to it. *)
Theorem hexToBytes_bytesToHex (bytes : list Z) :
  Forall byte_ok bytes ->
  hexToBytes (bytesToHex bytes)
  = match bytes with [] => None | _ :: _ => Some bytes end.
Proof.
  intros Hb. unfold hexToBytes.
  rewrite trim_fixed.
  2: { eapply List.Forall_impl; [|apply chars_bytesToHex].
       intros c [Hc Hh]. split; [exact Hc | apply isHexDigit_ascii, Hh]. }
  destruct bytes as [|b r]; [reflexivity|].
  rewrite bytesToHex_cons at 1. cbn [String.eqb].
  apply hexPairs_bytesToHex, Hb.
Qed.

Lemma hexToBytes_bytesToHex_witness :
  hexToBytes (bytesToHex [0; 255; 16]) = Some [0; 255; 16].
Proof.
  apply (hexToBytes_bytesToHex [0; 255; 16]).
  repeat constructor; unfold byte_ok; lia.
Defined.

Lemma hexPairs_sound (s : string) (bytes : list Z) :
  hexPairs s = Some bytes ->
  String.length s = (2 * length bytes)%nat
  /\ Forall byte_ok bytes /\ Forall isHexDigit (chars s).
Proof.
  revert s. induction bytes as [|b r IH]; intros s.
  - destruct s as [|c1 [|c2 s]]; cbn [hexPairs].
    + intros _. repeat split; constructor.
    + discriminate.
    + destruct (hexVal c1), (hexVal c2), (hexPairs s); discriminate.
  - destruct s as [|c1 [|c2 s]]; cbn [hexPairs]; try discriminate.
    destruct (hexVal c1) as [h|] eqn:H1; [|discriminate].
    destruct (hexVal c2) as [l|] eqn:H2; [|discriminate].
    destruct (hexPairs s) as [bs|] eqn:Hs; [|discriminate].
    intros [= <- <-]. destruct (IH s Hs) as (Hlen & Hb & Hc).
    apply hexVal_range in H1 as R1. apply hexVal_range in H2 as R2.
    split; [cbn [String.length length]; lia|]. split.
    + constructor; [unfold byte_ok; lia | exact Hb].
    + unfold chars, isHexDigit in *. cbn [list_ascii_of_string].
      repeat constructor; try assumption; congruence.
Qed.

Lemma hexPairs_complete (k : nat) (s : string) :
  String.length s = (2 * k)%nat -> Forall isHexDigit (chars s) ->
  exists bytes, hexPairs s = Some bytes.
Proof.
  revert s. induction k as [|k IH]; intros s Hlen Hc.
  - destruct s; [exists []; reflexivity | discriminate].
  - destruct s as [|c1 [|c2 s]]; cbn [String.length] in Hlen; try lia.
    unfold chars in Hc. cbn [list_ascii_of_string] in Hc.
    inversion Hc as [|? ? Hc1 Hc']; subst. inversion Hc' as [|? ? Hc2 Hc3]; subst.
    destruct (IH s ltac:(lia) Hc3) as (bs & Hbs).
    unfold isHexDigit in Hc1, Hc2. cbn [hexPairs]. rewrite Hbs.
    destruct (hexVal c1); [|contradiction]. destruct (hexVal c2); [|contradiction].
    eauto.
Qed.

(** X2: [hexToBytes] accepts a text exactly when, once trimmed, it is not
    empty, has an even length and holds hex digits only; the bytes it then
    yields are in range and there is one for every two digits. *)
Theorem hexToBytes_accepts (hex : string) :
  ((exists bytes, hexToBytes hex = Some bytes)
   <-> trim hex <> ""
       /\ Nat.Even (String.length (trim hex))
       /\ Forall isHexDigit (chars (trim hex)))
  /\ forall bytes,
       hexToBytes hex = Some bytes ->
       bytes <> [] /\ Forall byte_ok bytes
       /\ String.length (trim hex) = (2 * length bytes)%nat.
Proof.
  unfold hexToBytes. cbv zeta.
  destruct (String.eqb (trim hex) "") eqn:E.
  - apply String.eqb_eq in E. split.
    + split; [intros (bytes & [=]) | intros (Hne & _); contradiction].
    + intros bytes [=].
  - apply String.eqb_neq in E. split.
    + split.
      * intros (bytes & H). apply hexPairs_sound in H as (Hlen & _ & Hc).
        split; [exact E|]. split; [exists (length bytes); exact Hlen | exact Hc].
      * intros (_ & (k & Hk) & Hc). exact (hexPairs_complete k _ Hk Hc).
    + intros bytes H. apply hexPairs_sound in H as H'. destruct H' as (Hlen & Hb & _).
      split; [|split; assumption].
      intros ->. destruct (trim hex); [contradiction | discriminate].
Qed.

Lemma hexToBytes_accepts_witness :
  trim (NBSP +:+ "00ff" +:+ BOM +:+ " ") = "00ff"
  /\ (exists bytes, hexToBytes (NBSP +:+ "00ff" +:+ BOM +:+ " ") = Some bytes)
  /\ ~ (exists bytes, hexToBytes ("00" +:+ NBSP +:+ "ff") = Some bytes).
Proof.
  split; [vm_compute; reflexivity|].
  destruct (hexToBytes_accepts (NBSP +:+ "00ff" +:+ BOM +:+ " ")) as (Hyes & _).
  destruct (hexToBytes_accepts ("00" +:+ NBSP +:+ "ff")) as (Hno & _).
  split.
  - apply Hyes. change (trim (NBSP +:+ "00ff" +:+ BOM +:+ " ")) with "00ff".
    split; [discriminate|]. split; [exists 2%nat; reflexivity|].
    repeat constructor; discriminate.
  - intros H. apply Hno in H as (_ & _ & H).
    change (trim ("00" +:+ NBSP +:+ "ff")) with ("00" +:+ NBSP +:+ "ff") in H.
    inversion H as [|? ? _ H1]; subst. inversion H1 as [|? ? _ H2]; subst.
    inversion H2 as [|? ? Hc _]; subst. apply Hc. reflexivity.
Defined.

(** ** Escaping text for HTML *)

Lemma escapeChar_cases (c : ascii) :
  (isMarkup c = false /\ escapeChar c = String c EmptyString)
  \/ (c = "&"%char /\ escapeChar c = "&amp;")
  \/ (c = "<"%char /\ escapeChar c = "&lt;")
  \/ (c = ">"%char /\ escapeChar c = "&gt;")
  \/ (c = dquote /\ escapeChar c = "&quot;")
  \/ (c = "'"%char /\ escapeChar c = "&#039;").
Proof.
  unfold escapeChar, isMarkup.
  destruct (Ascii.eqb c "&") eqn:E1; [apply Ascii.eqb_eq in E1; auto|].
  destruct (Ascii.eqb c "<") eqn:E2; [apply Ascii.eqb_eq in E2; auto 6|].
  destruct (Ascii.eqb c ">") eqn:E3; [apply Ascii.eqb_eq in E3; auto 6|].
  destruct (Ascii.eqb c dquote) eqn:E4; [apply Ascii.eqb_eq in E4; auto 8|].
  destruct (Ascii.eqb c "'") eqn:E5; [apply Ascii.eqb_eq in E5; auto 10|].
  auto.
Qed.

Lemma escapeHtml_cons (c : ascii) (r : string) :
  escapeHtml (String c r) = escapeChar c +:+ escapeHtml r.
Proof. reflexivity. Qed.

(** One escaped character in front of two texts: the character and the
    texts are the same. *)
Lemma escapeChar_app_inj (c d : ascii) (x y : string) :
  escapeChar c +:+ x = escapeChar d +:+ y -> c = d /\ x = y.
Proof.
  destruct (escapeChar_cases c) as [[Hc ->]|[[-> ->]|[[-> ->]|[[-> ->]|[[-> ->]|[-> ->]]]]]];
    destruct (escapeChar_cases d) as [[Hd ->]|[[-> ->]|[[-> ->]|[[-> ->]|[[-> ->]|[-> ->]]]]]];
    intros H; try (injection H as -> ->; auto; fail);
    try (injection H; intros; subst; auto; fail);
    try (injection H; intros; subst; discriminate);
    try discriminate H.
Qed.

Lemma escapeHtml_inj (a b : string) : escapeHtml a = escapeHtml b -> a = b.
Proof.
  revert b. induction a as [|c a IH]; intros [|d b]; rewrite ?escapeHtml_cons.
  - reflexivity.
  - cbn [escapeHtml]. intros H.
    destruct (escapeChar_cases d) as [[_ E]|[[_ E]|[[_ E]|[[_ E]|[[_ E]|[_ E]]]]]];
      rewrite E in H; discriminate H.
  - cbn [escapeHtml]. intros H.
    destruct (escapeChar_cases c) as [[_ E]|[[_ E]|[[_ E]|[[_ E]|[[_ E]|[_ E]]]]]];
      rewrite E in H; discriminate H.
  - intros H. apply escapeChar_app_inj in H as [-> H]. f_equal. apply IH, H.
Qed.

Lemma escapeChar_clean (c : ascii) :
  Forall (fun x => x <> "<"%char /\ x <> ">"%char /\ x <> dquote /\ x <> "'"%char)
         (chars (escapeChar c)).
Proof.
  destruct (escapeChar_cases c) as [[Hc ->]|[[_ ->]|[[_ ->]|[[_ ->]|[[_ ->]|[_ ->]]]]]];
    try (repeat constructor; discriminate).
  unfold isMarkup in Hc. repeat constructor; intros ->; discriminate Hc.
Qed.

(** X3: the text [escapeHtml] yields holds no angle bracket, double quote or
    apostrophe; a text without markup characters is left as it is; and two
    texts that escape to the same text are the same. *)
Theorem escapeHtml_safe (s : string) :
  Forall (fun x => x <> "<"%char /\ x <> ">"%char /\ x <> dquote /\ x <> "'"%char)
         (chars (escapeHtml s))
  /\ (Forall (fun c => isMarkup c = false) (chars s) -> escapeHtml s = s)
  /\ forall t, escapeHtml s = escapeHtml t -> s = t.
Proof.
  split; [|split].
  - induction s as [|c s IH]; [constructor|].
    rewrite escapeHtml_cons, chars_app. apply Forall_app. split; [apply escapeChar_clean | exact IH].
  - induction s as [|c s IH]; [reflexivity|]. unfold chars. cbn [list_ascii_of_string].
    intros H. inversion H as [|? ? Hc Hs]; subst. rewrite escapeHtml_cons, (IH Hs).
    destruct (escapeChar_cases c) as [[_ ->]|[[-> _]|[[-> _]|[[-> _]|[[-> _]|[-> _]]]]]];
      try discriminate Hc. reflexivity.
  - apply escapeHtml_inj.
Qed.

Lemma escapeHtml_safe_witness :
  escapeHtml "Tea & <b>cake</b>" = "Tea &amp; &lt;b&gt;cake&lt;/b&gt;"
  /\ escapeHtml "Yes" = "Yes".
Proof.
  split; [reflexivity|].
  destruct (escapeHtml_safe "Yes") as (_ & Hfix & _).
  apply Hfix. repeat constructor.
Defined.

(** ** Voter tokens *)

Lemma getToken_setToken_eq (pollId : value) (tok : json) (s : Storage) :
  plainKey (ToString pollId) = true ->
  getToken pollId (setToken pollId tok s) = Some (if truthyJ tok then tok else JNull).
Proof.
  intros Hp. apply plainKey_proto in Hp.
  unfold getToken, setToken, getTokens. cbn [set_tokens breadpoll_tokens].
  rewrite js_set_insert by (left; exact Hp). rewrite lookup_insert_eq. unfold js_or. cbn [truthy]. destruct (truthyJ tok); reflexivity.
Qed.

(** X4: for poll identifiers whose text names no member of
    [Object.prototype], a token stored for a poll is the token read for it,
    [null] when the token is falsy; polls are told apart by the text of
    their identifier; the store is otherwise untouched. *)
Theorem getToken_setToken (pollId other : value) (tok : json) (s : Storage) :
  plainKey (ToString pollId) = true -> plainKey (ToString other) = true ->
  getToken pollId (setToken pollId tok s) = Some (if truthyJ tok then tok else JNull)
  /\ (ToString other = ToString pollId ->
      getToken other (setToken pollId tok s) = getToken pollId (setToken pollId tok s))
  /\ (ToString other <> ToString pollId ->
      getToken other (setToken pollId tok s) = getToken other s)
  /\ loadLocalPolls (setToken pollId tok s) = loadLocalPolls s
  /\ loadLocalVotesAll (setToken pollId tok s) = loadLocalVotesAll s
  /\ credentialsOf (setToken pollId tok s) = credentialsOf s.
Proof.
  intros Hp Ho.
  split; [apply getToken_setToken_eq, Hp|].
  split; [|split; [|repeat split]];
    unfold getToken, setToken, getTokens; cbn [set_tokens breadpoll_tokens].
  - intros ->. reflexivity.
  - intros Hne. rewrite lookup_js_set_ne by congruence. reflexivity.
Qed.

Lemma getToken_setToken_witness :
  getToken (Some (JNum 7)) (setToken (Some (JStr "7")) (JStr "vt_1") emptyStorage)
  = Some (JStr "vt_1")
  /\ getToken (Some (JStr "8")) (setToken (Some (JStr "7")) (JStr "vt_1") emptyStorage)
     = Some JNull.
Proof.
  destruct (getToken_setToken (Some (JStr "7")) (Some (JNum 7)) (JStr "vt_1") emptyStorage
              eq_refl eq_refl) as (H1 & H2 & _).
  destruct (getToken_setToken (Some (JStr "7")) (Some (JStr "8")) (JStr "vt_1") emptyStorage
              eq_refl eq_refl) as (_ & _ & H3 & _).
  split.
  - rewrite H2 by reflexivity. exact H1.
  - rewrite H3 by (vm_compute; discriminate). reflexivity.
Defined.

Lemma ensureLocalToken_run (pollId : value) (w : World) :
  ensureLocalToken pollId w
  = if truthy (getToken pollId (localStorage w))
    then (Ok (getToken pollId (localStorage w)), w)
    else (Ok (Some (JStr ("localtok_" +:+ host_uuid (host w) (tick w)))),
          mkWorld (setToken pollId (JStr ("localtok_" +:+ host_uuid (host w) (tick w)))
                            (localStorage w))
                  (net w) (sent w) (host w) (S (tick w))).
Proof.
  unfold ensureLocalToken, bind, getStorage.
  destruct (truthy (getToken pollId (localStorage w))); reflexivity.
Qed.

(** X5: for a poll identifier whose text names no member of
    [Object.prototype], [ensureLocalToken] returns a truthy token that is
    then the stored token of the poll; asking again returns the same token
    and changes nothing; a token already stored is returned as it is, a new
    one is ["localtok_"] followed by a fresh identifier; no request is
    sent. *)
Theorem ensureLocalToken_idempotent (pollId : value) (w : World) :
  plainKey (ToString pollId) = true ->
  let once := ensureLocalToken pollId w in
  exists tok,
    fst once = Ok (Some tok) /\ truthyJ tok = true
    /\ getToken pollId (localStorage (snd once)) = Some tok
    /\ ensureLocalToken pollId (snd once) = (Ok (Some tok), snd once)
    /\ sent (snd once) = sent w /\ net (snd once) = net w /\ host (snd once) = host w
    /\ (truthy (getToken pollId (localStorage w)) = true -> snd once = w)
    /\ (truthy (getToken pollId (localStorage w)) = false ->
        tok = JStr ("localtok_" +:+ host_uuid (host w) (tick w))).
Proof.
  intros Hp. cbv zeta. rewrite ensureLocalToken_run.
  destruct (truthy (getToken pollId (localStorage w))) eqn:Ht; cbn [fst snd].
  - destruct (getToken pollId (localStorage w)) as [tok|] eqn:Hg; [|discriminate Ht].
    exists tok. cbn [truthy] in Ht.
    split; [reflexivity|]. split; [exact Ht|]. split; [reflexivity|].
    split; [rewrite ensureLocalToken_run, Hg; cbn [truthy]; rewrite Ht; reflexivity|].
    repeat split. intros [=].
  - set (tok := JStr ("localtok_" +:+ host_uuid (host w) (tick w))).
    exists tok. cbn [localStorage sent net host].
    assert (Hg : getToken pollId (setToken pollId tok (localStorage w)) = Some tok).
    { apply getToken_setToken_eq, Hp. }
    split; [reflexivity|]. split; [reflexivity|]. split; [exact Hg|].
    split; [rewrite ensureLocalToken_run; cbn [localStorage]; rewrite Hg; reflexivity|].
    repeat split. intros [=].
Qed.

Lemma ensureLocalToken_idempotent_witness :
  exists tok,
    fst (ensureLocalToken (Some (JStr "local_1")) demoWorld) = Ok (Some tok)
    /\ tok = JStr "localtok_7f3c".
Proof.
  destruct (ensureLocalToken_idempotent (Some (JStr "local_1")) demoWorld eq_refl)
    as (tok & Hr & _ & _ & _ & _ & _ & _ & _ & Hnew).
  exists tok. split; [exact Hr|]. rewrite Hnew by reflexivity. reflexivity.
Defined.

(** ** Local polls *)

Lemma existsb_null (polls : list json) :
  existsb (fun p => match p with JNull => true | _ => false end) polls = false
  <-> Forall (fun p => p <> JNull) polls.
Proof.
  induction polls as [|p polls IH]; cbn [existsb].
  - split; [constructor | reflexivity].
  - rewrite Bool.orb_false_iff, IH. split.
    + intros [Hp H]. constructor; [intros ->; discriminate | exact H].
    + intros H. inversion H as [|? ? Hp H']; subst.
      split; [destruct p; try reflexivity; contradiction | exact H'].
Qed.

Lemma findLocalPoll_cons (id : string) (p : json) (polls : list json) :
  p <> JNull ->
  findLocalPoll id (p :: polls)
  = if strict_eq_str (getProp p "id") id then Ok (Some p) else findLocalPoll id polls.
Proof. destruct p; try reflexivity. contradiction. Qed.

Lemma findLocalPoll_filter (id id' : string) (polls : list json) :
  Forall (fun p => p <> JNull) polls ->
  findLocalPoll id' (filter (fun p => strict_eq_str (getProp p "id") id = false) polls)
  = if String.eqb id' id then Ok None else findLocalPoll id' polls.
Proof.
  induction 1 as [|p polls Hp Hall IH].
  - destruct (String.eqb id' id); reflexivity.
  - rewrite (findLocalPoll_cons id' p polls Hp).
    destruct (strict_eq_str (getProp p "id") id) eqn:E.
    + rewrite filter_cons_False by (rewrite E; discriminate). rewrite IH.
      destruct (String.eqb id' id) eqn:E'; [reflexivity|].
      assert (strict_eq_str (getProp p "id") id' = false) as ->; [|reflexivity].
      unfold strict_eq_str in *. destruct (getProp p "id") as [[]|]; try reflexivity.
      apply String.eqb_eq in E. subst. rewrite String.eqb_sym. exact E'.
    + rewrite filter_cons_True by exact E.
      rewrite (findLocalPoll_cons id' p _ Hp), IH.
      destruct (String.eqb id' id) eqn:E'; [|reflexivity].
      apply String.eqb_eq in E'. subst. rewrite E. reflexivity.
Qed.

(** X6: a poll added to the local polls is the first of them, and looking
    its identifier up finds it, whatever the list held before. *)
Theorem getLocalPoll_addLocalPoll (p : json) (id : string) (s : Storage) :
  getProp p "id" = Some (JStr id) ->
  loadLocalPolls (addLocalPoll p s) = p :: loadLocalPolls s
  /\ getLocalPoll id (addLocalPoll p s) = Ok (Some p)
  /\ loadLocalVotesAll (addLocalPoll p s) = loadLocalVotesAll s
  /\ getTokens (addLocalPoll p s) = getTokens s
  /\ credentialsOf (addLocalPoll p s) = credentialsOf s.
Proof.
  intros Hid. split; [reflexivity|]. split; [|repeat split].
  unfold getLocalPoll, addLocalPoll, loadLocalPolls.
  cbn [set_local_polls breadpoll_local_polls_v1].
  destruct p; try discriminate Hid. cbn [findLocalPoll]. rewrite Hid.
  cbn [strict_eq_str]. rewrite String.eqb_refl. reflexivity.
Qed.

Lemma getLocalPoll_addLocalPoll_witness :
  getLocalPoll "local_1" (addLocalPoll demoDraft (addLocalPoll JNull emptyStorage))
  = Ok (Some demoDraft).
Proof.
  apply (getLocalPoll_addLocalPoll demoDraft "local_1"). reflexivity.
Defined.

Lemma removeLocalPoll_run (id : string) (w : World) :
  removeLocalPoll id w
  = if existsb (fun p => match p with JNull => true | _ => false end)
              (loadLocalPolls (localStorage w))
    then (Thrown TypeError, w)
    else (Ok tt,
          withStorage
            (set_local_polls
               (filter (fun p => strict_eq_str (getProp p "id") id = false)
                       (loadLocalPolls (localStorage w)))
               (localStorage w)) w).
Proof.
  unfold removeLocalPoll, bind, getStorage. destruct (existsb _ _); reflexivity.
Qed.

(** X7: [removeLocalPoll] on polls none of which is [null] removes every
    poll of the identifier and keeps the others, so that the identifier is
    then looked up in vain and every other lookup is as before; with a
    [null] entry it throws and saves nothing. *)
Theorem removeLocalPoll_removes (id : string) (w : World) :
  (noNullPoll (localStorage w) ->
   fst (removeLocalPoll id w) = Ok tt
   /\ noNullPoll (localStorage (snd (removeLocalPoll id w)))
   /\ getLocalPoll id (localStorage (snd (removeLocalPoll id w))) = Ok (Some JNull)
   /\ forall other, other <> id ->
        getLocalPoll other (localStorage (snd (removeLocalPoll id w)))
        = getLocalPoll other (localStorage w))
  /\ (~ noNullPoll (localStorage w) ->
      removeLocalPoll id w = (Thrown TypeError, w)).
Proof.
  rewrite removeLocalPoll_run. unfold noNullPoll. split.
  - intros Hnn. apply existsb_null in Hnn as Hex. rewrite Hex.
    unfold withStorage. cbn [fst snd localStorage].
    unfold getLocalPoll, loadLocalPolls in *.
    cbn [set_local_polls breadpoll_local_polls_v1].
    split; [reflexivity|]. split; [|split].
    + apply List.Forall_forall. intros p Hp. apply list_elem_of_In in Hp.
      apply list_elem_of_filter in Hp as [_ Hp].
      rewrite List.Forall_forall in Hnn. apply Hnn. apply list_elem_of_In. exact Hp.
    + rewrite (findLocalPoll_filter id id _ Hnn), String.eqb_refl. reflexivity.
    + intros other Hne. rewrite (findLocalPoll_filter id other _ Hnn).
      apply String.eqb_neq in Hne. rewrite Hne. reflexivity.
  - intros Hnn.
    destruct (existsb _ (loadLocalPolls (localStorage w))) eqn:Hex; [reflexivity|].
    apply existsb_null in Hex. contradiction.
Qed.

Lemma removeLocalPoll_removes_witness :
  noNullPoll (localStorage draftWorld)
  /\ getLocalPoll "local_1" (localStorage draftWorld) = Ok (Some demoDraft)
  /\ getLocalPoll "local_1" (localStorage (snd (removeLocalPoll "local_1" draftWorld)))
     = Ok (Some JNull).
Proof.
  assert (Hnn : noNullPoll (localStorage draftWorld)).
  { repeat constructor. discriminate. }
  split; [exact Hnn|]. split; [reflexivity|].
  destruct (removeLocalPoll_removes "local_1" draftWorld) as ((_ & _ & H & _) & _).
  - exact Hnn.
  - exact H.
Defined.

(** ** Purging a draft *)

Lemma purgeLocalPollState_run (localPollId : value) (w : World) :
  let id := ToString (js_or localPollId (Some (JStr ""))) in
  purgeLocalPollState localPollId w
  = if String.eqb id "" then (Ok tt, w)
    else
      let w1 := snd (try_catch (removeLocalPoll id) (fun _ => ret tt) w) in
      (Ok tt,
       withStorage
         (set_tokens (delete id (getTokens (localStorage w1)))
            (set_local_votes (delete id (loadLocalVotesAll (localStorage w1)))
               (localStorage w1))) w1).
Proof.
  cbv zeta. unfold purgeLocalPollState.
  destruct (String.eqb _ ""); [reflexivity|].
  unfold bind at 1.
  destruct (try_catch (removeLocalPoll _) (fun _ => ret tt) w) as [[[]|e] w1] eqn:E.
  - reflexivity.
  - exfalso. unfold try_catch, removeLocalPoll, bind, getStorage in E.
    destruct (existsb _ _) in E; discriminate E.
Qed.

Lemma try_removeLocalPoll (id : string) (w : World) :
  let w1 := snd (try_catch (removeLocalPoll id) (fun _ => ret tt) w) in
  net w1 = net w /\ host w1 = host w /\ sent w1 = sent w /\ tick w1 = tick w
  /\ getTokens (localStorage w1) = getTokens (localStorage w)
  /\ loadLocalVotesAll (localStorage w1) = loadLocalVotesAll (localStorage w)
  /\ credentialsOf (localStorage w1) = credentialsOf (localStorage w)
  /\ breadpoll_remote_last_choice_v1 (localStorage w1)
     = breadpoll_remote_last_choice_v1 (localStorage w)
  /\ (noNullPoll (localStorage w) ->
      loadLocalPolls (localStorage w1)
      = filter (fun p => strict_eq_str (getProp p "id") id = false)
               (loadLocalPolls (localStorage w)))
  /\ (~ noNullPoll (localStorage w) -> w1 = w).
Proof.
  cbv zeta. unfold try_catch. rewrite removeLocalPoll_run.
  destruct (existsb (fun p => match p with JNull => true | _ => false end)
              (loadLocalPolls (localStorage w))) eqn:Hex.
  - assert (Hnn : ~ noNullPoll (localStorage w)).
    { intros H. apply existsb_null in H. congruence. }
    cbn [snd ret]. repeat split; try reflexivity; contradiction.
  - apply existsb_null in Hex as Hnn.
    unfold withStorage. cbn [fst snd localStorage net host sent tick].
    repeat split; try reflexivity; contradiction.
Qed.

(** X8: [purgeLocalPollState] never throws and sends nothing. With an
    identifier that is empty or falsy it changes nothing. Otherwise the vote
    state and the token stored for the identifier are gone, those of every
    other poll are kept, and so are the identity, the stamps and the
    remembered remote choices; the polls of the identifier are gone too
    unless a stored poll is [null], in which case the stored polls stay as
    they are. *)
Theorem purgeLocalPollState_purges (localPollId : value) (w : World) :
  let id := ToString (js_or localPollId (Some (JStr ""))) in
  let out := purgeLocalPollState localPollId w in
  let s' := localStorage (snd out) in
  fst out = Ok tt
  /\ sent (snd out) = sent w /\ net (snd out) = net w /\ host (snd out) = host w
  /\ credentialsOf s' = credentialsOf (localStorage w)
  /\ breadpoll_remote_last_choice_v1 s' = breadpoll_remote_last_choice_v1 (localStorage w)
  /\ (id = "" -> snd out = w)
  /\ (id <> "" ->
      loadLocalVotesAll s' !! id = None
      /\ getTokens s' !! id = None
      /\ (forall other, other <> id ->
            loadLocalVotesAll s' !! other = loadLocalVotesAll (localStorage w) !! other
            /\ getTokens s' !! other = getTokens (localStorage w) !! other)
      /\ (noNullPoll (localStorage w) ->
          getLocalPoll id s' = Ok (Some JNull)
          /\ forall other, other <> id ->
               getLocalPoll other s' = getLocalPoll other (localStorage w))
      /\ (~ noNullPoll (localStorage w) ->
          loadLocalPolls s' = loadLocalPolls (localStorage w))).
Proof.
  cbv zeta. rewrite purgeLocalPollState_run. cbv zeta.
  set (id := ToString (js_or localPollId (Some (JStr "")))).
  destruct (String.eqb id "") eqn:E.
  - apply String.eqb_eq in E. cbn [fst snd].
    do 6 (split; [reflexivity|]). split; [reflexivity|]. intros H. contradiction.
  - apply String.eqb_neq in E. cbn [fst snd].
    destruct (try_removeLocalPoll id w)
      as (Hn & Hh & Hs & _ & Ht & Hv & Hc & Hl & Hgood & Hbad).
    set (w1 := snd (try_catch (removeLocalPoll id) (fun _ => ret tt) w)) in *.
    unfold withStorage. cbn [localStorage sent net host].
    split; [reflexivity|]. split; [exact Hs|]. split; [exact Hn|]. split; [exact Hh|].
    split; [exact Hc|]. split; [exact Hl|]. split; [intros H; contradiction|].
    intros _. unfold loadLocalVotesAll, getTokens, getLocalPoll, loadLocalPolls in *.
    cbn [set_tokens set_local_votes breadpoll_tokens breadpoll_local_votes_v1
         breadpoll_local_polls_v1].
    split; [apply lookup_delete_eq|]. split; [apply lookup_delete_eq|].
    split.
    { intros other Hne. rewrite !lookup_delete_ne by congruence.
      rewrite Hv, Ht. auto. }
    split.
    + intros Hnn. rewrite (Hgood Hnn). unfold noNullPoll, loadLocalPolls in Hnn. split.
      * rewrite (findLocalPoll_filter id id _ Hnn), String.eqb_refl. reflexivity.
      * intros other Hne. rewrite (findLocalPoll_filter id other _ Hnn).
        apply String.eqb_neq in Hne. rewrite Hne. reflexivity.
    + intros Hnn. rewrite (Hbad Hnn). reflexivity.
Qed.

Lemma purgeLocalPollState_purges_witness :
  let s' := localStorage (snd (purgeLocalPollState (Some (JStr "local_1")) draftWorld)) in
  getLocalPoll "local_1" (localStorage draftWorld) = Ok (Some demoDraft)
  /\ getLocalPoll "local_1" s' = Ok (Some JNull)
  /\ getExchangeStampPool s' = [JStr "s_a"].
Proof.
  intros s'. split; [reflexivity|].
  destruct (purgeLocalPollState_purges (Some (JStr "local_1")) draftWorld)
    as (_ & _ & _ & _ & Hc & _ & _ & Hpurge).
  destruct Hpurge as (_ & _ & _ & Hgood & _); [vm_compute; discriminate|].
  destruct Hgood as (Hgone & _); [repeat constructor; discriminate|].
  split; [exact Hgone|]. vm_compute. reflexivity.
Defined.

(** ** The remembered remote choice *)

(** X9: for poll identifiers whose text names no member of
    [Object.prototype], the label remembered for a remote poll is the label
    read back for it, [null] when the label is empty; polls are told apart
    by the text of their identifier; tokens, votes, polls and credentials
    are untouched. *)
Theorem getRemoteLastChoice_setRemoteLastChoice (pollId other : value) (label : string)
    (s : Storage) :
  plainKey (ToString pollId) = true -> plainKey (ToString other) = true ->
  getRemoteLastChoice pollId (setRemoteLastChoice pollId label s)
  = (if String.eqb label "" then None else Some label)
  /\ (ToString other <> ToString pollId ->
      getRemoteLastChoice other (setRemoteLastChoice pollId label s)
      = getRemoteLastChoice other s)
  /\ getTokens (setRemoteLastChoice pollId label s) = getTokens s
  /\ loadLocalVotesAll (setRemoteLastChoice pollId label s) = loadLocalVotesAll s
  /\ loadLocalPolls (setRemoteLastChoice pollId label s) = loadLocalPolls s
  /\ credentialsOf (setRemoteLastChoice pollId label s) = credentialsOf s.
Proof.
  intros Hp _. apply plainKey_proto in Hp.
  unfold getRemoteLastChoice, setRemoteLastChoice.
  cbn [set_last_choice breadpoll_remote_last_choice_v1].
  split; [rewrite js_set_insert by (left; exact Hp); rewrite lookup_insert_eq; reflexivity|].
  split; [|repeat split].
  intros Hne. rewrite lookup_js_set_ne by congruence. reflexivity.
Qed.

Lemma getRemoteLastChoice_setRemoteLastChoice_witness :
  getRemoteLastChoice (Some (JNum 12))
    (setRemoteLastChoice (Some (JNum 12)) "Tacos" emptyStorage) = Some "Tacos"
  /\ getRemoteLastChoice (Some (JNum 13))
       (setRemoteLastChoice (Some (JNum 12)) "Tacos" emptyStorage) = None.
Proof.
  destruct (getRemoteLastChoice_setRemoteLastChoice (Some (JNum 12)) (Some (JNum 13)) "Tacos"
              emptyStorage eq_refl eq_refl) as (H1 & H2 & _).
  split; [exact H1|]. rewrite H2 by (vm_compute; discriminate). reflexivity.
Defined.

(** ** Taking a stamp *)

Lemma Qfloor_index (u : Q) (n : nat) :
  (0 <= u)%Q -> (u < 1)%Q -> (0 < n)%nat ->
  0 <= Qfloor (u * inject_Z (Z.of_nat n)) < Z.of_nat n.
Proof.
  intros H0 H1 Hn.
  assert (Hpos : (0 < inject_Z (Z.of_nat n))%Q).
  { change 0%Q with (inject_Z 0). rewrite <- Zlt_Qlt. lia. }
  split.
  - change 0 with (Qfloor 0). apply Qfloor_resp_le.
    apply Qmult_le_0_compat; [exact H0 | apply Qlt_le_weak, Hpos].
  - rewrite Zlt_Qlt. eapply Qle_lt_trans; [apply Qfloor_le|].
    apply Qlt_le_trans with (1 * inject_Z (Z.of_nat n))%Q;
      [apply Qmult_lt_compat_r; assumption|].
    rewrite Qmult_1_l. apply Qle_refl.
Qed.

Lemma pickOneStampOrNull_run (w : World) :
  pickOneStampOrNull w
  = match getExchangeStampPool (localStorage w) with
    | [] => (Ok (Some JNull), w)
    | pool =>
        let i := Qfloor (host_random (host w) (tick w)
                         * inject_Z (Z.of_nat (length pool))) in
        (Ok (if i <? 0 then None else nth_error pool (Z.to_nat i)),
         mkWorld (localStorage w) (net w) (sent w) (host w) (S (tick w)))
    end.
Proof.
  unfold pickOneStampOrNull, bind, getStorage.
  destruct (getExchangeStampPool (localStorage w)); reflexivity.
Qed.

(** X10: when [Math.random] yields a number of [[0, 1)], as it does, the
    stamp [pickOneStampOrNull] takes from a pool that is not empty is one of
    the pool; from an empty pool it takes [null], without a draw. Either
    way the store is left as it is and nothing is sent. *)
Theorem pickOneStampOrNull_in_pool (w : World) :
  (0 <= host_random (host w) (tick w))%Q ->
  (host_random (host w) (tick w) < 1)%Q ->
  let pool := getExchangeStampPool (localStorage w) in
  let out := pickOneStampOrNull w in
  localStorage (snd out) = localStorage w /\ sent (snd out) = sent w
  /\ match pool with
     | [] => out = (Ok (Some JNull), w)
     | _ :: _ => exists x, fst out = Ok (Some x) /\ x ∈ pool /\ truthyJ x = true
     end.
Proof.
  intros H0 H1 pool out. subst out.
  destruct (pickOneStampOrNull_spec w) as ((Hs & _ & _ & Hsent) & _).
  split; [exact Hs|]. split; [exact Hsent|].
  rewrite pickOneStampOrNull_run.
  subst pool. destruct (getExchangeStampPool (localStorage w)) as [|x0 r] eqn:Hp;
    [reflexivity|].
  cbv zeta. cbn [fst snd].
  destruct (Qfloor_index _ (length (x0 :: r)) H0 H1) as [Hlo Hhi]; [simpl; lia|].
  set (i := Qfloor _) in *.
  destruct (i <? 0) eqn:Hneg; [apply Z.ltb_lt in Hneg; lia|].
  destruct (nth_error (x0 :: r) (Z.to_nat i)) as [x|] eqn:Hx.
  - exists x. split; [reflexivity|].
    assert (Hin : x ∈ x0 :: r) by (apply list_elem_of_In; eapply nth_error_In, Hx).
    split; [exact Hin|]. apply (pool_truthy (localStorage w)). rewrite Hp. exact Hin.
  - apply nth_error_None in Hx. lia.
Qed.

Lemma pickOneStampOrNull_in_pool_witness :
  exists x, fst (pickOneStampOrNull demoWorld) = Ok (Some x)
            /\ x ∈ getExchangeStampPool (localStorage demoWorld).
Proof.
  destruct (pickOneStampOrNull_in_pool demoWorld) as (_ & _ & x & Hx & Hin & _).
  - vm_compute. discriminate.
  - vm_compute. reflexivity.
  - exists x. split; [exact Hx | exact Hin].
Defined.

(** X11: [getOrFetchOneStampOrNull] never throws. With a pool that is not
    empty it is [pickOneStampOrNull]: nothing is sent. With an empty pool
    and no stored identity it yields [null] and leaves the world as it is;
    so it does after [clearExchangeStampPool] on a device without identity.
    In every case it sends at most one request, a mint, and leaves the
    identity, the drafts and the local votes alone. *)
Theorem getOrFetchOneStampOrNull_sources (w : World) :
  let pool := getExchangeStampPool (localStorage w) in
  let creds := getExchangeHmacCredsOrNull (localStorage w) in
  let cleared := withStorage (clearExchangeStampPool (localStorage w)) w in
  let out := getOrFetchOneStampOrNull w in
  (exists v, fst out = Ok v)
  /\ (pool <> [] -> out = pickOneStampOrNull w)
  /\ (pool = [] -> creds = None -> out = (Ok (Some JNull), w))
  /\ (creds = None -> getOrFetchOneStampOrNull cleared = (Ok (Some JNull), cleared))
  /\ (exists added,
        sent (snd out) = sent w ++ added /\ (length added <= 1)%nat
        /\ Forall (fun rq => isMintb rq = true) added)
  /\ sameCore (localStorage w) (localStorage (snd out)).
Proof.
  cbv zeta.
  pose proof (getOrFetchOneStampOrNull_spec w) as H. unfold ensures in H.
  destruct H as (_ & _ & v & Hv & _ & added & Hs & Hm & _).
  split; [eauto|]. split; [|split; [|split; [|split]]].
  - unfold getOrFetchOneStampOrNull, bind, getStorage.
    destruct (getExchangeStampPool (localStorage w)); [contradiction | reflexivity].
  - intros Hp Hc. unfold getOrFetchOneStampOrNull, bind, getStorage.
    rewrite Hp, Hc. reflexivity.
  - intros Hc. unfold getOrFetchOneStampOrNull, bind, getStorage, withStorage.
    cbn [localStorage].
    assert (Hp : getExchangeStampPool (clearExchangeStampPool (localStorage w)) = [])
      by reflexivity.
    rewrite Hp.
    assert (Hc' : getExchangeHmacCredsOrNull (clearExchangeStampPool (localStorage w))
                  = getExchangeHmacCredsOrNull (localStorage w)) by reflexivity.
    rewrite Hc', Hc. reflexivity.
  - exists added. split; [exact Hs|].
    destruct Hm as [[-> _] | (m & -> & Hmint & _)].
    + split; [simpl; lia | constructor].
    + split; [simpl; lia | repeat constructor; exact Hmint].
  - apply (minted_sameCore _ _ _ Hm).
Qed.

Lemma getOrFetchOneStampOrNull_sources_witness :
  getOrFetchOneStampOrNull anonymousWorld = (Ok (Some JNull), anonymousWorld)
  /\ getOrFetchOneStampOrNull demoWorld = pickOneStampOrNull demoWorld.
Proof.
  destruct (getOrFetchOneStampOrNull_sources anonymousWorld) as (_ & _ & H1 & _).
  destruct (getOrFetchOneStampOrNull_sources demoWorld) as (_ & H2 & _).
  split.
  - apply H1; reflexivity.
  - apply H2. vm_compute. discriminate.
Defined.

(** ** Signed requests *)

Lemma headerOf_app (name : string) (m u : string) (a b : list (string * string))
    (body : option json) :
  headerOf name (mkRequest m u (a ++ b) body)
  = match headerOf name (mkRequest m u b body) with
    | Some v => Some v
    | None => headerOf name (mkRequest m u a body)
    end.
Proof.
  unfold headerOf. cbn [rq_headers]. rewrite rev_app_distr.
  induction (rev b) as [|h r IH]; [reflexivity|].
  cbn [app find]. destruct (String.eqb (fst h) name); [reflexivity | exact IH].
Qed.

Lemma buildHmacHeaders_run (method path : string) (body : value) (w : World) :
  buildHmacHeaders method path body w
  = match getExchangeHmacCredsOrNull (localStorage w) with
    | None => (Thrown missingIdentity, w)
    | Some creds =>
        let ts := string_of_Z (host_now (host w) (tick w)) in
        let nonce := bytesToHex (nonceBytes (host w) (S (tick w))) in
        let base := signingBase method path ts nonce
                      (sha256Hex (bodyTextOf (host w) body)) in
        let w' := mkWorld (localStorage w) (net w) (sent w) (host w) (S (S (tick w))) in
        match hexToBytes (signing_key creds) with
        | None => (Thrown (Error "Signing key must be hex (even length)."), w')
        | Some keyBytes =>
            (Ok [ ("X-Self-ID", self_id creds); ("X-Timestamp", ts); ("X-Nonce", nonce);
                  ("X-Signature", bytesToHex (SHA256.hmac keyBytes (encode base))) ],
             w')
        end
    end.
Proof.
  unfold buildHmacHeaders, bind, getStorage.
  destruct (getExchangeHmacCredsOrNull (localStorage w)) as [creds|]; [|reflexivity].
  unfold Date_now, makeNonceHex, getRandomValues, bind, draw, getHost, ret.
  cbn [localStorage host tick net sent].
  unfold hmacSha256Hex, hmacSha256Hex_pure.
  destruct (hexToBytes (signing_key creds)); reflexivity.
Qed.

(** X12: for a method of ASCII characters, [exchangeFetchAuthed] without a
    stored identity throws and leaves the world as it is; with a signing
    key that is not hex it throws after its two draws, and sends nothing.
    Otherwise it sends exactly one request, to the Exchange path, with the
    method in upper case ([GET] when none is given) and the body given; the four signing headers of
    that request are the ones computed for it, whatever headers the caller
    passes, and [Content-Type] is [application/json] unless the caller
    passes one. *)
Theorem exchangeFetchAuthed_request (path : string) (opts : FetchOpts) (w : World) :
  Forall (fun c => (nat_of_ascii c < 128)%nat) (chars (methodOrGet opts)) ->
  let out := exchangeFetchAuthed path opts w in
  let method := toUpperCase (methodOrGet opts) in
  match getExchangeHmacCredsOrNull (localStorage w) with
  | None => out = (Thrown missingIdentity, w)
  | Some creds =>
      localStorage (snd out) = localStorage w
      /\ match hexToBytes (signing_key creds) with
         | None =>
             fst out = Thrown (Error "Signing key must be hex (even length).")
             /\ sent (snd out) = sent w
         | Some keyBytes =>
             let ts := string_of_Z (host_now (host w) (tick w)) in
             let nonce := bytesToHex (nonceBytes (host w) (S (tick w))) in
             let base := signingBase method ("/api" +:+ path) ts nonce
                           (sha256Hex (bodyTextOf (host w) (opt_body opts))) in
             exists rq,
               sent (snd out) = sent w ++ [rq]
               /\ rq_method rq = method
               /\ rq_url rq = EXCHANGE_API +:+ path
               /\ rq_body rq = (if is_nullish (opt_body opts) then None else opt_body opts)
               /\ headerOf "X-Self-ID" rq = Some (self_id creds)
               /\ headerOf "X-Timestamp" rq = Some ts
               /\ headerOf "X-Nonce" rq = Some nonce
               /\ headerOf "X-Signature" rq
                  = Some (bytesToHex (SHA256.hmac keyBytes (encode base)))
               /\ (Forall (fun h => fst h <> "Content-Type") (opt_headers opts) ->
                   headerOf "Content-Type" rq = Some "application/json")
               /\ fst out = match net w (sent w) rq with
                            | Unreachable => Thrown NetworkFailure
                            | Http status body => Ok (status, body)
                            end
         end
  end.
Proof.
  intros _. cbv zeta. unfold exchangeFetchAuthed. cbv zeta. unfold bind.
  rewrite buildHmacHeaders_run. change apiPrefix with "/api".
  destruct (getExchangeHmacCredsOrNull (localStorage w)) as [creds|]; [|reflexivity].
  cbv zeta.
  destruct (hexToBytes (signing_key creds)) as [keyBytes|]; [|repeat split].
  unfold fetch. cbn [localStorage net sent host tick].
  set (rq := mkRequest _ _ _ _).
  split; [destruct (net w (sent w) rq); reflexivity|].
  exists rq. split; [destruct (net w (sent w) rq); reflexivity|].
  do 3 (split; [reflexivity|]).
  assert (Hsigned : forall name,
            headerOf name rq
            = match headerOf name
                      (mkRequest (rq_method rq) (rq_url rq)
                         [ ("X-Self-ID", self_id creds);
                           ("X-Timestamp", string_of_Z (host_now (host w) (tick w)));
                           ("X-Nonce", bytesToHex (nonceBytes (host w) (S (tick w))));
                           ("X-Signature",
                            bytesToHex (SHA256.hmac keyBytes (encode
                              (signingBase (toUpperCase (methodOrGet opts)) ("/api" +:+ path)
                                 (string_of_Z (host_now (host w) (tick w)))
                                 (bytesToHex (nonceBytes (host w) (S (tick w))))
                                 (sha256Hex (bodyTextOf (host w) (opt_body opts))))))) ]
                         (rq_body rq)) with
              | Some v => Some v
              | None =>
                  match headerOf name (mkRequest (rq_method rq) (rq_url rq)
                                         (opt_headers opts) (rq_body rq)) with
                  | Some v => Some v
                  | None => headerOf name
                              (mkRequest (rq_method rq) (rq_url rq)
                                 [("Content-Type", "application/json")] (rq_body rq))
                  end
              end).
  { intros name. subst rq. cbn [rq_method rq_url rq_body].
    rewrite headerOf_app, headerOf_app.
    destruct (headerOf name (mkRequest _ _ (_ :: _) _)); reflexivity. }
  do 4 (split; [rewrite Hsigned; reflexivity|]).
  split; [|destruct (net w (sent w) rq); reflexivity].
  intros Hct. rewrite Hsigned.
  assert (Hnone : headerOf "Content-Type"
                    (mkRequest (rq_method rq) (rq_url rq) (opt_headers opts) (rq_body rq))
                  = None).
  { unfold headerOf. cbn [rq_headers]. apply List.Forall_rev in Hct.
    induction Hct as [|h r Hh _ IH]; [reflexivity|].
    cbn [find]. apply String.eqb_neq in Hh. rewrite Hh. exact IH. }
  rewrite Hnone. reflexivity.
Qed.

Lemma exchangeFetchAuthed_request_witness :
  exists rq,
    sent (snd (exchangeFetchAuthed "/stamp" overridingOpts demoWorld)) = [rq]
    /\ rq_method rq = "POST"
    /\ headerOf "X-Self-ID" rq = Some "me"
    /\ headerOf "Content-Type" rq = Some "application/json".
Proof.
  assert (Hascii : Forall (fun c => (nat_of_ascii c < 128)%nat)
                      (chars (methodOrGet overridingOpts))).
  { repeat constructor; vm_compute; lia. }
  pose proof (exchangeFetchAuthed_request "/stamp" overridingOpts demoWorld Hascii) as H.
  cbv zeta in H.
  change (getExchangeHmacCredsOrNull (localStorage demoWorld))
    with (Some (mkCreds "me" "00ff")) in H.
  cbv iota beta in H. destruct H as (_ & H).
  change (hexToBytes (signing_key (mkCreds "me" "00ff"))) with (Some [0; 255]) in H.
  cbv iota beta in H.
  destruct H as (rq & Hs & Hm & _ & _ & Hid & _ & _ & _ & Hct & _).
  exists rq. split; [exact Hs|]. split; [rewrite Hm; vm_compute; reflexivity|].
  split; [exact Hid|]. apply Hct. repeat constructor. discriminate.
Defined.

(** ** Local results *)

(** Every option but ["__proto__"] gets a count. *)
Lemma initCounts_has (options : list string) (c : gmap string Z) (o : string) :
  o ∈ options -> o <> "__proto__" -> is_Some (initCounts options c !! o).
Proof.
  unfold initCounts. revert c. induction options as [|x options IH]; intros c H Hne.
  - apply elem_of_nil in H. contradiction.
  - cbn [fold_left]. apply elem_of_cons in H as [->|H]; [|apply IH; assumption].
    destruct (c !! x) as [n|] eqn:Hx.
    + exists n. apply (initCounts_keeps options c x n Hx).
    + exists 0. apply (initCounts_keeps options (js_set x 0 c) x 0).
      rewrite js_set_insert by (left; exact Hne). apply lookup_insert_eq.
Qed.

Lemma initCounts_proto (options : list string) (c : gmap string Z) :
  c !! "__proto__" = None -> initCounts options c !! "__proto__" = None.
Proof.
  unfold initCounts. revert c. induction options as [|x options IH]; intros c H;
    cbn [fold_left]; [exact H|].
  apply IH. destruct (c !! x) eqn:Hx; [exact H|].
  destruct (decide (x = "__proto__")) as [->|Hne].
  - rewrite js_set_proto by exact H. exact H.
  - rewrite lookup_js_set_ne by exact Hne. exact H.
Qed.

Lemma initCounts_fixed (options : list string) (c : gmap string Z) :
  (forall o, o ∈ options -> is_Some (c !! o) \/ (o = "__proto__" /\ c !! o = None)) ->
  initCounts options c = c.
Proof.
  unfold initCounts. induction options as [|x options IH]; intros H; [reflexivity|].
  cbn [fold_left].
  assert (Hrest : forall o, o ∈ options ->
                    is_Some (c !! o) \/ (o = "__proto__" /\ c !! o = None)).
  { intros o Ho. apply H. apply elem_of_cons. auto. }
  destruct (H x) as [[n Hn]|[-> Hn]]; [apply elem_of_cons; auto| |].
  - rewrite Hn. apply IH, Hrest.
  - rewrite Hn, js_set_proto by exact Hn. apply IH, Hrest.
Qed.

Lemma initCounts_idempotent (options : list string) (c : gmap string Z) :
  initCounts options (initCounts options c) = initCounts options c.
Proof.
  apply initCounts_fixed. intros o Ho.
  destruct (decide (o = "__proto__")) as [->|Hne]; [|left; apply initCounts_has; assumption].
  destruct (initCounts options c !! "__proto__") eqn:E; [left; eauto | right; auto].
Qed.

Lemma voteStateOf_getLocalVoteState (pollId : string) (options : list string)
    (s : Storage) :
  plainKey pollId = true ->
  fst (getLocalVoteState pollId options s)
  = mkVoteState (byToken (voteStateOf pollId s))
                (initCounts options (counts (voteStateOf pollId s)))
  /\ voteStateOf pollId (snd (getLocalVoteState pollId options s))
     = fst (getLocalVoteState pollId options s).
Proof.
  intros Hp. apply plainKey_proto in Hp.
  unfold getLocalVoteState, voteStateOf, loadLocalVotesAll. cbn [fst snd].
  cbn [set_local_votes breadpoll_local_votes_v1].
  rewrite js_set_insert by (left; exact Hp). rewrite lookup_insert_eq.
  split; reflexivity.
Qed.

Lemma getLocalVoteState_idempotent (pollId : string) (options : list string)
    (s : Storage) :
  plainKey pollId = true ->
  getLocalVoteState pollId options (snd (getLocalVoteState pollId options s))
  = getLocalVoteState pollId options s.
Proof.
  intros Hp. apply plainKey_proto in Hp.
  unfold getLocalVoteState, loadLocalVotesAll. cbn [fst snd].
  cbn [set_local_votes breadpoll_local_votes_v1].
  rewrite !js_set_insert by (left; exact Hp). rewrite lookup_insert_eq.
  cbv [default from_option id]. cbn [byToken counts].
  rewrite initCounts_idempotent, insert_insert_eq.
  reflexivity.
Qed.

Lemma buildLocalResults_eq (pollId : string) (options : list string) (s : Storage) :
  buildLocalResults pollId options s
  = (mkLocalResults pollId
       (sumCounts (counts (fst (getLocalVoteState pollId options s))))
       (counts (fst (getLocalVoteState pollId options s))),
     snd (getLocalVoteState pollId options s)).
Proof.
  unfold buildLocalResults. destruct (getLocalVoteState pollId options s). reflexivity.
Qed.

(** X13: let the identifier of a local poll and the tokens name no member
    of [Object.prototype], let the stored state of the poll be sound (none,
    or the zero counts of an opened poll, or what such votes have left),
    and let a sequence of [setLocalVote] calls carry labels that are neither
    empty nor ["__proto__"]. Then [buildLocalResults] reports as total the
    number of tokens holding a vote once each call has set the vote of its
    token, and for every label the number of those tokens whose last vote
    is that label; every option given other than ["__proto__"] has a
    count; building the results leaves exactly those votes, is the same
    when done again, and leaves the other polls alone. *)
Theorem buildLocalResults_counts (pollId : string) (calls : list VoteCall)
    (options : list string) (s : Storage) :
  plainKey pollId = true ->
  tallied (voteStateOf pollId s) ->
  Forall plainCall calls ->
  let s1 := castAll pollId calls s in
  let votes := recordedVotes calls (byToken (voteStateOf pollId s)) in
  let res := fst (buildLocalResults pollId options s1) in
  let s2 := snd (buildLocalResults pollId options s1) in
  lr_total_votes res = voters votes
  /\ (forall label, countOf (lr_counts res) label = votesFor votes label)
  /\ (forall o, o ∈ options -> o <> "__proto__" -> is_Some (lr_counts res !! o))
  /\ byToken (voteStateOf pollId s2) = votes
  /\ buildLocalResults pollId options s2 = (res, s2)
  /\ (forall other, other <> pollId ->
        loadLocalVotesAll s2 !! other = loadLocalVotesAll s1 !! other)
  /\ loadLocalPolls s2 = loadLocalPolls s1 /\ getTokens s2 = getTokens s1.
Proof.
  intros Hp Hsound Hall s1 votes res s2.
  destruct (castAll_tallied pollId calls s Hp Hsound Hall) as (Ht & Hvotes).
  fold s1 in Ht, Hvotes. fold votes in Hvotes.
  destruct Ht as (_ & Hcnt & Hsum). rewrite Hvotes in Hcnt, Hsum.
  destruct (voteStateOf_getLocalVoteState pollId options s1 Hp) as (Hst & Hst2).
  subst res s2. rewrite !buildLocalResults_eq. cbn [fst snd lr_total_votes lr_counts].
  rewrite getLocalVoteState_idempotent by exact Hp.
  rewrite Hst2, Hst. cbn [counts byToken].
  split; [rewrite initCounts_sum; exact Hsum|].
  split; [intros label; rewrite initCounts_countOf; apply Hcnt|].
  split; [intros o Ho Hne; apply initCounts_has; assumption|].
  split; [exact Hvotes|]. split; [reflexivity|].
  unfold getLocalVoteState. cbn [snd].
  split; [|split; reflexivity].
  intros other Hne. unfold loadLocalVotesAll.
  cbn [set_local_votes breadpoll_local_votes_v1].
  apply lookup_js_set_ne. congruence.
Qed.

Lemma buildLocalResults_counts_witness :
  let res := fst (buildLocalResults "local_1" ["Pizza"; "Tacos"]
                    (castAll "local_1" demoCalls openedStorage)) in
  lr_total_votes res = 2
  /\ countOf (lr_counts res) "Pizza" = 0 /\ countOf (lr_counts res) "Tacos" = 2.
Proof.
  destruct (buildLocalResults_counts "local_1" demoCalls ["Pizza"; "Tacos"] openedStorage
              eq_refl tallied_openedStorage plainCall_demoCalls) as (Htot & Hcnt & _).
  cbv zeta. split; [rewrite Htot; vm_compute; reflexivity|].
  split; rewrite Hcnt; vm_compute; reflexivity.
Defined.

(** ** Voting on a local poll *)

Lemma ensureLocalToken_token (pollId : value) (w : World) :
  plainKey (ToString pollId) = true ->
  let w1 := snd (ensureLocalToken pollId w) in
  ensureLocalToken pollId w = (Ok (deviceToken pollId w), w1)
  /\ getToken pollId (localStorage w1) = deviceToken pollId w
  /\ truthy (deviceToken pollId w) = true
  /\ sent w1 = sent w /\ net w1 = net w /\ host w1 = host w
  /\ loadLocalVotesAll (localStorage w1) = loadLocalVotesAll (localStorage w)
  /\ loadLocalPolls (localStorage w1) = loadLocalPolls (localStorage w)
  /\ credentialsOf (localStorage w1) = credentialsOf (localStorage w)
  /\ breadpoll_remote_last_choice_v1 (localStorage w1)
     = breadpoll_remote_last_choice_v1 (localStorage w).
Proof.
  intros Hp. cbv zeta. rewrite ensureLocalToken_run. unfold deviceToken.
  destruct (truthy (getToken pollId (localStorage w))) eqn:Ht; cbn [fst snd].
  - repeat split; try reflexivity. exact Ht.
  - cbn [localStorage sent net host]. split; [reflexivity|].
    split; [apply getToken_setToken_eq, Hp|]. repeat split.
Qed.

Lemma ensureLocalToken_deviceToken (pollId : value) (w : World) :
  ensureLocalToken pollId w = (Ok (deviceToken pollId w), snd (ensureLocalToken pollId w))
  /\ sent (snd (ensureLocalToken pollId w)) = sent w
  /\ net (snd (ensureLocalToken pollId w)) = net w
  /\ host (snd (ensureLocalToken pollId w)) = host w
  /\ credentialsOf (localStorage (snd (ensureLocalToken pollId w)))
     = credentialsOf (localStorage w)
  /\ loadLocalPolls (localStorage (snd (ensureLocalToken pollId w)))
     = loadLocalPolls (localStorage w).
Proof.
  rewrite ensureLocalToken_run. unfold deviceToken.
  destruct (truthy (getToken pollId (localStorage w))); cbn [fst snd]; repeat split.
Qed.

(** The vote state a local vote leaves for the poll. *)
Lemma voteStateOf_vote (id token label : string) (labels keys : list string)
    (s : Storage) :
  plainKey id = true -> plainKey token = true -> label <> "__proto__" ->
  let voted := setLocalVote id token label labels s in
  let s2 := snd (buildLocalResults id keys voted) in
  byToken (voteStateOf id s2) = <[token := label]> (byToken (voteStateOf id s))
  /\ counts (voteStateOf id s2) = initCounts keys (counts (voteStateOf id voted))
  /\ getTokens s2 = getTokens s /\ loadLocalPolls s2 = loadLocalPolls s
  /\ credentialsOf s2 = credentialsOf s
  /\ breadpoll_remote_last_choice_v1 s2 = breadpoll_remote_last_choice_v1 s
  /\ (forall other, other <> id ->
        loadLocalVotesAll s2 !! other = loadLocalVotesAll s !! other).
Proof.
  intros Hp Htk Hl. cbv zeta. rewrite buildLocalResults_eq. cbn [snd].
  destruct (voteStateOf_getLocalVoteState id keys (setLocalVote id token label labels s) Hp)
    as (Hst & Hst2).
  rewrite Hst2, Hst. cbn [byToken counts].
  rewrite voteStateOf_setLocalVote by (try assumption; left; exact Hl). cbn [byToken].
  split; [reflexivity|]. split; [reflexivity|].
  unfold getLocalVoteState, setLocalVote, getTokens, loadLocalPolls, credentialsOf,
    loadLocalVotesAll.
  cbn [snd set_local_votes breadpoll_tokens breadpoll_local_polls_v1
       breadpoll_local_votes_v1 breadpoll_remote_last_choice_v1 exchange_self_id
       exchange_signing_key exchange_stamps exchange_persona_id].
  do 4 (split; [reflexivity|]).
  intros other Hne. rewrite !lookup_js_set_ne by congruence. reflexivity.
Qed.

Lemma byToken_voteStateOf (id token : string) (s : Storage) :
  loadLocalVotesAll s !! id ≫= (fun st => byToken st !! token)
  = byToken (voteStateOf id s) !! token.
Proof.
  unfold voteStateOf. destruct (loadLocalVotesAll s !! id); reflexivity.
Qed.

Section LocalVote.

Variable showRemotePoll : value -> M unit.

Lemma castVote_local_run (poll : value) (label : string) (w : World) :
  truthy (optProp poll "id") = true -> isLocalPoll poll = true ->
  let pollId := optProp poll "id" in
  let w1 := snd (ensureLocalToken pollId w) in
  castVote showRemotePoll poll label w
  = (Ok tt,
     match js_or (optProp poll "options") (Some (JArr [])) with
     | Some (JArr opts) =>
         withStorage
           (snd (buildLocalResults (ToString pollId) (map ToStringJ opts)
                   (setLocalVote (ToString pollId) (ToString (deviceToken pollId w)) label
                                 (map optionLabel opts) (localStorage w1))))
           w1
     | _ => w1
     end).
Proof.
  intros Hid Hloc. cbv zeta. unfold castVote. rewrite Hid, Hloc. cbn [negb].
  unfold try_catch, bind at 1.
  destruct (ensureLocalToken_deviceToken (optProp poll "id") w) as (-> & _).
  unfold asArray.
  destruct (js_or (optProp poll "options") (Some (JArr []))) as [[| ? | ? | ? | opts | ?]|];
    reflexivity.
Qed.

(** A local vote sends nothing and never throws, whatever the poll. *)
Lemma castVote_local_quiet (poll : value) (label : string) (w : World) :
  isLocalPoll poll = true ->
  fst (castVote showRemotePoll poll label w) = Ok tt
  /\ sent (snd (castVote showRemotePoll poll label w)) = sent w
  /\ net (snd (castVote showRemotePoll poll label w)) = net w
  /\ host (snd (castVote showRemotePoll poll label w)) = host w
  /\ credentialsOf (localStorage (snd (castVote showRemotePoll poll label w)))
     = credentialsOf (localStorage w)
  /\ loadLocalPolls (localStorage (snd (castVote showRemotePoll poll label w)))
     = loadLocalPolls (localStorage w).
Proof.
  intros Hloc.
  destruct (truthy (optProp poll "id")) eqn:Hid.
  2:{ unfold castVote. rewrite Hid. repeat split. }
  rewrite (castVote_local_run poll label w Hid Hloc). cbn [fst snd].
  destruct (ensureLocalToken_deviceToken (optProp poll "id") w)
    as (_ & Hs & Hn & Hh & Hc & Hp).
  set (w1 := snd (ensureLocalToken (optProp poll "id") w)) in *.
  split; [reflexivity|].
  destruct (js_or (optProp poll "options") (Some (JArr []))) as [[| ? | ? | ? | opts | ?]|];
    repeat split; assumption.
Qed.

Lemma tallied_initCounts (st : VoteState) (keys : list string) :
  tallied st -> tallied (mkVoteState (byToken st) (initCounts keys (counts st))).
Proof.
  intros (Hne & Hcnt & Hsum). unfold tallied. cbn [byToken counts].
  split; [exact Hne|]. split.
  - intros l. rewrite initCounts_countOf. apply Hcnt.
  - rewrite initCounts_sum. exact Hsum.
Qed.

(** One vote on a local poll whose tallies are sound. *)
Lemma castVote_local_step (poll : value) (label : string) (opts : list json) (w : World) :
  truthy (optProp poll "id") = true -> isLocalPoll poll = true -> optionsOf poll opts ->
  plainKey (ToString (optProp poll "id")) = true ->
  plainKey (ToString (deviceToken (optProp poll "id") w)) = true ->
  tallied (voteStateOf (ToString (optProp poll "id")) (localStorage w)) ->
  label <> "" /\ label <> "__proto__" ->
  let id := ToString (optProp poll "id") in
  let w' := snd (castVote showRemotePoll poll label w) in
  deviceToken (optProp poll "id") w' = deviceToken (optProp poll "id") w
  /\ truthy (getToken (optProp poll "id") (localStorage w')) = true
  /\ byToken (voteStateOf id (localStorage w'))
     = <[ToString (deviceToken (optProp poll "id") w) := label]>
         (byToken (voteStateOf id (localStorage w)))
  /\ tallied (voteStateOf id (localStorage w'))
  /\ (forall other, other <> id ->
        loadLocalVotesAll (localStorage w') !! other
        = loadLocalVotesAll (localStorage w) !! other).
Proof.
  intros Hid Hloc Hopts Hpid Hptok Ht (Hlabel & Hproto). cbv zeta.
  rewrite (castVote_local_run poll label w Hid Hloc). cbn [snd].
  unfold optionsOf in Hopts. rewrite Hopts.
  destruct (ensureLocalToken_token (optProp poll "id") w Hpid)
    as (_ & Htok & Htr & _ & _ & _ & Hv & _).
  set (w1 := snd (ensureLocalToken (optProp poll "id") w)) in *.
  set (tok := deviceToken (optProp poll "id") w) in *.
  set (id := ToString (optProp poll "id")) in *.
  assert (Hst : voteStateOf id (localStorage w1) = voteStateOf id (localStorage w)).
  { unfold voteStateOf. rewrite Hv. reflexivity. }
  destruct (voteStateOf_vote id (ToString tok) label (map optionLabel opts)
              (map ToStringJ opts) (localStorage w1) Hpid Hptok Hproto)
    as (Hbt & Hcn & Htk & _ & _ & _ & Hoth).
  cbn [localStorage withStorage].
  set (s2 := snd (buildLocalResults id (map ToStringJ opts)
                    (setLocalVote id (ToString tok) label (map optionLabel opts)
                       (localStorage w1)))) in *.
  assert (Hget : getToken (optProp poll "id") s2 = tok).
  { unfold getToken in *. rewrite Htk. exact Htok. }
  split.
  { unfold deviceToken at 1. change (localStorage (withStorage s2 w1)) with s2.
    rewrite Hget, Htr. reflexivity. }
  change (localStorage (withStorage s2 w1)) with s2.
  split; [rewrite Hget; exact Htr|].
  split; [rewrite Hbt, Hst; reflexivity|].
  split.
  - destruct (setLocalVote_step id (ToString tok) label (map optionLabel opts)
                (localStorage w1) Hpid Hptok (or_introl Hproto)) as (Ht1 & Hb1 & _);
      [rewrite Hst; exact Ht|exact Hlabel|].
    pose proof (tallied_initCounts _ (map ToStringJ opts) Ht1) as Ht2.
    replace (voteStateOf id s2)
      with (mkVoteState (byToken (voteStateOf id (setLocalVote id (ToString tok) label
                                    (map optionLabel opts) (localStorage w1))))
              (initCounts (map ToStringJ opts)
                 (counts (voteStateOf id (setLocalVote id (ToString tok) label
                                    (map optionLabel opts) (localStorage w1)))))).
    + exact Ht2.
    + destruct (voteStateOf id s2) as [b c] eqn:E. cbn [byToken counts] in Hbt, Hcn.
      rewrite Hb1, Hbt, Hcn. reflexivity.
  - intros other Hne. rewrite (Hoth other Hne), Hv. reflexivity.
Qed.

Lemma getLocalSelectedChoice_run (poll : value) (w : World) :
  truthy (optProp poll "id") = true ->
  truthy (getToken (optProp poll "id") (localStorage w)) = true ->
  getLocalSelectedChoice poll w
  = (Ok (match byToken (voteStateOf (ToString (optProp poll "id")) (localStorage w))
                 !! ToString (getToken (optProp poll "id") (localStorage w)) with
         | Some c => if String.eqb c "" then None else Some c
         | None => None
         end), w).
Proof.
  intros Hid Htok. unfold getLocalSelectedChoice. rewrite Hid. cbn [negb].
  unfold bind at 1. rewrite ensureLocalToken_run, Htok.
  unfold bind, getStorage, ret. rewrite byToken_voteStateOf. reflexivity.
Qed.

(** What a run of votes on one local poll keeps. *)
Lemma castVotes_local_inv (poll : value) (opts : list json) (labels : list string)
    (last : string) (w : World) :
  truthy (optProp poll "id") = true -> isLocalPoll poll = true -> optionsOf poll opts ->
  plainKey (ToString (optProp poll "id")) = true ->
  plainKey (ToString (deviceToken (optProp poll "id") w)) = true ->
  tallied (voteStateOf (ToString (optProp poll "id")) (localStorage w)) ->
  Forall (fun l => l <> "" /\ l <> "__proto__") (labels ++ [last]) ->
  let id := ToString (optProp poll "id") in
  let w' := castVotes showRemotePoll poll (labels ++ [last]) w in
  deviceToken (optProp poll "id") w' = deviceToken (optProp poll "id") w
  /\ truthy (getToken (optProp poll "id") (localStorage w')) = true
  /\ byToken (voteStateOf id (localStorage w'))
     = <[ToString (deviceToken (optProp poll "id") w) := last]>
         (byToken (voteStateOf id (localStorage w)))
  /\ tallied (voteStateOf id (localStorage w'))
  /\ (forall other, other <> id ->
        loadLocalVotesAll (localStorage w') !! other
        = loadLocalVotesAll (localStorage w) !! other)
  /\ sent w' = sent w /\ net w' = net w /\ host w' = host w
  /\ credentialsOf (localStorage w') = credentialsOf (localStorage w)
  /\ loadLocalPolls (localStorage w') = loadLocalPolls (localStorage w).
Proof.
  intros Hid Hloc Hopts Hpid. cbv zeta. revert w.
  induction labels as [|l labels IH]; intros w Hptok Ht Hall.
  - cbn [app castVotes fold_left]. apply Forall_inv in Hall.
    destruct (castVote_local_step poll last opts w Hid Hloc Hopts Hpid Hptok Ht Hall)
      as (H1 & H2 & H3 & H4 & H5).
    destruct (castVote_local_quiet poll last w Hloc) as (_ & H6 & H7 & H8 & H9 & H10).
    exact (conj H1 (conj H2 (conj H3 (conj H4 (conj H5 (conj H6 (conj H7 (conj H8
             (conj H9 H10))))))))).
  - cbn [app]. change (l :: labels ++ [last]) with (l :: (labels ++ [last])) in *.
    pose proof (Forall_inv Hall) as Hl. apply Forall_inv_tail in Hall.
    unfold castVotes. cbn [fold_left]. fold (castVotes showRemotePoll poll).
    destruct (castVote_local_step poll l opts w Hid Hloc Hopts Hpid Hptok Ht Hl)
      as (H1 & H2 & H3 & H4 & H5).
    destruct (castVote_local_quiet poll l w Hloc) as (_ & H6 & H7 & H8 & H9 & H10).
    set (w1 := snd (castVote showRemotePoll poll l w)) in *.
    assert (Hptok1 : plainKey (ToString (deviceToken (optProp poll "id") w1)) = true)
      by (rewrite H1; exact Hptok).
    destruct (IH w1 Hptok1 H4 Hall) as (I1 & I2 & I3 & I4 & I5 & I6 & I7 & I8 & I9 & I10).
    fold (castVotes showRemotePoll poll (labels ++ [last]) w1).
    set (w' := castVotes showRemotePoll poll (labels ++ [last]) w1) in *.
    split; [congruence|]. split; [exact I2|].
    split; [rewrite I3, H1, H3, insert_insert_eq; reflexivity|].
    split; [exact I4|].
    split; [intros other Hne; rewrite (I5 other Hne); apply H5, Hne|].
    repeat split; congruence.
Qed.

End LocalVote.

Lemma votesFor_singleton (t c l : string) :
  votesFor {[t := c]} l = if decide (c = l) then 1 else 0.
Proof.
  change ({[t := c]} : gmap string string) with (<[t := c]> (∅ : gmap string string)).
  rewrite votesFor_insert, lookup_empty, votesFor_measure, measure_empty. lia.
Qed.

Lemma voters_singleton (t c : string) : voters {[t := c]} = 1.
Proof.
  change ({[t := c]} : gmap string string) with (<[t := c]> (∅ : gmap string string)).
  rewrite voters_insert, lookup_empty, voters_measure, measure_empty. reflexivity.
Qed.

(** X14: on a local poll whose identifier and device token name no member
    of [Object.prototype], however often this browser votes with labels
    that are neither empty nor ["__proto__"], it holds one vote there, the
    label chosen last: the votes of the other tokens and of the other polls
    stay, the tallies stay sound, the highlighted choice is the last label,
    and on a poll without earlier votes the results count one vote, under
    that label. Nothing is sent, and the identity, the stamps and the
    stored polls are not touched. *)
Theorem castVote_local_one_vote (showRemotePoll : value -> M unit) (poll : value)
    (opts : list json) (labels : list string) (last : string) (w : World) :
  truthy (optProp poll "id") = true -> isLocalPoll poll = true -> optionsOf poll opts ->
  plainKey (ToString (optProp poll "id")) = true ->
  plainKey (ToString (deviceToken (optProp poll "id") w)) = true ->
  tallied (voteStateOf (ToString (optProp poll "id")) (localStorage w)) ->
  Forall (fun l => l <> "" /\ l <> "__proto__") (labels ++ [last]) ->
  let id := ToString (optProp poll "id") in
  let token := ToString (deviceToken (optProp poll "id") w) in
  let w' := castVotes showRemotePoll poll (labels ++ [last]) w in
  let res := fst (buildLocalResults id (map ToStringJ opts) (localStorage w')) in
  byToken (voteStateOf id (localStorage w'))
  = <[token := last]> (byToken (voteStateOf id (localStorage w)))
  /\ tallied (voteStateOf id (localStorage w'))
  /\ getLocalSelectedChoice poll w' = (Ok (Some last), w')
  /\ lr_total_votes res = voters (byToken (voteStateOf id (localStorage w')))
  /\ (forall l, countOf (lr_counts res) l
                = votesFor (byToken (voteStateOf id (localStorage w'))) l)
  /\ (loadLocalVotesAll (localStorage w) !! id = None ->
      lr_total_votes res = 1
      /\ forall l, countOf (lr_counts res) l = if decide (last = l) then 1 else 0)
  /\ (forall other, other <> id ->
        loadLocalVotesAll (localStorage w') !! other
        = loadLocalVotesAll (localStorage w) !! other)
  /\ sent w' = sent w /\ net w' = net w
  /\ credentialsOf (localStorage w') = credentialsOf (localStorage w)
  /\ loadLocalPolls (localStorage w') = loadLocalPolls (localStorage w).
Proof.
  intros Hid Hloc Hopts Hpid Hptok Ht Hall. cbv zeta.
  destruct (castVotes_local_inv showRemotePoll poll opts labels last w Hid Hloc Hopts
              Hpid Hptok Ht Hall)
    as (I1 & I2 & I3 & I4 & I5 & I6 & I7 & _ & I9 & I10).
  set (w' := castVotes showRemotePoll poll (labels ++ [last]) w) in *.
  set (id := ToString (optProp poll "id")) in *.
  assert (Hlast : last <> "").
  { rewrite Forall_app in Hall. destruct Hall as (_ & Hl). apply Forall_inv in Hl.
    apply Hl. }
  assert (Htok : getToken (optProp poll "id") (localStorage w')
                 = deviceToken (optProp poll "id") w).
  { rewrite <- I1. unfold deviceToken. rewrite I2. reflexivity. }
  assert (Hres : lr_total_votes (fst (buildLocalResults id (map ToStringJ opts)
                                        (localStorage w')))
                 = voters (byToken (voteStateOf id (localStorage w')))
                 /\ forall l, countOf (lr_counts (fst (buildLocalResults id
                                 (map ToStringJ opts) (localStorage w')))) l
                              = votesFor (byToken (voteStateOf id (localStorage w'))) l).
  { rewrite buildLocalResults_eq. cbn [fst lr_total_votes lr_counts].
    destruct (voteStateOf_getLocalVoteState id (map ToStringJ opts) (localStorage w') Hpid)
      as (-> & _). cbn [counts].
    destruct I4 as (_ & Hcnt & Hsum). split.
    - rewrite initCounts_sum. exact Hsum.
    - intros l. rewrite initCounts_countOf. apply Hcnt. }
  destruct Hres as (Htot & Hcnt).
  split; [exact I3|]. split; [exact I4|]. split.
  { rewrite (getLocalSelectedChoice_run poll w' Hid I2). fold id.
    rewrite Htok, I3, lookup_insert_eq.
    destruct (String.eqb_spec last ""); [contradiction|reflexivity]. }
  split; [exact Htot|]. split; [exact Hcnt|]. split.
  { intros Hfresh.
    assert (Hb : byToken (voteStateOf id (localStorage w'))
                 = {[ToString (deviceToken (optProp poll "id") w) := last]}).
    { rewrite I3. unfold voteStateOf. rewrite Hfresh. reflexivity. }
    split.
    - rewrite Htot, Hb. apply voters_singleton.
    - intros l. rewrite Hcnt, Hb. apply votesFor_singleton. }
  repeat split; assumption.
Qed.

Lemma castVote_local_one_vote_witness :
  let poll := Some lunchPoll in
  let id := ToString (optProp poll "id") in
  let w' := castVotes showNothing poll (["Pizza"] ++ ["Tacos"]) demoWorld in
  getLocalSelectedChoice poll w' = (Ok (Some "Tacos"), w')
  /\ lr_total_votes (fst (buildLocalResults id (map ToStringJ [JStr "Pizza"; JStr "Tacos"])
                            (localStorage w')))
     = 1.
Proof.
  assert (Hall : Forall (fun l => l <> "" /\ l <> "__proto__") (["Pizza"] ++ ["Tacos"])).
  { repeat (constructor; [split; discriminate|]). constructor. }
  assert (Hid : truthy (optProp (Some lunchPoll) "id") = true) by (vm_compute; reflexivity).
  assert (Hpid : plainKey (ToString (optProp (Some lunchPoll) "id")) = true)
    by (vm_compute; reflexivity).
  assert (Hptok : plainKey (ToString (deviceToken (optProp (Some lunchPoll) "id") demoWorld))
                  = true) by (vm_compute; reflexivity).
  assert (Hloc : isLocalPoll (Some lunchPoll) = true) by (vm_compute; reflexivity).
  assert (Hopts : optionsOf (Some lunchPoll) [JStr "Pizza"; JStr "Tacos"])
    by (vm_compute; reflexivity).
  assert (Hfresh : loadLocalVotesAll (localStorage demoWorld)
                     !! ToString (optProp (Some lunchPoll) "id") = None)
    by (vm_compute; reflexivity).
  assert (Ht : tallied (voteStateOf (ToString (optProp (Some lunchPoll) "id"))
                          (localStorage demoWorld))).
  { unfold voteStateOf. rewrite Hfresh. apply tallied_empty. }
  destruct (castVote_local_one_vote showNothing (Some lunchPoll)
              [JStr "Pizza"; JStr "Tacos"] ["Pizza"] "Tacos" demoWorld
              Hid Hloc Hopts Hpid Hptok Ht Hall)
    as (_ & _ & Hsel & _ & _ & Hone & _).
  cbv zeta. split; [exact Hsel|]. destruct (Hone Hfresh) as (H1 & _). exact H1.
Defined.

(** ** Creating a draft *)

Lemma formOptions_clean (poll_type newOptions : string) :
  Forall cleanLabel (formOptions poll_type newOptions).
Proof.
  unfold formOptions.
  assert (H : Forall cleanLabel
                (filter (fun x => x <> "") (map trim (splitLines newOptions)))).
  { apply list.Forall_forall. intros o Ho.
    apply list_elem_of_filter in Ho as [Hne Ho].
    apply list_elem_of_fmap in Ho as (x & -> & _).
    split; [exact Hne | apply trim_idempotent]. }
  destruct (_ && _); [|exact H].
  repeat constructor; try discriminate; vm_compute; reflexivity.
Qed.

Section CreateDraft.

Variable showLocalPoll : json -> M unit.

Lemma createPollClick_run (newTitle newType newOptions question_html : string)
    (w : World) :
  let title := trim newTitle in
  let poll_type := if String.eqb newType "" then "YES_NO" else newType in
  let options := formOptions poll_type newOptions in
  let localPoll :=
    JObj {[ "id" := JStr ("local_" +:+ host_uuid (host w) (tick w)); "title" := JStr title;
            "poll_type" := JStr poll_type; "options" := JArr (map JStr options);
            "question_html" := JStr question_html;
            "created_at" := JNum (host_now (host w) (S (tick w)));
            "is_local" := JBool true; "status" := JStr "OPEN" ]} in
  let w1 := mkWorld (addLocalPoll localPoll (localStorage w)) (net w) (sent w) (host w)
                    (S (S (tick w))) in
  createPollClick showLocalPoll newTitle newType newOptions question_html w
  = if String.eqb title "" then (Ok TitleRequired, w)
    else if (length options <? 2)%nat then (Ok NeedTwoOptions, w)
    else (match fst (showLocalPoll localPoll w1) with
          | Ok _ => Ok (CreatedLocal localPoll)
          | Thrown e => Thrown e
          end, snd (showLocalPoll localPoll w1)).
Proof.
  cbv zeta. unfold createPollClick.
  destruct (String.eqb (trim newTitle) ""); [reflexivity|].
  destruct (length _ <? 2)%nat; [reflexivity|].
  cbv [bind makeId Date_now draw getHost modifyStorage ret].
  cbn [fst snd localStorage net sent host tick].
  destruct (showLocalPoll _ _) as [[[]|e] w2]; reflexivity.
Qed.

End CreateDraft.

(** X15: the creation form stores a draft only when the trimmed title is
    not empty and at least two options remain; otherwise it answers with
    its message and changes nothing. The options kept are the lines of the
    field, trimmed, without the empty ones (["Yes"] and ["No"] for a
    [YES_NO] poll without any). A stored draft is the first of the local
    polls and is found under its identifier, ["local_"] followed by a fresh
    identifier; it is a local poll with that key, its options are the ones
    kept, and a vote on it never goes to the Exchange. Up to there nothing
    is sent and no vote, token or credential is touched: the world [w1] in
    which the handler goes on to [refreshPolls] and [openPoll] (which do
    send a request and store a token and zero counts, and are left to the
    presentation [showLocalPoll]) differs from the world before by the
    draft alone. *)
Theorem createPollClick_draft (showLocalPoll : json -> M unit)
    (newTitle newType newOptions question_html : string) (w : World) :
  let title := trim newTitle in
  let poll_type := if String.eqb newType "" then "YES_NO" else newType in
  let options := formOptions poll_type newOptions in
  let id := "local_" +:+ host_uuid (host w) (tick w) in
  let out := createPollClick showLocalPoll newTitle newType newOptions question_html w in
  Forall cleanLabel options
  /\ (title = "" -> out = (Ok TitleRequired, w))
  /\ (title <> "" -> (length options < 2)%nat -> out = (Ok NeedTwoOptions, w))
  /\ (title <> "" -> (2 <= length options)%nat ->
      exists p w1,
        out = (match fst (showLocalPoll p w1) with
               | Ok _ => Ok (CreatedLocal p)
               | Thrown e => Thrown e
               end, snd (showLocalPoll p w1))
        /\ loadLocalPolls (localStorage w1) = p :: loadLocalPolls (localStorage w)
        /\ getLocalPoll id (localStorage w1) = Ok (Some p)
        /\ optProp (Some p) "id" = Some (JStr id)
        /\ optProp (Some p) "title" = Some (JStr title)
        /\ optProp (Some p) "status" = Some (JStr "OPEN")
        /\ optionsOf (Some p) (map JStr options)
        /\ isLocalPoll (Some p) = true /\ draftKey (Some p) = id
        /\ (forall label w2,
              castExchangeVoteByLabel (Some p) label w2
              = (Ok (VoteFailed local_poll_id_not_valid_on_exchange), w2))
        /\ sent w1 = sent w /\ net w1 = net w /\ host w1 = host w
        /\ loadLocalVotesAll (localStorage w1) = loadLocalVotesAll (localStorage w)
        /\ getTokens (localStorage w1) = getTokens (localStorage w)
        /\ credentialsOf (localStorage w1) = credentialsOf (localStorage w)).
Proof.
  cbv zeta. rewrite createPollClick_run. cbv zeta.
  split; [apply formOptions_clean|].
  split; [intros ->; reflexivity|].
  split.
  { intros Ht Hlen. destruct (String.eqb_spec (trim newTitle) ""); [contradiction|].
    apply Nat.ltb_lt in Hlen. rewrite Hlen. reflexivity. }
  intros Ht Hlen. destruct (String.eqb_spec (trim newTitle) ""); [contradiction|].
  apply Nat.ltb_ge in Hlen. rewrite Hlen.
  eexists. eexists. split; [reflexivity|].
  cbn [localStorage sent net host].
  split; [reflexivity|].
  split.
  { unfold getLocalPoll, addLocalPoll, loadLocalPolls.
    cbn [set_local_polls breadpoll_local_polls_v1 findLocalPoll].
    replace (getProp (JObj _) "id")
      with (Some (JStr ("local_" +:+ host_uuid (host w) (tick w))))
      by (symmetry; apply lookup_insert_eq).
    cbn [strict_eq_str]. rewrite String.eqb_refl. reflexivity. }
  split; [apply lookup_insert_eq|].
  split; [reflexivity|]. split; [reflexivity|].
  split; [reflexivity|].
  split; [reflexivity|].
  split.
  { unfold draftKey. reflexivity. }
  split.
  { intros label w2. unfold castExchangeVoteByLabel. cbv zeta.
    replace (exchangePollIdOf (Some (JObj _)))
      with (Some (JStr ("local_" +:+ host_uuid (host w) (tick w)))) by reflexivity.
    change (ToString (Some (JStr ("local_" +:+ host_uuid (host w) (tick w)))))
      with ("local_" +:+ host_uuid (host w) (tick w)).
    unfold startsWith. rewrite prefix_app. reflexivity. }
  repeat split.
Qed.

Lemma createPollClick_draft_witness :
  let out := createPollClick showNothing " Lunch? " "single"
               ("Pizza" +:+ LF +:+ " Tacos " +:+ LF) "" demoWorld in
  exists p,
    fst out = Ok (CreatedLocal p)
    /\ optionsOf (Some p) [JStr "Pizza"; JStr "Tacos"]
    /\ getLocalPoll "local_7f3c" (localStorage (snd out)) = Ok (Some p).
Proof.
  assert (Ht : trim " Lunch? " <> "") by (vm_compute; discriminate).
  assert (Ho : formOptions "single" ("Pizza" +:+ LF +:+ " Tacos " +:+ LF)
               = ["Pizza"; "Tacos"]) by (vm_compute; reflexivity).
  destruct (createPollClick_draft showNothing " Lunch? " "single"
              ("Pizza" +:+ LF +:+ " Tacos " +:+ LF) "" demoWorld)
    as (_ & _ & _ & Hcreated).
  destruct Hcreated as (p & w1 & Hout & _ & Hfound & _ & _ & _ & Hopts & _);
    [exact Ht | cbv zeta; cbn [String.eqb]; rewrite Ho; simpl; lia |].
  cbv zeta in *. cbn [String.eqb] in Hopts. rewrite Ho in Hopts.
  exists p. rewrite Hout. cbn [showNothing ret fst snd].
  split; [reflexivity|]. split; [exact Hopts | exact Hfound].
Defined.

(** ** Votes the Exchange never sees, and revotes *)

Lemma getOrFetchOneStampOrNull_none (w : World) :
  getExchangeStampPool (localStorage w) = [] ->
  getExchangeHmacCredsOrNull (localStorage w) = None ->
  getOrFetchOneStampOrNull w = (Ok (Some JNull), w).
Proof.
  intros Hp Hc. unfold getOrFetchOneStampOrNull, bind, getStorage.
  rewrite Hp, Hc. reflexivity.
Qed.

(** X16: the votes [castExchangeVoteByLabel] refuses before any request. A
    poll whose identifier begins with ["local_"], a poll without
    identifier, a label that is none of the options, a first vote (no
    token stored for the identifier, whose text names no member of
    [Object.prototype]) on a device with neither stamp nor identity: each
    ends in its failure, and options that are not an array in a
    [TypeError]; in all of them the world is left exactly as it was, so
    nothing is sent and no stamp is spent. *)
Theorem castExchangeVoteByLabel_refuses (poll : value) (label : string) (w : World) :
  let pollId := exchangePollIdOf poll in
  let out := castExchangeVoteByLabel poll label w in
  (startsWith (ToString pollId) "local_" = true ->
   out = (Ok (VoteFailed local_poll_id_not_valid_on_exchange), w))
  /\ (startsWith (ToString pollId) "local_" = false -> truthy pollId = false ->
      out = (Ok (VoteFailed missing_poll_id), w))
  /\ (startsWith (ToString pollId) "local_" = false -> truthy pollId = true ->
      (forall opts, optionsOf poll opts -> optionIndex opts label = None ->
         out = (Ok (VoteFailed bad_option), w))
      /\ ((forall opts, ~ optionsOf poll opts) -> out = (Thrown TypeError, w))
      /\ (forall opts idx, optionsOf poll opts -> optionIndex opts label = Some idx ->
            plainKey (ToString pollId) = true ->
            truthy (getToken pollId (localStorage w)) = false ->
            getExchangeStampPool (localStorage w) = [] ->
            getExchangeHmacCredsOrNull (localStorage w) = None ->
            out = (Ok (VoteFailed no_stamp), w))).
Proof.
  cbv zeta. split; [|split].
  - intros Hloc. unfold castExchangeVoteByLabel. cbv zeta. rewrite Hloc. reflexivity.
  - intros Hloc Hid. unfold castExchangeVoteByLabel. cbv zeta. rewrite Hloc, Hid.
    reflexivity.
  - intros Hloc Hid. split; [|split].
    + intros opts Hopts Hidx.
      rewrite (castExchangeVoteByLabel_run poll label opts w Hloc Hid Hopts), Hidx.
      reflexivity.
    + intros Hnot. unfold castExchangeVoteByLabel. cbv zeta.
      rewrite Hloc, Hid. cbn [negb].
      unfold bind at 1, getStorage. cbn [fst snd].
      rewrite (truthy_exchangePollIdOf poll "options" Hid).
      unfold bind at 1, liftR, ret at 1. cbn [fst snd].
      destruct (js_or (optProp poll "options") (Some (JArr []))) as [[| ? | ? | ? | opts | ?]|]
        eqn:E; try reflexivity.
      exfalso. apply (Hnot opts). exact E.
    + intros opts idx Hopts Hidx _ Htok Hpool Hcreds.
      rewrite (castExchangeVoteByLabel_run poll label opts w Hloc Hid Hopts), Hidx.
      cbv zeta. rewrite Htok. unfold bind at 1.
      rewrite (getOrFetchOneStampOrNull_none w Hpool Hcreds). reflexivity.
Qed.

Lemma castExchangeVoteByLabel_refuses_witness :
  castExchangeVoteByLabel (Some demoPoll) "Maybe" demoWorld
  = (Ok (VoteFailed bad_option), demoWorld)
  /\ castExchangeVoteByLabel (Some demoDraft) "Yes" demoWorld
     = (Ok (VoteFailed local_poll_id_not_valid_on_exchange), demoWorld)
  /\ castExchangeVoteByLabel (Some demoPoll) "No" anonymousWorld
     = (Ok (VoteFailed no_stamp), anonymousWorld).
Proof.
  destruct (castExchangeVoteByLabel_refuses (Some demoPoll) "Maybe" demoWorld)
    as (_ & _ & Hbad).
  destruct Hbad as (Hbad & _); [vm_compute; reflexivity | vm_compute; reflexivity |].
  destruct (castExchangeVoteByLabel_refuses (Some demoDraft) "Yes" demoWorld)
    as (Hlocal & _).
  destruct (castExchangeVoteByLabel_refuses (Some demoPoll) "No" anonymousWorld)
    as (_ & _ & Hnone).
  destruct Hnone as (_ & _ & Hnone); [vm_compute; reflexivity | vm_compute; reflexivity |].
  split; [|split].
  - apply (Hbad [JObj {[ "id" := JStr "1"; "label" := JStr "Yes" ]};
                 JObj {[ "id" := JStr "2"; "label" := JStr "No" ]}]);
      vm_compute; reflexivity.
  - apply Hlocal. vm_compute. reflexivity.
  - apply (Hnone [JObj {[ "id" := JStr "1"; "label" := JStr "Yes" ]};
                  JObj {[ "id" := JStr "2"; "label" := JStr "No" ]}] 1%nat);
      vm_compute; reflexivity.
Defined.

(** X17: a vote on a poll for which the device holds a voter token, the
    text of the poll identifier naming no member of [Object.prototype], is
    a revote. It sends exactly one request, the vote, with the token in
    [X-Voter-Token] and no [X-Stamp]; no stamp is taken or minted and the
    credentials stay. When the Exchange accepts it the result is [ok], the
    label becomes the remembered choice and a token sent back replaces
    the stored one; when it rejects it, with whatever status, the result is
    the failure and the store is as before; when it cannot be reached the
    call throws and the store is as before. *)
Theorem castExchangeVoteByLabel_revote (poll : value) (label : string)
    (opts : list json) (idx : nat) (w : World) :
  startsWith (ToString (exchangePollIdOf poll)) "local_" = false ->
  truthy (exchangePollIdOf poll) = true ->
  plainKey (ToString (exchangePollIdOf poll)) = true ->
  truthy (getToken (exchangePollIdOf poll) (localStorage w)) = true ->
  optionsOf poll opts -> optionIndex opts label = Some idx ->
  let pollId := exchangePollIdOf poll in
  let token := getToken pollId (localStorage w) in
  let rq := voteRequest pollId
              [("Content-Type", "application/json"); ("X-Voter-Token", ToString token)]
              (JObj {[ "option_id" := JStr (optionIdAt opts idx) ]}) in
  let out := castExchangeVoteByLabel poll label w in
  sent (snd out) = sent w ++ [rq]
  /\ headerOf "X-Voter-Token" rq = Some (ToString token)
  /\ headerOf "X-Stamp" rq = None
  /\ credentialsOf (localStorage (snd out)) = credentialsOf (localStorage w)
  /\ match net w (sent w) rq with
     | Unreachable =>
         fst out = Thrown NetworkFailure /\ localStorage (snd out) = localStorage w
     | Http status body =>
         if status_ok status then
           fst out = Ok VoteOk
           /\ getRemoteLastChoice pollId (localStorage (snd out))
              = (if String.eqb label "" then None else Some label)
           /\ getToken pollId (localStorage (snd out))
              = match optProp (parseBodyOrNull body) "voter_token" with
                | Some tok => if truthyJ tok then Some tok else token
                | None => token
                end
         else
           fst out = Ok (VoteFailed (rejected status body))
           /\ localStorage (snd out) = localStorage w
     end.
Proof.
  intros Hloc Hid Hplain Htok Hopts Hidx. cbv zeta.
  apply plainKey_proto in Hplain.
  rewrite (castExchangeVoteByLabel_run poll label opts w Hloc Hid Hopts), Hidx.
  cbv zeta. rewrite Htok. cbn [negb andb].
  set (rq := voteRequest _ _ _).
  set (w1 := mkWorld (localStorage w) (net w) (sent w ++ [rq]) (host w) (tick w)).
  match goal with
  | |- context [sent (snd (?m w))] =>
      assert (Hout : m w
                = match net w (sent w) rq with
                  | Unreachable => (Thrown NetworkFailure, w1)
                  | Http status body =>
                      if status_ok status
                      then (Ok VoteOk, snd (recordVoteReply (exchangePollIdOf poll) label body w1))
                      else (Ok (VoteFailed (rejected status body)), w1)
                  end)
  end.
  { unfold bind at 1, ret at 1. cbn [fst snd]. unfold bind at 1, fetch. fold w1.
    destruct (net w (sent w) rq) as [|status body]; [reflexivity|].
    destruct (status_ok status); cbn [negb].
    - unfold bind at 1. rewrite recordVoteReply_run. reflexivity.
    - reflexivity. }
  rewrite Hout. clear Hout.
  split; [|split; [reflexivity|split; [reflexivity|]]].
  - destruct (net w (sent w) rq) as [|status body]; [reflexivity|].
    destruct (status_ok status); [|reflexivity].
    rewrite recordVoteReply_run. reflexivity.
  - destruct (net w (sent w) rq) as [|status body]; [repeat split|].
    destruct (status_ok status); [|repeat split].
    rewrite recordVoteReply_run. cbn [fst snd localStorage withStorage w1].
    split; [|split; [reflexivity|split]].
    + destruct (optProp (parseBodyOrNull body) "voter_token") as [tok|];
        [destruct (truthyJ tok)|]; reflexivity.
    + unfold getRemoteLastChoice, setRemoteLastChoice.
      cbn [breadpoll_remote_last_choice_v1 set_last_choice].
      rewrite js_set_insert by (left; exact Hplain).
      rewrite lookup_insert_eq. reflexivity.
    + destruct (optProp (parseBodyOrNull body) "voter_token") as [tok|] eqn:E.
      * destruct (truthyJ tok) eqn:Et.
        -- unfold getToken, setRemoteLastChoice, setToken, getTokens.
           cbn [breadpoll_tokens set_last_choice set_tokens].
           rewrite js_set_insert by (left; exact Hplain).
           rewrite lookup_insert_eq. unfold js_or. cbn [truthy]. rewrite Et.
           reflexivity.
        -- reflexivity.
      * reflexivity.
Qed.

Lemma castExchangeVoteByLabel_revote_witness :
  let out := castExchangeVoteByLabel (Some demoPoll) "No" tokenWorld in
  map (headerOf "X-Voter-Token") (sent (snd out)) = [Some "vt_1"]
  /\ map (headerOf "X-Stamp") (sent (snd out)) = [None].
Proof.
  assert (Hloc : startsWith (ToString (exchangePollIdOf (Some demoPoll))) "local_" = false)
    by (vm_compute; reflexivity).
  assert (Hid : truthy (exchangePollIdOf (Some demoPoll)) = true)
    by (vm_compute; reflexivity).
  assert (Hplain : plainKey (ToString (exchangePollIdOf (Some demoPoll))) = true)
    by (vm_compute; reflexivity).
  assert (Htok : truthy (getToken (exchangePollIdOf (Some demoPoll))
                           (localStorage tokenWorld)) = true)
    by (vm_compute; reflexivity).
  assert (Hopts : optionsOf (Some demoPoll)
                    [JObj {[ "id" := JStr "1"; "label" := JStr "Yes" ]};
                     JObj {[ "id" := JStr "2"; "label" := JStr "No" ]}])
    by (vm_compute; reflexivity).
  assert (Hidx : optionIndex [JObj {[ "id" := JStr "1"; "label" := JStr "Yes" ]};
                              JObj {[ "id" := JStr "2"; "label" := JStr "No" ]}] "No"
                 = Some 1%nat)
    by (vm_compute; reflexivity).
  destruct (castExchangeVoteByLabel_revote (Some demoPoll) "No" _ 1%nat tokenWorld
              Hloc Hid Hplain Htok Hopts Hidx) as (Hs & Hv & Hst & _).
  cbv zeta. rewrite Hs. cbn [sent tokenWorld app map]. rewrite Hv, Hst.
  split; vm_compute; reflexivity.
Defined.

(** ** The results of a local poll, normalized *)

Lemma sumValues_sumZ (StringToNumber : string -> option Z) (values : list json) :
  sumValues StringToNumber values
  = sumZ (map (fun b => default 0 (ToNumber StringToNumber b)) values).
Proof.
  unfold sumValues.
  assert (H : forall a, fold_left (fun a b => a + default 0 (ToNumber StringToNumber b))
                          values a
                        = a + sumZ (map (fun b => default 0 (ToNumber StringToNumber b))
                                        values)).
  { induction values as [|v values IH]; intros a; simpl; [lia|]. rewrite IH. lia. }
  rewrite H. lia.
Qed.

Lemma sumValues_counts (StringToNumber : string -> option Z) (c : gmap string Z) :
  sumValues StringToNumber (Object_values (JObj (JNum <$> c))) = sumCounts c.
Proof.
  rewrite sumValues_sumZ, sumCounts_measure. unfold measure, Object_values.
  rewrite map_to_list_fmap. f_equal.
  change (prod_map id JNum <$> map_to_list c) with (map (prod_map id JNum) (map_to_list c)).
  rewrite !map_map. apply map_ext. intros [k v]. reflexivity.
Qed.

(** X18: what [normalizeResults] makes of the results [buildLocalResults]
    builds for a local poll: the totals are the counts, [total_votes] is
    the total, the represented weight is that same total, and the fields
    a local poll has not ([people_voted], [validated], [weights_used]) are
    [null]; it does not throw. *)
Theorem normalizeResults_local (StringToNumber : string -> option Z) (pollId : string)
    (options : list string) (s : Storage) :
  let res := fst (buildLocalResults pollId options s) in
  exists n,
    normalizeResults StringToNumber (Some (localResultsObject res)) = Ok n
    /\ n_totals n = JObj (JNum <$> lr_counts res)
    /\ n_total_votes n = JNum (lr_total_votes res)
    /\ n_represented_weight n = lr_total_votes res
    /\ n_people_voted n = JNull /\ n_validated n = JNull /\ n_weights_used n = JNull.
Proof.
  cbv zeta. rewrite buildLocalResults_eq. cbn [fst].
  set (c := counts (fst (getLocalVoteState pollId options s))).
  eexists. split; [reflexivity|].
  cbn [n_totals n_total_votes n_represented_weight n_people_voted n_validated
       n_weights_used].
  split; [reflexivity|]. split; [reflexivity|].
  split; [|repeat split].
  apply (sumValues_counts StringToNumber c).
Qed.

(** ** Creating an identity *)




Section IdentityCreated.

Variable StringToNumber : string -> option Z.


End IdentityCreated.




(** ** Signatures and credentials *)

Lemma length_hmac (key msg : list Z) : length (SHA256.hmac key msg) = 32%nat.
Proof. reflexivity. Qed.

(** X20: [hmacSha256Hex] throws exactly when the key is not hex text of
    even length, white space around it apart; otherwise it returns the
    HMAC-SHA256 of the message under the key bytes as 64 hex digits. It
    changes nothing and draws nothing. *)
Theorem hmacSha256Hex_signature (keyHex message : string) (w : World) :
  match hexToBytes keyHex with
  | None =>
      hmacSha256Hex keyHex message w
      = (Thrown (Error "Signing key must be hex (even length)."), w)
  | Some keyBytes =>
      hmacSha256Hex keyHex message w
      = (Ok (bytesToHex (SHA256.hmac keyBytes (encode message))), w)
      /\ String.length (bytesToHex (SHA256.hmac keyBytes (encode message))) = 64%nat
      /\ Forall isHexDigit (chars (bytesToHex (SHA256.hmac keyBytes (encode message))))
      /\ hmacSha256Hex (trim keyHex) message w = hmacSha256Hex keyHex message w
  end.
Proof.
  unfold hmacSha256Hex, hmacSha256Hex_pure.
  assert (Htrim : hexToBytes (trim keyHex) = hexToBytes keyHex).
  { unfold hexToBytes. rewrite trim_idempotent. reflexivity. }
  rewrite Htrim.
  destruct (hexToBytes keyHex) as [keyBytes|]; [|reflexivity].
  split; [reflexivity|]. split; [|split; [|reflexivity]].
  - rewrite length_bytesToHex, length_hmac. reflexivity.
  - apply (list.Forall_impl _ _ _ (chars_bytesToHex _)). intros c [_ Hc]. exact Hc.
Qed.

Lemma hmacSha256Hex_signature_witness :
  hmacSha256Hex (NBSP +:+ "00ff" +:+ LF) "m" demoWorld = hmacSha256Hex "00ff" "m" demoWorld
  /\ fst (hmacSha256Hex ("00" +:+ NBSP +:+ "ff") "m" demoWorld)
     = Thrown (Error "Signing key must be hex (even length).").
Proof.
  pose proof (hmacSha256Hex_signature (NBSP +:+ "00ff" +:+ LF) "m" demoWorld) as Hyes.
  change (hexToBytes (NBSP +:+ "00ff" +:+ LF)) with (Some [0; 255]) in Hyes.
  pose proof (hmacSha256Hex_signature ("00" +:+ NBSP +:+ "ff") "m" demoWorld) as Hno.
  change (hexToBytes ("00" +:+ NBSP +:+ "ff")) with (@None (list Z)) in Hno.
  cbv iota beta in Hyes, Hno.
  destruct Hyes as (_ & _ & _ & Hyes).
  change (trim (NBSP +:+ "00ff" +:+ LF)) with "00ff" in Hyes.
  split; [symmetry; exact Hyes | rewrite Hno; reflexivity].
Defined.

(** X21: the credentials read from the store are the stored identifier and
    key without the white space around them, the white space being that of
    [String.prototype.trim]: both are then not empty, neither begins nor
    ends with a white space code point, and stored back as they are they
    are read again the same. A missing, empty or blank identifier or key
    is no identity. White space stored in front of the identifier or of
    the key changes nothing to what is read. *)
Theorem getExchangeHmacCredsOrNull_trimmed (s : Storage) :
  let i := trim (default "" (exchange_self_id s)) in
  let k := trim (default "" (exchange_signing_key s)) in
  match getExchangeHmacCredsOrNull s with
  | Some creds =>
      self_id creds = i /\ signing_key creds = k /\ i <> "" /\ k <> ""
      /\ trim (self_id creds) = self_id creds
      /\ trim (signing_key creds) = signing_key creds
      /\ spaceInFront (self_id creds) = false /\ spaceAtEnd (self_id creds) = false
      /\ spaceInFront (signing_key creds) = false /\ spaceAtEnd (signing_key creds) = false
      /\ getExchangeHmacCredsOrNull
           (set_signing_key (Some (signing_key creds)) (set_self_id (Some (self_id creds)) s))
         = Some creds
  | None => i = "" \/ k = ""
  end
  /\ forall ws ident key,
       lead is_space1 is_space2 is_space3 ws = Some "" ->
       getExchangeHmacCredsOrNull
         (set_signing_key (Some (ws +:+ key)) (set_self_id (Some (ws +:+ ident)) s))
       = getExchangeHmacCredsOrNull
           (set_signing_key (Some key) (set_self_id (Some ident) s)).
Proof.
  cbv zeta. split.
  - unfold getExchangeHmacCredsOrNull, getExchangeSelfIdOrNull,
      getExchangeSigningKeyOrNull, trimmedOrNull.
    destruct (String.eqb_spec (trim (default "" (exchange_self_id s))) "") as [Hi|Hi];
      [left; exact Hi|].
    destruct (String.eqb_spec (trim (default "" (exchange_signing_key s))) "") as [Hk|Hk];
      [right; exact Hk|].
    cbn [self_id signing_key set_signing_key set_self_id exchange_self_id
         exchange_signing_key default from_option id].
    destruct (trim_no_space (default "" (exchange_self_id s))) as (Hi1 & Hi2).
    destruct (trim_no_space (default "" (exchange_signing_key s))) as (Hk1 & Hk2).
    rewrite !trim_idempotent.
    apply String.eqb_neq in Hi as Hi', Hk as Hk'. rewrite Hi', Hk'.
    repeat split; assumption.
  - intros ws ident key Hws.
    unfold getExchangeHmacCredsOrNull, getExchangeSelfIdOrNull,
      getExchangeSigningKeyOrNull, trimmedOrNull.
    cbn [set_signing_key set_self_id exchange_self_id exchange_signing_key default
         from_option id].
    rewrite !(trim_space_in_front ws) by exact Hws. reflexivity.
Qed.

Lemma getExchangeHmacCredsOrNull_trimmed_witness :
  getExchangeHmacCredsOrNull
    (set_signing_key (Some (BOM +:+ "00ff" +:+ LF))
       (set_self_id (Some (NBSP +:+ "me" +:+ NBSP)) emptyStorage))
  = Some (mkCreds "me" "00ff")
  /\ getExchangeHmacCredsOrNull
       (set_signing_key (Some "00ff") (set_self_id (Some NBSP) emptyStorage)) = None.
Proof.
  pose proof (getExchangeHmacCredsOrNull_trimmed
                (set_signing_key (Some (BOM +:+ "00ff" +:+ LF))
                   (set_self_id (Some (NBSP +:+ "me" +:+ NBSP)) emptyStorage))) as (Hyes & _).
  cbv zeta in Hyes.
  destruct (getExchangeHmacCredsOrNull _) as [[i k]|] in Hyes |- *.
  - destruct Hyes as (Hi & Hk & _). cbn [self_id signing_key] in Hi, Hk.
    split; [rewrite Hi, Hk; vm_compute; reflexivity | vm_compute; reflexivity].
  - exfalso. destruct Hyes as [H|H]; vm_compute in H; discriminate H.
Defined.

(** ** A vote from the poll view *)

(** X22: [castVote] never throws, whatever the poll, the label, the
    Exchange and the presentation do. On a poll without identifier it does
    nothing. On a poll of the Exchange whose identifier names, as text, no
    member of [Object.prototype], a vote that is not accepted, or that
    throws, leaves the world as [castExchangeVoteByLabel] left it:
    [castVote] itself remembers no choice and shows nothing again; an
    accepted vote is remembered under the identifier of the poll before
    the poll is shown again. *)
Theorem castVote_never_throws (showRemotePoll : value -> M unit) (poll : value)
    (label : string) (w : World) :
  let pollId := optProp poll "id" in
  let out := castVote showRemotePoll poll label w in
  let vote := castExchangeVoteByLabel poll label w in
  fst out = Ok tt
  /\ (truthy pollId = false -> snd out = w)
  /\ (truthy pollId = true -> isLocalPoll poll = false ->
      plainKey (ToString pollId) = true ->
      (fst vote <> Ok VoteOk -> snd out = snd vote)
      /\ (fst vote = Ok VoteOk ->
          let remembered :=
            withStorage (setRemoteLastChoice pollId label (localStorage (snd vote)))
                        (snd vote) in
          snd out = snd (showRemotePoll pollId remembered)
          /\ getRemoteLastChoice pollId (localStorage remembered)
             = (if String.eqb label "" then None else Some label))).
Proof.
  cbv zeta.
  destruct (truthy (optProp poll "id")) eqn:Hid.
  2:{ unfold castVote. rewrite Hid. cbn [negb].
      split; [reflexivity|]. split; [reflexivity|]. intros [=]. }
  destruct (isLocalPoll poll) eqn:Hloc.
  { unfold castVote. rewrite Hid, Hloc. cbn [negb]. split.
    - unfold try_catch. destruct (bind _ _ w) as [[[]|e] w']; reflexivity.
    - split; [intros [=]|]. intros _ [=]. }
  assert (Hrun : castVote showRemotePoll poll label w
                 = (Ok tt,
                    match fst (castExchangeVoteByLabel poll label w) with
                    | Ok VoteOk =>
                        snd (showRemotePoll (optProp poll "id")
                               (withStorage
                                  (setRemoteLastChoice (optProp poll "id") label
                                     (localStorage (snd (castExchangeVoteByLabel poll label w))))
                                  (snd (castExchangeVoteByLabel poll label w))))
                    | _ => snd (castExchangeVoteByLabel poll label w)
                    end)).
  { unfold castVote. rewrite Hid, Hloc. cbn [negb].
    unfold try_catch at 1, bind at 1.
    destruct (castExchangeVoteByLabel poll label w) as [[[|err]|e] w1]; cbn [fst snd];
      try reflexivity.
    unfold bind, modifyStorage, try_catch, ret. cbn [fst snd].
    fold (withStorage (setRemoteLastChoice (optProp poll "id") label (localStorage w1)) w1).
    destruct (showRemotePoll _ _) as [[[]|e] w2]; reflexivity. }
  rewrite Hrun. cbn [fst snd].
  split; [reflexivity|]. split; [intros [=]|]. intros _ _ Hplain. split.
  - intros Hne. destruct (fst (castExchangeVoteByLabel poll label w)) as [[|err]|e];
      [contradiction Hne; reflexivity | reflexivity | reflexivity].
  - intros ->. split; [reflexivity|].
    unfold getRemoteLastChoice, setRemoteLastChoice, withStorage.
    cbn [localStorage breadpoll_remote_last_choice_v1 set_last_choice].
    rewrite js_set_insert by (left; apply plainKey_proto, Hplain).
    rewrite lookup_insert_eq. reflexivity.
Qed.

Lemma castVote_never_throws_witness :
  let out := castVote showNothing (Some demoPoll) "No" staleStampWorld in
  fst out = Ok tt
  /\ getRemoteLastChoice (Some (JStr "p1")) (localStorage (snd out)) = Some "No".
Proof.
  destruct (castVote_never_throws showNothing (Some demoPoll) "No" staleStampWorld)
    as (Hok & _ & Hremote).
  destruct Hremote as (_ & Hvoted);
    [vm_compute; reflexivity | vm_compute; reflexivity | vm_compute; reflexivity |].
  cbv zeta in Hvoted.
  destruct Hvoted as (Hsnd & Hremembered); [vm_compute; reflexivity|].
  cbv zeta. split; [exact Hok|]. rewrite Hsnd. exact Hremembered.
Defined.
